(** * 100Gaj front end: typeahead controller and calculator renderer

    A shallow embedding of [src/main.js]: the class [DelhiAreaAnalyzer]
    (debounced location search, keyboard navigation, detail loading) and
    the function [submitForm] (calculator results and their chart
    datasets, with the locally computed amortization schedule).

    JavaScript numbers are IEEE 754 binary64 values; they are modelled by
    Rocq's primitive floats, which are the same format with the same
    rounding, so every arithmetic step below is the one the script does.
    A string is the sequence of its code units, so [String.length] is the
    script's [length].  The responses of the two services are taken in the
    shape the services document: a list of search results, a location
    record, an object with numeric and text properties.
    [async] functions are modelled as resumptions: a computation runs until
    it awaits a [fetch], hands back the page as it is at that moment and a
    continuation, and is resumed later with the outcome of the request and
    the page as the handlers that ran in between have left it. *)

From Stdlib Require Import ZArith List String Ascii Bool Lia Floats.
Import ListNotations.

Local Open Scope string_scope.
Local Open Scope Z_scope.

(** Decimal literals stand for the nearest binary64 number, as in the
    script. *)
#[local] Set Warnings "-inexact-float".

(** ** JavaScript values used by the script *)

Module JS.

(** A numeric property read from a parsed JSON object: [None] is
    [undefined] (the property is absent). *)
Definition num := option float.

Definition undefined : num := None.

(** ToNumber: [undefined] converts to NaN. *)
Definition toNumber (v : num) : float :=
  match v with
  | Some x => x
  | None => nan
  end.

(** ToBoolean on a numeric property: [undefined], [0], [-0] and NaN are
    falsy. *)
Definition truthy (v : num) : bool :=
  match v with
  | Some x => negb (PrimFloat.eqb x 0%float) && negb (is_nan x)
  | None => false
  end.

(** [v > 0] *)
Definition gt0 (v : num) : bool := PrimFloat.ltb 0%float (toNumber v).

(** [a + b] on two values that are numbers or [undefined]. *)
Definition add (a b : num) : num := Some (PrimFloat.add (toNumber a) (toNumber b)).

(** An [Error] object; only its [message] is ever read. *)
Record Error := mkError { message : string }.

(** [display] of an element's style, as far as the script sets it. *)
Inductive Display := block | none.

(** The own properties of an object made by [{}]: property names (no
    array indices among them) with the strings they hold, in insertion
    order; assigning an existing property keeps its place. *)
Definition Obj := list (string * string).

Fixpoint put (k v : string) (o : Obj) : Obj :=
  match o with
  | [] => [(k, v)]
  | (k', v') :: o' =>
      if String.eqb k k' then (k, v) :: o' else (k', v') :: put k v o'
  end.

(** [o[k] = v] for a string [v].  The name [__proto__] is the accessor
    that [Object.prototype] defines: its setter ignores a value that is
    neither an object nor [null], so the assignment makes no property. *)
Definition assign (k v : string) (o : Obj) : Obj :=
  if String.eqb k "__proto__" then o else put k v o.

(** The own property [k] of [o].  For a name that [Object.prototype]
    does not define (such are [tenure] and [rate], the two names the
    script reads) this is the value of [o.k], [undefined] when there is
    no such property. *)
Fixpoint get (k : string) (o : Obj) : option string :=
  match o with
  | [] => None
  | (k', v') :: o' => if String.eqb k k' then Some v' else get k o'
  end.

End JS.

(** ** Requests, responses and suspended computations *)

Module Async.

(** The three requests the script sends.  The URL is kept in parts:
    [/api/search?q=<query>], [/api/location/<name>] and
    [POST /calculate/<type>] with the JSON of the form's fields. *)
Inductive Request :=
| Search (query : string)
| Location (name : string)
| Calculate (type : string) (body : JS.Obj).

(** What [response.json()] gives: the parsed value, or the exception it
    rejects with when the body is not JSON. *)
Inductive Body (J : Type) :=
| Malformed (e : JS.Error)
| Parsed (v : J).
Arguments Malformed {J} e.
Arguments Parsed {J} v.

(** What [fetch] gives: a rejection (network failure) or a response of
    any status. *)
Inductive Outcome (J : Type) :=
| NetworkError (e : JS.Error)
| Response (status : Z) (body : Body J).
Arguments NetworkError {J} e.
Arguments Response {J} status body.

Record response (J : Type) := mkResponse { status : Z; body : Body J }.
Arguments mkResponse {J} status body.
Arguments status {J} r.
Arguments body {J} r.

(** [response.ok]: the status is in the range 200-299. *)
Definition ok {J} (r : response J) : bool :=
  (200 <=? status r) && (status r <=? 299).

Section Run.
Variables S J : Type.

(** A computation either returns, throws, or is suspended on a
    request: [Await req s k] is the page [s] at the [await] and the
    rest of the function, which receives the outcome and the page as
    it is when the outcome arrives. *)
Inductive Run (A : Type) :=
| Return (a : A) (s : S)
| Throw (e : JS.Error) (s : S)
| Await (req : Request) (s : S) (k : Outcome J -> S -> Run A).

Definition M (A : Type) := S -> Run A.

Definition ret {A} (a : A) : M A := fun s => Return A a s.

Definition throw {A} (e : JS.Error) : M A := fun s => Throw A e s.

Fixpoint bindRun {A B} (r : Run A) (f : A -> M B) : Run B :=
  match r with
  | Return _ a s => f a s
  | Throw _ e s => Throw B e s
  | Await _ req s k => Await B req s (fun o s' => bindRun (k o s') f)
  end.

Definition bind {A B} (m : M A) (f : A -> M B) : M B :=
  fun s => bindRun (m s) f.

(** [try { m } catch (error) { h error }] *)
Fixpoint catchRun {A} (r : Run A) (h : JS.Error -> M A) : Run A :=
  match r with
  | Return _ a s => Return A a s
  | Throw _ e s => h e s
  | Await _ req s k => Await A req s (fun o s' => catchRun (k o s') h)
  end.

Definition try_catch {A} (m : M A) (h : JS.Error -> M A) : M A :=
  fun s => catchRun (m s) h.

(** [try { m } finally { f }]: [f] runs on every way out of [m]; an
    exception of [m] is thrown again after it. *)
Fixpoint finallyRun {A} (r : Run A) (f : M unit) : Run A :=
  match r with
  | Return _ a s => bindRun (f s) (fun _ => ret a)
  | Throw _ e s => bindRun (f s) (fun _ => throw e)
  | Await _ req s k => Await A req s (fun o s' => finallyRun (k o s') f)
  end.

Definition try_finally {A} (m : M A) (f : M unit) : M A :=
  fun s => finallyRun (m s) f.

(** A synchronous update of the page. *)
Definition exec (f : S -> S) : M unit := fun s => Return unit tt (f s).

(** [await fetch(req)] *)
Definition fetch (req : Request) : M (response J) :=
  fun s => Await _ req s (fun o s' =>
    match o with
    | NetworkError e => Throw _ e s'
    | Response st b => Return _ (mkResponse st b) s'
    end).

(** [await response.json()] *)
Definition json (r : response J) : M J :=
  match body r with
  | Malformed e => throw e
  | Parsed v => ret v
  end.

(** Every way the computation can end, whatever the outcomes of its
    requests and whatever the page has become meanwhile, satisfies
    [P] (on the thrown exception, if any, and the final page). *)
Inductive Ends {A} (P : option JS.Error -> S -> Prop) : Run A -> Prop :=
| Ends_return a s : P None s -> Ends P (Return A a s)
| Ends_throw e s : P (Some e) s -> Ends P (Throw A e s)
| Ends_await req s k :
    (forall o s', Ends P (k o s')) -> Ends P (Await A req s k).

(** The computation once the request it is suspended on has been
    answered by [o], the page then being [s']. *)
Definition resume {A} (r : Run A) (o : Outcome J) (s' : S) : Run A :=
  match r with
  | Await _ _ _ k => k o s'
  | _ => r
  end.

End Run.

(** A request has failed when [fetch] rejects or the status is outside
    200-299. *)
Definition failure {J} (o : Outcome J) : bool :=
  match o with
  | NetworkError _ => true
  | Response st b => negb (ok (mkResponse st b))
  end.

Arguments Return {S J A} a s.
Arguments Throw {S J A} e s.
Arguments Await {S J A} req s k.
Arguments ret {S J A} a _.
Arguments throw {S J A} e _.
Arguments bind {S J A B} m f _.
Arguments try_catch {S J A} m h _.
Arguments try_finally {S J A} m f _.
Arguments exec {S J} f _.
Arguments fetch {S J} req _.
Arguments json {S J} r.
Arguments Ends {S J A} P _.
Arguments resume {S J A} r o s'.

End Async.

Import Async.

Declare Scope js_scope.
Delimit Scope js_scope with js.
Notation "x <- m ;; k" := (bind m (fun x => k))
  (at level 61, m at next level, right associativity) : js_scope.
Notation "m ;; k" := (bind m (fun _ => k))
  (at level 61, right associativity) : js_scope.

(** ** The typeahead controller: class [DelhiAreaAnalyzer] *)

Module DelhiAreaAnalyzer.

Import JS.

(** One entry of the search response, of the shape the service gives:
    an object with three texts and a number.  (An entry of another shape,
    say one whose [crime_level] is [null], is outside this type; on such
    an entry [getCrimeColor] throws in the middle of
    [displaySearchResults].) *)
Record SearchResult := mkResult {
  location : string;
  zone : string;
  safety_rating : float;
  crime_level : string
}.

(** The response of the detail lookup. *)
Record LocationData := mkData {
  data_location : string;
  data_zone : string;
  data_crime_level : string;
  data_safety_rating : float;
  data_crime_rating : float;
  data_total_crimes : Z;
  data_water_clogging : option string;
  data_electricity_issues : option string;
  data_pros : list string;
  data_cons : list string
}.

(** One [.search-result-item] element of the dropdown, with what the
    template puts in it and whether it carries the class [active]. *)
Record Item := mkItem {
  data_index : nat;
  shown : SearchResult;
  safetyColor : string;
  crimeColor : string;
  active : bool
}.

(** What a pending timer will run: the arrow function of
    [handleSearchInput] (with the query it has captured) or the one of
    the [blur] listener. *)
Inductive Callback :=
| RunSearch (query : string)
| HideDropdown.

Record Timer := mkTimer { id : nat; due : nat; callback : Callback }.

(** The object's fields, the elements it holds as far as the script
    reads or writes them, and the window's timer table with a clock in
    milliseconds. *)
Record State := mkState {
  searchInput_value : string;
  searchDropdown_display : Display;
  searchDropdown_items : list Item;
  loadingIndicator_display : Display;
  locationDetails_display : Display;
  locationDetails_data : option LocationData;
  errorMessage_display : Display;
  errorText : string;
  searchTimeout : option nat;
  selectedLocationIndex : Z;
  searchResults : list SearchResult;
  clock : nat;
  timers : list Timer;
  nextTimer : nat
}.

(** The object as the constructor leaves it, on a page whose dropdown
    is empty and whose panels are not displayed. *)
Definition initial : State :=
  mkState "" none [] none none None none "" None (-1) [] 0 [] 0.

Definition set_searchInput_value v s :=
  mkState v (searchDropdown_display s) (searchDropdown_items s)
    (loadingIndicator_display s) (locationDetails_display s)
    (locationDetails_data s) (errorMessage_display s) (errorText s)
    (searchTimeout s) (selectedLocationIndex s) (searchResults s)
    (clock s) (timers s) (nextTimer s).

Definition set_searchDropdown_display v s :=
  mkState (searchInput_value s) v (searchDropdown_items s)
    (loadingIndicator_display s) (locationDetails_display s)
    (locationDetails_data s) (errorMessage_display s) (errorText s)
    (searchTimeout s) (selectedLocationIndex s) (searchResults s)
    (clock s) (timers s) (nextTimer s).

Definition set_searchDropdown_items v s :=
  mkState (searchInput_value s) (searchDropdown_display s) v
    (loadingIndicator_display s) (locationDetails_display s)
    (locationDetails_data s) (errorMessage_display s) (errorText s)
    (searchTimeout s) (selectedLocationIndex s) (searchResults s)
    (clock s) (timers s) (nextTimer s).

Definition set_loadingIndicator_display v s :=
  mkState (searchInput_value s) (searchDropdown_display s)
    (searchDropdown_items s) v (locationDetails_display s)
    (locationDetails_data s) (errorMessage_display s) (errorText s)
    (searchTimeout s) (selectedLocationIndex s) (searchResults s)
    (clock s) (timers s) (nextTimer s).

Definition set_locationDetails_display v s :=
  mkState (searchInput_value s) (searchDropdown_display s)
    (searchDropdown_items s) (loadingIndicator_display s) v
    (locationDetails_data s) (errorMessage_display s) (errorText s)
    (searchTimeout s) (selectedLocationIndex s) (searchResults s)
    (clock s) (timers s) (nextTimer s).

Definition set_locationDetails_data v s :=
  mkState (searchInput_value s) (searchDropdown_display s)
    (searchDropdown_items s) (loadingIndicator_display s)
    (locationDetails_display s) v (errorMessage_display s) (errorText s)
    (searchTimeout s) (selectedLocationIndex s) (searchResults s)
    (clock s) (timers s) (nextTimer s).

Definition set_errorMessage_display v s :=
  mkState (searchInput_value s) (searchDropdown_display s)
    (searchDropdown_items s) (loadingIndicator_display s)
    (locationDetails_display s) (locationDetails_data s) v (errorText s)
    (searchTimeout s) (selectedLocationIndex s) (searchResults s)
    (clock s) (timers s) (nextTimer s).

Definition set_errorText v s :=
  mkState (searchInput_value s) (searchDropdown_display s)
    (searchDropdown_items s) (loadingIndicator_display s)
    (locationDetails_display s) (locationDetails_data s)
    (errorMessage_display s) v
    (searchTimeout s) (selectedLocationIndex s) (searchResults s)
    (clock s) (timers s) (nextTimer s).

Definition set_searchTimeout v s :=
  mkState (searchInput_value s) (searchDropdown_display s)
    (searchDropdown_items s) (loadingIndicator_display s)
    (locationDetails_display s) (locationDetails_data s)
    (errorMessage_display s) (errorText s)
    v (selectedLocationIndex s) (searchResults s)
    (clock s) (timers s) (nextTimer s).

Definition set_selectedLocationIndex v s :=
  mkState (searchInput_value s) (searchDropdown_display s)
    (searchDropdown_items s) (loadingIndicator_display s)
    (locationDetails_display s) (locationDetails_data s)
    (errorMessage_display s) (errorText s)
    (searchTimeout s) v (searchResults s)
    (clock s) (timers s) (nextTimer s).

Definition set_searchResults v s :=
  mkState (searchInput_value s) (searchDropdown_display s)
    (searchDropdown_items s) (loadingIndicator_display s)
    (locationDetails_display s) (locationDetails_data s)
    (errorMessage_display s) (errorText s)
    (searchTimeout s) (selectedLocationIndex s) v
    (clock s) (timers s) (nextTimer s).

Definition set_clock v s :=
  mkState (searchInput_value s) (searchDropdown_display s)
    (searchDropdown_items s) (loadingIndicator_display s)
    (locationDetails_display s) (locationDetails_data s)
    (errorMessage_display s) (errorText s)
    (searchTimeout s) (selectedLocationIndex s) (searchResults s)
    v (timers s) (nextTimer s).

Definition set_timers v s :=
  mkState (searchInput_value s) (searchDropdown_display s)
    (searchDropdown_items s) (loadingIndicator_display s)
    (locationDetails_display s) (locationDetails_data s)
    (errorMessage_display s) (errorText s)
    (searchTimeout s) (selectedLocationIndex s) (searchResults s)
    (clock s) v (nextTimer s).

Definition set_nextTimer v s :=
  mkState (searchInput_value s) (searchDropdown_display s)
    (searchDropdown_items s) (loadingIndicator_display s)
    (locationDetails_display s) (locationDetails_data s)
    (errorMessage_display s) (errorText s)
    (searchTimeout s) (selectedLocationIndex s) (searchResults s)
    (clock s) (timers s) v.

(** *** The window's timers *)

(** [clearTimeout(handle)]: the timer of that handle, if it is still
    pending, is dropped; [null] and stale handles do nothing. *)
Definition clearTimeout (handle : option nat) (s : State) : State :=
  match handle with
  | None => s
  | Some h => set_timers (filter (fun t => negb (Nat.eqb (id t) h)) (timers s)) s
  end.

(** [setTimeout(cb, delay)]: a new pending timer with a fresh handle. *)
Definition setTimeout (cb : Callback) (delay : nat) (s : State) : nat * State :=
  let h := nextTimer s in
  (h, set_nextTimer (S h)
        (set_timers (timers s ++ [mkTimer h (clock s + delay) cb]) s)).

(** *** Methods that only touch the elements *)

Definition getSafetyColor (rating : float) : string :=
  if PrimFloat.leb 8%float rating then "bg-success"
  else if PrimFloat.leb 6%float rating then "bg-warning"
  else "bg-danger".

(** [toLowerCase] on the letters A-Z; other code units are kept. *)
Definition lower (c : ascii) : ascii :=
  let n := nat_of_ascii c in
  if (Nat.leb 65 n && Nat.leb n 90)%bool then ascii_of_nat (n + 32) else c.

Fixpoint toLowerCase (s : string) : string :=
  match s with
  | EmptyString => EmptyString
  | String c s' => String (lower c) (toLowerCase s')
  end.

Definition getCrimeColor (level : string) : string :=
  let l := toLowerCase level in
  if String.eqb l "low" then "bg-success"
  else if String.eqb l "medium" then "bg-warning"
  else if String.eqb l "high" then "bg-danger"
  else "bg-secondary".

Definition showDropdown (s : State) : State := set_searchDropdown_display block s.

Definition hideDropdown (s : State) : State := set_searchDropdown_display none s.

Definition showLoading (s : State) : State :=
  set_locationDetails_display none (set_loadingIndicator_display block s).

Definition hideLoading (s : State) : State := set_loadingIndicator_display none s.

Definition showError (message : string) (s : State) : State :=
  set_locationDetails_display none
    (set_errorMessage_display block (set_errorText message s)).

Definition hideError (s : State) : State := set_errorMessage_display none s.

(** The items the template of [displaySearchResults] produces, one per
    result, numbered from [index].  The template writes the texts of a
    result into the markup as they are, so this is the content of the
    dropdown for texts that hold no markup of their own
    ([Observations.plainResults]); what the browser builds from texts
    with tags in them is not modelled. *)
Fixpoint renderItems (index : nat) (results : list SearchResult) : list Item :=
  match results with
  | [] => []
  | result :: rest =>
      mkItem index result (getSafetyColor (safety_rating result))
             (getCrimeColor (crime_level result)) false
      :: renderItems (S index) rest
  end.

(** [displaySearchResults(results)].  With entries of type
    [SearchResult] no step of it throws, so the two fields and the
    dropdown are always updated together. *)
Definition displaySearchResults (results : list SearchResult) (s : State) : State :=
  let s := set_selectedLocationIndex (-1) (set_searchResults results s) in
  if Nat.eqb (List.length results) 0 then hideDropdown s
  else showDropdown (set_searchDropdown_items (renderItems 0 results) s).

(** [updateSelection(items)]: the item whose position is the selected
    index gets the class [active], every other item loses it. *)
Fixpoint markActive (index : nat) (selected : Z) (items : list Item) : list Item :=
  match items with
  | [] => []
  | item :: rest =>
      mkItem (data_index item) (shown item) (safetyColor item) (crimeColor item)
             (Z.of_nat index =? selected)
      :: markActive (S index) selected rest
  end.

Definition updateSelection (s : State) : State :=
  set_searchDropdown_items
    (markActive 0 (selectedLocationIndex s) (searchDropdown_items s)) s.

(** The detail panel is filled from [data] and displayed; the texts
    themselves are kept as the data they are made from.  With every field
    of [data] present, as here, the method cannot throw; scrolling to the
    panel is left out. *)
Definition displayLocationDetails (data : LocationData) (s : State) : State :=
  set_locationDetails_display block (set_locationDetails_data (Some data) s).

(** *** The two lookups *)

Local Open Scope js_scope.

Definition searchLocations (query : string) : M State (list SearchResult) unit :=
  try_catch
    (response <- fetch (Search query) ;;
     (if negb (ok response)
      then throw (mkError "Search failed")
      else ret tt) ;;
     results <- json response ;;
     exec (displaySearchResults results))
    (fun error =>
       exec (showError "Failed to search locations. Please try again.")).

Definition loadLocationDetails (locationName : string) : M State LocationData unit :=
  exec showLoading ;;
  exec hideError ;;
  try_finally
    (try_catch
       (response <- fetch (Location locationName) ;;
        (if negb (ok response)
         then if status response =? 404
              then throw (mkError "Location not found")
              else throw (mkError "Failed to load location details")
         else ret tt) ;;
        locationData <- json response ;;
        exec (displayLocationDetails locationData))
       (fun error => exec (showError (message error))))
    (exec hideLoading).

(** *** Handlers *)

(** A call of an [async] method whose promise is dropped: the method
    runs up to its first [await]; what is left is a request in flight
    and the rest of the method. *)
Definition InFlight (J : Type) : Type :=
  (Request * (Outcome J -> State -> Run State J unit))%type.

Definition call {J} (m : M State J unit) (s : State) : State * option (InFlight J) :=
  match m s with
  | Return _ s' => (s', None)
  | Throw _ s' => (s', None)
  | Await req s' k => (s', Some (req, k))
  end.

Definition handleSearchInput (query : string) (s : State) : State :=
  let s := clearTimeout (searchTimeout s) s in
  if Nat.ltb (String.length query) 2 then hideDropdown s
  else
    let '(h, s) := setTimeout (RunSearch query) 300 s in
    set_searchTimeout (Some h) s.

Definition selectLocation (index : Z) (s : State)
  : State * option (InFlight LocationData) :=
  if (0 <=? index) && (index <? Z.of_nat (List.length (searchResults s))) then
    match nth_error (searchResults s) (Z.to_nat index) with
    | Some location =>
        let s := set_searchInput_value (DelhiAreaAnalyzer.location location) s in
        let s := hideDropdown s in
        call (loadLocationDetails (DelhiAreaAnalyzer.location location)) s
    | None => (s, None)
    end
  else (s, None).

Definition handleKeyNavigation (key : string) (s : State)
  : State * option (InFlight LocationData) :=
  let items := Z.of_nat (List.length (searchDropdown_items s)) in
  if String.eqb key "ArrowDown" then
    let s := set_selectedLocationIndex
               (Z.min (selectedLocationIndex s + 1) (items - 1)) s in
    (updateSelection s, None)
  else if String.eqb key "ArrowUp" then
    let s := set_selectedLocationIndex
               (Z.max (selectedLocationIndex s - 1) (-1)) s in
    (updateSelection s, None)
  else if String.eqb key "Enter" then
    if 0 <=? selectedLocationIndex s
    then selectLocation (selectedLocationIndex s) s
    else (s, None)
  else if String.eqb key "Escape" then (hideDropdown s, None)
  else (s, None).

End DelhiAreaAnalyzer.

(** ** The page as an event loop

    Handlers run one at a time.  Between two handlers time may pass, a
    pending timer that is due may run, and a request in flight may be
    answered; which of these happens, and in which order, is the
    environment's choice and is given by the event. *)

Module Loop.

Import JS DelhiAreaAnalyzer.

Record World := mkWorld {
  page : State;
  (** every request sent so far, oldest first *)
  sent : list Request;
  (** the calls of [searchLocations] that wait for their response *)
  searches : list (Outcome (list SearchResult) -> State
                   -> Run State (list SearchResult) unit);
  (** the calls of [loadLocationDetails] that wait for theirs *)
  details : list (Outcome LocationData -> State
                  -> Run State LocationData unit)
}.

Definition boot : World := mkWorld initial [] [] [].

Inductive Event :=
| input (value : string)       (* the user edits the search box *)
| keydown (key : string)
| blur
| click_outside                (* a click outside the box and the dropdown *)
| click_item (i : nat)         (* a click on the i-th item of the dropdown *)
| elapse (ms : nat)
| timer (handle : nat)         (* the pending timer [handle], being due, runs *)
| search_response (i : nat) (o : Outcome (list SearchResult))
| detail_response (i : nat) (o : Outcome LocationData).

(** The world after a handler that may have started a search. *)
Definition afterSearch (r : State * option (InFlight (list SearchResult)))
           (w : World) : World :=
  match r with
  | (s, None) => mkWorld s (sent w) (searches w) (details w)
  | (s, Some (req, k)) => mkWorld s (sent w ++ [req]) (searches w ++ [k]) (details w)
  end.

(** The world after a handler that may have started a detail lookup. *)
Definition afterDetail (r : State * option (InFlight LocationData))
           (w : World) : World :=
  match r with
  | (s, None) => mkWorld s (sent w) (searches w) (details w)
  | (s, Some (req, k)) => mkWorld s (sent w ++ [req]) (searches w) (details w ++ [k])
  end.

(** [l] without its [i]-th element. *)
Fixpoint remove_nth {A} (i : nat) (l : list A) : list A :=
  match l, i with
  | [], _ => []
  | _ :: l', O => l'
  | x :: l', S i' => x :: remove_nth i' l'
  end.

Definition step (w : World) (e : Event) : option World :=
  let s := page w in
  match e with
  | input value =>
      Some (mkWorld (handleSearchInput value (set_searchInput_value value s))
                    (sent w) (searches w) (details w))
  | keydown key => Some (afterDetail (handleKeyNavigation key s) w)
  | blur =>
      Some (mkWorld (snd (setTimeout HideDropdown 200 s))
                    (sent w) (searches w) (details w))
  | click_outside =>
      Some (mkWorld (hideDropdown s) (sent w) (searches w) (details w))
  | click_item i =>
      match searchDropdown_display s, nth_error (searchDropdown_items s) i with
      | block, Some item =>
          Some (afterDetail (selectLocation (Z.of_nat (data_index item)) s) w)
      | _, _ => None
      end
  | elapse ms =>
      Some (mkWorld (set_clock (clock s + ms) s) (sent w) (searches w) (details w))
  | timer h =>
      match find (fun t => Nat.eqb (id t) h) (timers s) with
      | Some t =>
          if Nat.leb (due t) (clock s) then
            let s := set_timers
                       (filter (fun t => negb (Nat.eqb (id t) h)) (timers s)) s in
            match callback t with
            | RunSearch query => Some (afterSearch (call (searchLocations query) s) w)
            | HideDropdown =>
                Some (mkWorld (hideDropdown s) (sent w) (searches w) (details w))
            end
          else None
      | None => None
      end
  | search_response i o =>
      match nth_error (searches w) i with
      | Some k =>
          Some (afterSearch (call (k o) s)
                  (mkWorld s (sent w) (remove_nth i (searches w)) (details w)))
      | None => None
      end
  | detail_response i o =>
      match nth_error (details w) i with
      | Some k =>
          Some (afterDetail (call (k o) s)
                  (mkWorld s (sent w) (searches w) (remove_nth i (details w))))
      | None => None
      end
  end.

(** A sequence of events, each one possible when it happens. *)
Fixpoint run (w : World) (es : list Event) : option World :=
  match es with
  | [] => Some w
  | e :: es' =>
      match step w e with
      | Some w' => run w' es'
      | None => None
      end
  end.

(** The queries of the search requests sent so far. *)
Fixpoint queriesSent (l : list Request) : list string :=
  match l with
  | [] => []
  | Search q :: l' => q :: queriesSent l'
  | _ :: l' => queriesSent l'
  end.

(** The pending timers that will start a search, as (due time, query). *)
Fixpoint armed (ts : list Timer) : list (nat * string) :=
  match ts with
  | [] => []
  | t :: ts' =>
      match callback t with
      | RunSearch q => (due t, q) :: armed ts'
      | HideDropdown => armed ts'
      end
  end.

Definition startsSearch (t : Timer) : bool :=
  match callback t with
  | RunSearch _ => true
  | HideDropdown => false
  end.

(** The rest of [searchLocations] after its [await fetch]; it is the
    same function whatever the query was. *)
Definition searchContinuation
  : Outcome (list SearchResult) -> State -> Run State (list SearchResult) unit :=
  resume (searchLocations "" initial).

(** The rest of [loadLocationDetails] after its [await fetch]. *)
Definition detailContinuation
  : Outcome LocationData -> State -> Run State LocationData unit :=
  resume (loadLocationDetails "" initial).

(** The timer table is in order: handles are distinct and older than the
    next one, and a pending timer that will start a search is the one
    whose handle [searchTimeout] holds. *)
Definition tidy (s : State) : Prop :=
  NoDup (map id (timers s)) /\
  (forall t, In t (timers s) -> (id t < nextTimer s)%nat) /\
  (forall t, In t (timers s) -> startsSearch t = true ->
             searchTimeout s = Some (id t)).

(** A world the page can be in: its timer table is in order and the
    calls in flight are calls of the two lookups. *)
Definition orderly (w : World) : Prop :=
  tidy (page w) /\
  Forall (fun k => k = searchContinuation) (searches w) /\
  Forall (fun k => k = detailContinuation) (details w).

(** A handler has left the timers, the stored handle and the clock as
    they were. *)
Definition untouched (s s' : State) : Prop :=
  timers s' = timers s /\ searchTimeout s' = searchTimeout s /\
  nextTimer s' = nextTimer s /\ clock s' = clock s.

(** What a handler that may start a detail lookup leaves behind. *)
Definition startsAtMostOneDetail (s : State)
           (r : State * option (InFlight LocationData)) : Prop :=
  untouched s (fst r) /\
  (snd r = None \/ exists name, snd r = Some (Location name, detailContinuation)).

(** The highlighted index is -1 or the position of an item of the
    dropdown, and the dropdown holds one item per result unless the result
    list is empty. *)
Definition highlighted (s : State) : Prop :=
  -1 <= selectedLocationIndex s
     <= Z.of_nat (List.length (searchDropdown_items s)) - 1 /\
  (searchResults s <> [] ->
   List.length (searchDropdown_items s) = List.length (searchResults s)).

(** A handler has left the highlighted index, the items and the result
    list as they were. *)
Definition sameList (s s' : State) : Prop :=
  selectedLocationIndex s' = selectedLocationIndex s /\
  searchDropdown_items s' = searchDropdown_items s /\
  searchResults s' = searchResults s.

Definition isInput (e : Event) : bool :=
  match e with
  | input _ => true
  | _ => false
  end.

(** No event of the sequence is an edit of the search box. *)
Definition noInput (es : list Event) : Prop :=
  forallb (fun e => negb (isInput e)) es = true.

(** The time that passes during a sequence of events. *)
Fixpoint elapsed (es : list Event) : nat :=
  match es with
  | [] => O
  | elapse ms :: es' => (ms + elapsed es')%nat
  | _ :: es' => elapsed es'
  end.

(** A burst of edits: the box is set to [first], then, for each
    [(gap, query)] of [rest], the events of [gap] happen and the box is
    set to [query]. *)
Fixpoint burst (first : string) (rest : list (list Event * string)) : list Event :=
  match rest with
  | [] => [input first]
  | (gap, query) :: rest' => (input first :: gap) ++ burst query rest'
  end.

Fixpoint lastQuery (first : string) (rest : list (list Event * string)) : string :=
  match rest with
  | [] => first
  | (_, query) :: rest' => lastQuery query rest'
  end.

(** Each edit of the burst follows the one before within the debounce
    delay, with no other edit in between, and has at least 2
    characters. *)
Fixpoint rapid (first : string) (rest : list (list Event * string)) : Prop :=
  (2 <= String.length first)%nat /\
  match rest with
  | [] => True
  | (gap, query) :: rest' =>
      noInput gap /\ (elapsed gap < 300)%nat /\ rapid query rest'
  end.

End Loop.

(** ** The calculator renderer: function [submitForm] *)

Module Calculator.

Import JS.

(** The parsed response of the calculation service: an object whose
    properties are read by name; a property the response does not have
    reads as [undefined]. *)
Record Result := mkResult {
  principal : num;
  emi : num;
  total_interest : num;
  total_payment : num;
  max_emi : num;
  affordable_loan : num;
  affordable_property : num;
  income : num;
  expenses : num;
  existing_emis : num;
  remaining_income : num;
  dti_ratio : num;
  risk_level : option string;
  debt : num;
  gratuity : num;
  corpus : num;
  required_corpus : num;
  status : option string
}.

(** A value interpolated into the summary. *)
Inductive Value :=
| Number (v : num)
| Text (v : option string).

(** One paragraph of the summary: the bold caption, then the value
    between what the template writes before and after it. *)
Record Line := mkLine {
  caption : string;
  before : string;
  value : Value;
  after : string
}.

(** The markup assigned to [resultContainer.innerHTML]: a heading with
    its paragraphs, or literal markup. *)
Inductive Html :=
| Summary (heading : string) (lines : list Line)
| Markup (text : string).

Record ChartData := mkChartData {
  labels : list string;
  data : list num;
  colors : list string;
  total : num
}.

Inductive Label :=
| Name (text : string)
| Month (i : Z).

(** A dataset of a chart; a single colour is a list of one. *)
Record Dataset := mkDataset {
  ds_label : option string;
  ds_data : list num;
  ds_backgroundColor : list string;
  ds_borderColor : list string
}.

(** A [Chart] object: its configuration (type, labels, datasets; the
    display options are constants and are left out) and whether
    [destroy()] has been called on it. *)
Record Chart := mkChart {
  chart_type : string;
  chart_labels : list Label;
  chart_datasets : list Dataset;
  destroyed : bool
}.

(** The part of the document and of [window] the function touches. *)
Record Page := mkPage {
  (** [id] and [value] of the inputs of [#formContainer], in order *)
  formContainer_inputs : list (string * string);
  resultContainer_innerHTML : Html;
  pieChart_display : Display;
  pieChartObj : option Chart;
  barChart_display : Display;
  barChartObj : option Chart;
  amortChart_display : Display;
  amortChartObj : option Chart
}.

(** [if (window.xChartObj) window.xChartObj.destroy()] *)
Definition destroy (c : option Chart) : option Chart :=
  match c with
  | Some c => Some (mkChart (chart_type c) (chart_labels c) (chart_datasets c) true)
  | None => None
  end.

(** [inputs.forEach(input => body[input.id] = input.value)], from
    [body = {}]: the result lists the own properties of the body, which
    are what [JSON.stringify] sends. *)
Definition collect (inputs : list (string * string)) : Obj :=
  fold_left (fun body input => assign (fst input) (snd input) body) inputs [].

(** [x > 0 ? x : 0] *)
Definition positiveOrZero (x : num) : num :=
  if gt0 x then x else Some 0%float.

Definition clamp (x : float) : float :=
  if PrimFloat.ltb 0%float x then x else 0%float.

(** The summary and the data of the pie chart, by calculator type. *)
Definition summarize (type : string) (result : Result) : Html * option ChartData :=
  if String.eqb type "emi" then
    (Summary "EMI Results:"
       [ mkLine "Loan Principal:" "₹" (Number (principal result)) "";
         mkLine "Monthly EMI:" "₹" (Number (emi result)) "";
         mkLine "Total Interest:" "₹" (Number (total_interest result)) "";
         mkLine "Total Payment:" "₹" (Number (total_payment result)) "" ],
     None)
  else if String.eqb type "affordability" then
    (Summary "Affordability Results:"
       [ mkLine "Maximum EMI You Can Pay:" "₹" (Number (max_emi result)) "";
         mkLine "Estimated Affordable Loan Amount:" "₹"
                (Number (affordable_loan result)) "";
         mkLine "Estimated Affordable Property Value (with Down Payment):" "₹"
                (Number (affordable_property result)) "" ],
     Some (mkChartData
             ["Expenses"; "Existing EMIs"; "Remaining Income"]
             [ expenses result;
               existing_emis result;
               positiveOrZero (remaining_income result) ]
             ["#f39c12"; "#2980b9"; "#27ae60"]
             (income result)))
  else if String.eqb type "dti" then
    (Summary "Debt-to-Income Ratio:"
       [ mkLine "DTI Ratio:" "" (Number (dti_ratio result)) "%";
         mkLine "Risk Level:" "" (Text (risk_level result)) "" ],
     Some (mkChartData
             ["Debt"; "Remaining Income"]
             [ debt result;
               positiveOrZero (remaining_income result) ]
             ["#2980b9"; "#27ae60"]
             (income result)))
  else if String.eqb type "gratuity" then
    (Summary "Gratuity Calculation:"
       [ mkLine "Gratuity Amount:" "₹" (Number (gratuity result)) "" ],
     None)
  else if String.eqb type "retirement" then
    (Summary "Retirement Planning Results:"
       [ mkLine "Estimated Corpus at Retirement:" "₹" (Number (corpus result)) "";
         mkLine "Required Corpus:" "₹" (Number (required_corpus result)) "";
         mkLine "Status:" "" (Text (status result)) "" ],
     None)
  else
    (Markup "<p>Invalid calculator type or error.</p>", None).

(** [chartData.data.reduce((a, b) => a + b, 0)] *)
Definition sum (data : list num) : num :=
  fold_left JS.add data (Some 0%float).

(** The pie chart block: the configuration of the chart to create, if
    one is created. *)
Definition pieConfig (chartData : option ChartData) : option Chart :=
  match chartData with
  | Some cd =>
      if gt0 (total cd) then
        let sum := sum (data cd) in
        let shortfall := PrimFloat.ltb (toNumber sum) (toNumber (total cd)) in
        let data :=
          if shortfall
          then (data cd ++ [Some (PrimFloat.sub (toNumber (total cd)) (toNumber sum))])%list
          else data cd in
        let labels :=
          if shortfall then (labels cd ++ ["Other/Unallocated"])%list else labels cd in
        let colors :=
          if shortfall then (colors cd ++ ["#bdc3c7"])%list else colors cd in
        Some (mkChart "pie" (map Name labels)
                      [mkDataset None data colors ["#222"]] false)
      else None
  | None => None
  end.

(** The bar chart block. *)
Definition barConfig (type : string) (result : Result) : option Chart :=
  if String.eqb type "affordability" then
    Some (mkChart "bar"
            (map Name ["Income"; "Expenses"; "Existing EMIs"; "Remaining Income"])
            [mkDataset (Some "Amount (₹)")
               [ income result;
                 expenses result;
                 existing_emis result;
                 positiveOrZero (remaining_income result) ]
               ["#2980b9"; "#f39c12"; "#c0392b"; "#27ae60"]
               ["#222"]]
            false)
  else None.

(** The variables of the amortization loop. *)
Record Loop := mkLoop {
  balance : float;
  principalData : list float;
  interestData : list float;
  months : list Z
}.

(** [count] passes through the body of the [for], from month [i]. *)
Fixpoint iterate (count : nat) (i : Z) (emi rate : float) (l : Loop) : Loop :=
  match count with
  | O => l
  | S count' =>
      let interest := PrimFloat.mul (balance l) rate in
      let principalPaid := PrimFloat.sub emi interest in
      let balance := PrimFloat.sub (balance l) principalPaid in
      iterate count' (i + 1) emi rate
        (mkLoop balance
                (principalData l ++ [clamp principalPaid])
                (interestData l ++ [clamp interest])
                (months l ++ [i]))
  end.

Section Builtins.

(** The two built-in parsers.  [parseInt] gives an integer or NaN
    ([None]); the integer is taken exactly, and the arrays as long as
    the loop makes them. *)
Variable parseInt : string -> option Z.
Variable parseFloat : string -> float.

(** [parseInt(body.tenure)]; a missing field reads as [undefined],
    which parses to NaN. *)
Definition tenureOf (body : Obj) : option Z :=
  match get "tenure" body with
  | Some v => parseInt v
  | None => None
  end.

(** [parseFloat(body.rate)] *)
Definition rateOf (body : Obj) : float :=
  match get "rate" body with
  | Some v => parseFloat v
  | None => nan
  end.

(** The amortization block: the loop runs for [i = 1 .. tenure]; with
    a tenure that is NaN or below 1 its body never runs. *)
Definition amortConfig (type : string) (body : Obj) (result : Result)
  : option Chart :=
  if String.eqb type "emi" && truthy (emi result) && truthy (principal result)
     && truthy (total_interest result)
  then
    let tenure := tenureOf body in
    let rate := PrimFloat.div (rateOf body) (PrimFloat.mul 12 100) in
    let count := match tenure with Some n => Z.to_nat n | None => O end in
    let l := iterate count 1 (toNumber (emi result)) rate
               (mkLoop (toNumber (principal result)) [] [] []) in
    Some (mkChart "line" (map Month (months l))
            [ mkDataset (Some "Principal Paid") (map Some (principalData l))
                        ["rgba(39,174,96,0.1)"] ["#27ae60"];
              mkDataset (Some "Interest Paid") (map Some (interestData l))
                        ["rgba(243,156,18,0.1)"] ["#f39c12"] ]
            false)
  else None.

(** A canvas and its chart object after a block: with a configuration
    the canvas is displayed and a new chart replaces the old one, which
    is destroyed first; without one the canvas is hidden and the old
    chart, if any, is destroyed. *)
Definition draw (config : option Chart) (old : option Chart)
  : Display * option Chart :=
  match config with
  | Some c => (block, Some c)
  | None => (none, destroy old)
  end.

(** Everything [submitForm] does once the response is parsed. *)
Definition render (type : string) (body : Obj) (result : Result) (p : Page)
  : Page :=
  let '(html, chartData) := summarize type result in
  let '(pieDisplay, pie) := draw (pieConfig chartData) (pieChartObj p) in
  let '(barDisplay, bar) := draw (barConfig type result) (barChartObj p) in
  let '(amortDisplay, amort) :=
    draw (amortConfig type body result) (amortChartObj p) in
  mkPage (formContainer_inputs p) html
         pieDisplay pie barDisplay bar amortDisplay amort.

Local Open Scope js_scope.

Definition submitForm (type : string) : M Page Result unit :=
  fun p =>
    let body := collect (formContainer_inputs p) in
    (res <- fetch (Calculate type body) ;;
     result <- json res ;;
     exec (render type body result)) p.

End Builtins.

(** *** The schedule as the specification words it *)

Record AmortizationPoint := mkPoint {
  period : Z;
  interestPaid : float;
  principalPaid : float
}.

(** Periods [i], [i+1], ... ([n] of them) from the balance [balance],
    with payment [E] and monthly rate [m]: the interest is
    [balance * m], the principal paid is [E - interest], the balance
    goes down by the principal paid (as computed, not as recorded), and
    each amount is recorded as it is when it is greater than zero and as
    zero otherwise. *)
Fixpoint scheduleFrom (i : Z) (n : nat) (balance E m : float)
  : list AmortizationPoint :=
  match n with
  | O => []
  | S n' =>
      let interest := PrimFloat.mul balance m in
      let paid := PrimFloat.sub E interest in
      mkPoint i (if PrimFloat.ltb 0%float interest then interest else 0%float)
                (if PrimFloat.ltb 0%float paid then paid else 0%float)
      :: scheduleFrom (i + 1) n' (PrimFloat.sub balance paid) E m
  end.

(** The schedule for principal [P], payment [E], [n] months and annual
    rate [r] percent. *)
Definition schedule (P E : float) (n : Z) (r : float) : list AmortizationPoint :=
  scheduleFrom 1 (Z.to_nat n) P E (PrimFloat.div r (PrimFloat.mul 12 100)).

(** *** Parsers for decimal literals, used to run examples *)

Definition digit (c : ascii) : option Z :=
  let n := nat_of_ascii c in
  if (Nat.leb 48 n && Nat.leb n 57)%bool then Some (Z.of_nat (n - 48)) else None.

Fixpoint digits (acc : option Z) (s : string) : option Z :=
  match s with
  | EmptyString => acc
  | String c s' =>
      match digit c with
      | Some d => digits (Some (10 * match acc with Some a => a | None => 0 end + d)) s'
      | None => acc
      end
  end.

(** [parseInt] on a string that starts with decimal digits or with
    anything else (NaN); signs, blanks and hexadecimal are not read. *)
Definition parseDigits (s : string) : option Z := digits None s.

(** [parseFloat] on a string of a few decimal digits without a point
    or an exponent: the integer, which a binary64 number holds
    exactly. *)
Definition parseWhole (s : string) : float :=
  match digits None s with
  | Some n => PrimFloat.of_uint63 (Uint63.of_Z n)
  | None => nan
  end.

End Calculator.

(** ** Sample data *)

Module Samples.

Import JS.

Definition saket : DelhiAreaAnalyzer.SearchResult :=
  DelhiAreaAnalyzer.mkResult "Saket" "South Delhi" 8.2 "Low".

Definition dwarka : DelhiAreaAnalyzer.SearchResult :=
  DelhiAreaAnalyzer.mkResult "Dwarka" "South West Delhi" 7.1 "Medium".

Definition rohini : DelhiAreaAnalyzer.SearchResult :=
  DelhiAreaAnalyzer.mkResult "Rohini" "North West Delhi" 5.4 "High".

(** A response without any of the properties the renderer reads. *)
Definition empty : Calculator.Result :=
  Calculator.mkResult None None None None None None None None None
                      None None None None None None None None None.

(** A calculator page, with the given inputs, on which nothing has been
    rendered yet. *)
Definition blank (inputs : list (string * string)) : Calculator.Page :=
  Calculator.mkPage inputs (Calculator.Markup "") none None none None none None.

(** The loan of the specification's example: 100000 at 12 percent,
    paid 5000 a month, over 3 months. *)
Definition loanForm : list (string * string) :=
  [("principal", "100000"); ("rate", "12"); ("tenure", "3")].

Definition loan : Calculator.Result :=
  Calculator.mkResult (Some 100000%float) (Some 5000%float)
                      (Some 2879.6%float) (Some 15000%float)
                      None None None None None None None None None None None
                      None None None.

(** A loan without interest: 100000 paid back 5000 a month over 20
    months. *)
Definition freeLoanForm : list (string * string) :=
  [("principal", "100000"); ("rate", "0"); ("tenure", "20")].

Definition freeLoan : Calculator.Result :=
  Calculator.mkResult (Some 100000%float) (Some 5000%float)
                      (Some 0%float) (Some 100000%float)
                      None None None None None None None None None None None
                      None None None.

End Samples.

Module Budgets.

(** A debt-to-income response with ordinary amounts. *)
Definition ratio : Calculator.Result :=
  Calculator.mkResult None None None None None None None
                      (Some 27044.8%float) None None (Some 7808.45%float)
                      (Some 7.09%float) (Some "Low") (Some 1916.56%float)
                      None None None None.

(** A debt-to-income response with no income and a debt in credit. *)
Definition credit : Calculator.Result :=
  Calculator.mkResult None None None None None None None
                      (Some 0%float) None None (Some 0%float)
                      (Some 0%float) (Some "Low") (Some (-250)%float)
                      None None None None.

(** An affordability response whose categories fall 10000 short of an
    income of 100000, and whose remaining income is negative. *)
Definition short : Calculator.Result :=
  Calculator.mkResult None None None None
                      (Some 0%float) (Some 0%float) (Some 0%float)
                      (Some 100000%float) (Some 60000%float) (Some 30000%float)
                      (Some (-5000)%float)
                      None None None None None None None.

End Budgets.

(** ** Notions used to state further properties *)

Module Observations.

Import JS DelhiAreaAnalyzer.

(** The dropdown shows the result list: it is displayed only with a
    result list that is not empty, and then its items are the results, in
    order, each numbered by its position. *)
Definition mirrors (s : State) : Prop :=
  (searchDropdown_display s = block -> searchResults s <> []) /\
  (searchResults s <> [] ->
   forall i item,
     nth_error (searchDropdown_items s) i = Some item ->
     data_index item = i /\ nth_error (searchResults s) i = Some (shown item)).

(** A handler has left the result list alone, has not opened the
    dropdown, and has kept what each item shows and its number. *)
Definition keepsDropdown (s s' : State) : Prop :=
  searchResults s' = searchResults s /\
  (searchDropdown_display s' = block -> searchDropdown_display s = block) /\
  forall i item,
    nth_error (searchDropdown_items s') i = Some item ->
    exists old,
      nth_error (searchDropdown_items s) i = Some old /\
      data_index item = data_index old /\ shown item = shown old.

(** The handle in [searchTimeout], if any, is an old one and is not the
    handle of a timer of the [blur] listener. *)
Definition ownHandle (s : State) : Prop :=
  forall h, searchTimeout s = Some h ->
            (h < nextTimer s)%nat /\
            forall t, In t (timers s) -> id t = h -> callback t <> HideDropdown.

(** The pending timers of the [blur] listener. *)
Definition hideTimers (s : State) : list Timer :=
  filter (fun t => match callback t with
                   | HideDropdown => true
                   | RunSearch _ => false
                   end) (timers s).

(** The texts the user has given the search box during a sequence of
    events. *)
Fixpoint typed (es : list Loop.Event) : list string :=
  match es with
  | [] => []
  | Loop.input value :: es' => value :: typed es'
  | _ :: es' => typed es'
  end.

(** [n] presses of the same key (none of them Enter on a highlighted
    item, which would start a lookup). *)
Fixpoint presses (key : string) (n : nat) (s : State) : State :=
  match n with
  | O => s
  | S n' => presses key n' (fst (handleKeyNavigation key s))
  end.

(** The value of the last of the inputs whose id is [k]. *)
Fixpoint lastValue (k : string) (inputs : list (string * string)) : option string :=
  match inputs with
  | [] => None
  | (k', v) :: rest =>
      match lastValue k rest with
      | Some v' => Some v'
      | None => if String.eqb k k' then Some v else None
      end
  end.

(** An ASCII letter in the other case; any other character as it is. *)
Definition flipCase (c : ascii) : ascii :=
  let n := nat_of_ascii c in
  if (Nat.leb 65 n && Nat.leb n 90)%bool then ascii_of_nat (n + 32)
  else if (Nat.leb 97 n && Nat.leb n 122)%bool then ascii_of_nat (n - 32)
  else c.

(** [s] with the case changed at the positions that [mask] marks. *)
Fixpoint recase (mask : list bool) (s : string) : string :=
  match s, mask with
  | String c s', true :: mask' => String (flipCase c) (recase mask' s')
  | String c s', false :: mask' => String c (recase mask' s')
  | _, _ => s
  end.

(** A text without [<]: written into markup as it is, it stays text and
    makes no element. *)
Fixpoint noMarkup (s : string) : bool :=
  match s with
  | EmptyString => true
  | String c s' => negb (Ascii.eqb c "<"%char) && noMarkup s'
  end.

(** The texts of the results are free of markup. *)
Definition plainResults (results : list SearchResult) : bool :=
  forallb (fun r => noMarkup (location r) && noMarkup (zone r) &&
                    noMarkup (crime_level r)) results.

(** Every search answer among the events is a list of results of the
    service's shape (which the type [SearchResult] gives) with texts free
    of markup. *)
Definition plainAnswers (es : list Loop.Event) : bool :=
  forallb (fun e => match e with
                    | Loop.search_response _ (Async.Response _ (Async.Parsed results)) =>
                        plainResults results
                    | _ => true
                    end) es.

(** A canvas and its chart object agree: a displayed canvas has a chart
    that is not destroyed, a hidden one has no chart or a destroyed one. *)
Definition settled (d : Display) (c : option Calculator.Chart) : Prop :=
  match d, c with
  | block, Some ch => Calculator.destroyed ch = false
  | block, None => False
  | none, Some ch => Calculator.destroyed ch = true
  | none, None => True
  end.

(** The data of the [k]-th dataset of a chart, if there is one. *)
Definition series (c : option Calculator.Chart) (k : nat) : list num :=
  match c with
  | Some ch =>
      match nth_error (Calculator.chart_datasets ch) k with
      | Some ds => Calculator.ds_data ds
      | None => []
      end
  | None => []
  end.

End Observations.

(** * Properties of the script *)

(** ** Comparisons of binary64 numbers *)

Module Binary64.

Lemma SFcompare_swap (x y : SpecFloat.spec_float) :
  SpecFloat.SFcompare y x = option_map CompOpp (SpecFloat.SFcompare x y).
Proof.
  destruct x as [sx | sx | | sx mx ex], y as [sy | sy | | sy my ey];
    simpl; try reflexivity;
    try (destruct sx; reflexivity);
    try (destruct sy; reflexivity);
    try (destruct sx, sy; reflexivity).
  destruct sx, sy; simpl; try reflexivity;
    rewrite (Z.compare_antisym ex ey);
    destruct (ex ?= ey) eqn:He; simpl; try reflexivity; f_equal.
  - rewrite CompOpp_involutive.
    exact (Pos.compare_cont_antisym my mx Eq).
  - symmetry. exact (Pos.compare_cont_antisym mx my Eq).
Qed.

(** [x < y] excludes [y <= x]. *)
Lemma ltb_excludes_leb (x y : float) :
  PrimFloat.ltb x y = true -> PrimFloat.leb y x = false.
Proof.
  rewrite ltb_spec, leb_spec.
  unfold SpecFloat.SFltb, SpecFloat.SFleb.
  rewrite (SFcompare_swap (Prim2SF x) (Prim2SF y)).
  destruct (SpecFloat.SFcompare (Prim2SF x) (Prim2SF y)) as [[ | | ] | ];
    simpl; congruence.
Qed.

(** [x < y] excludes [y < x]. *)
Lemma ltb_asym (x y : float) :
  PrimFloat.ltb x y = true -> PrimFloat.ltb y x = false.
Proof.
  rewrite !ltb_spec.
  unfold SpecFloat.SFltb.
  rewrite (SFcompare_swap (Prim2SF x) (Prim2SF y)).
  destruct (SpecFloat.SFcompare (Prim2SF x) (Prim2SF y)) as [[ | | ] | ];
    simpl; congruence.
Qed.

(** [x < y] gives [x <= y]. *)
Lemma ltb_implies_leb (x y : float) :
  PrimFloat.ltb x y = true -> PrimFloat.leb x y = true.
Proof.
  rewrite ltb_spec, leb_spec.
  unfold SpecFloat.SFltb, SpecFloat.SFleb.
  destruct (SpecFloat.SFcompare (Prim2SF x) (Prim2SF y)) as [[ | | ] | ];
    congruence.
Qed.

(** A number kept when it is above zero and replaced by zero otherwise
    is not negative (and is not NaN). *)
Lemma kept_or_zero_not_negative (x : float) :
  PrimFloat.leb 0 (if PrimFloat.ltb 0 x then x else 0%float) = true.
Proof.
  destruct (PrimFloat.ltb 0 x) eqn:Hx.
  - apply ltb_implies_leb. exact Hx.
  - reflexivity.
Qed.

End Binary64.

(** ** The lookups of the typeahead controller *)

Module Lookups.

Import JS DelhiAreaAnalyzer.

Ltac by_status st :=
cbn; unfold failure, ok; cbn;
destruct ((200 <=? st) && (st <=? 299)) eqn:?; cbn;
try reflexivity; try discriminate.

(** What a search does when its response arrives. *)
Lemma search_answer (query : string) (s : State)
    (o : Outcome (list SearchResult)) (s' : State) :
resume (searchLocations query s) o s' =
Return tt
  (match o with
   | Response _ (Parsed results) =>
       if failure o
       then showError "Failed to search locations. Please try again." s'
       else displaySearchResults results s'
   | _ => showError "Failed to search locations. Please try again." s'
   end).
Proof.
destruct o as [e | st [e | results]]; try reflexivity; by_status st.
Qed.

Lemma search_sends (query : string) (s : State) :
exists k, searchLocations query s = Await (Search query) s k.
Proof. eexists. reflexivity. Qed.

Lemma detail_sends (name : string) (s : State) :
exists k, loadLocationDetails name s
          = Await (Location name) (hideError (showLoading s)) k.
Proof. eexists. reflexivity. Qed.

(** What a detail lookup does when its response arrives. *)
Lemma detail_answer (name : string) (s : State)
    (o : Outcome LocationData) (s' : State) :
resume (loadLocationDetails name s) o s' =
Return tt
  (hideLoading
     (match o with
      | NetworkError e => showError (message e) s'
      | Response st b =>
          if failure o then
            if st =? 404 then showError "Location not found" s'
            else showError "Failed to load location details" s'
          else
            match b with
            | Malformed e => showError (message e) s'
            | Parsed data => displayLocationDetails data s'
            end
      end)).
Proof.
destruct o as [e | st [e | data]]; try reflexivity; by_status st.
all: destruct (st =? 404); reflexivity.
Qed.

End Lookups.

(** ** Safety tiers *)

Module Tiers.

Import DelhiAreaAnalyzer.

(** A rating below 6 is not 8 or more. *)
Lemma below_6_not_8 (rating : float) :
  PrimFloat.ltb rating 6 = true -> PrimFloat.leb 8 rating = false.
Proof.
  rewrite ltb_spec, leb_spec.
  unfold SpecFloat.SFltb, SpecFloat.SFleb.
  replace (Prim2SF 6) with (SpecFloat.S754_finite false 6755399441055744 (-50))
    by (vm_compute; reflexivity).
  replace (Prim2SF 8) with (SpecFloat.S754_finite false 4503599627370496 (-49))
    by (vm_compute; reflexivity).
  destruct (Prim2SF rating) as [sr | sr | | sr mr er];
    cbn [SpecFloat.SFcompare];
    try (destruct sr; congruence); try congruence.
  destruct sr; [reflexivity |].
  destruct (Z.compare_spec er (-50)); try congruence;
    destruct (Z.compare_spec (-49) er); try congruence; try lia.
Qed.

(** C9. The badge class of a safety rating follows the three tiers with
    exact boundaries: a rating of 8 or more gets [bg-success] (the high
    tier), a rating of at least 6 and below 8 gets [bg-warning] (medium),
    a rating below 6 gets [bg-danger] (low); 8.0 is high, 7.9 is medium
    and 5.9 is low. *)
Theorem getSafetyColor_tiers (rating : float) :
  (PrimFloat.leb 8 rating = true -> getSafetyColor rating = "bg-success") /\
  (PrimFloat.leb 6 rating = true -> PrimFloat.ltb rating 8 = true ->
   getSafetyColor rating = "bg-warning") /\
  (PrimFloat.ltb rating 6 = true -> getSafetyColor rating = "bg-danger") /\
  getSafetyColor 8.0 = "bg-success" /\
  getSafetyColor 7.9 = "bg-warning" /\
  getSafetyColor 5.9 = "bg-danger".
Proof.
  unfold getSafetyColor.
  repeat split; try reflexivity.
  - intros H. rewrite H. reflexivity.
  - intros H6 H8. rewrite (Binary64.ltb_excludes_leb _ _ H8), H6. reflexivity.
  - intros H6.
    rewrite (below_6_not_8 _ H6), (Binary64.ltb_excludes_leb _ _ H6).
    reflexivity.
Qed.

Lemma getSafetyColor_tiers_witness :
  getSafetyColor 9.5 = "bg-success" /\
  getSafetyColor 6.5 = "bg-warning" /\
  getSafetyColor 2.0 = "bg-danger".
Proof.
  split; [| split].
  - exact (proj1 (getSafetyColor_tiers 9.5) eq_refl).
  - exact (proj1 (proj2 (getSafetyColor_tiers 6.5)) eq_refl eq_refl).
  - exact (proj1 (proj2 (proj2 (getSafetyColor_tiers 2.0))) eq_refl).
Defined.

End Tiers.

(** ** Selecting a location, and lookups that fail *)

Module Selection.

Import JS DelhiAreaAnalyzer.

(** C10. [selectLocation] with an index outside
    [0 .. searchResults.length - 1] does nothing at all: the object and
    the elements (input text, dropdown, panels, highlighted index, result
    list, timers) are as before, no call of [loadLocationDetails] is
    started, and so no request is sent. *)
Theorem selectLocation_out_of_range (index : Z) (w : Loop.World) :
  index < 0 \/ Z.of_nat (List.length (searchResults (Loop.page w))) <= index ->
  selectLocation index (Loop.page w) = (Loop.page w, None) /\
  Loop.afterDetail (selectLocation index (Loop.page w)) w = w.
Proof.
  intros Hout.
  assert (Hno : selectLocation index (Loop.page w) = (Loop.page w, None)).
  { unfold selectLocation.
    destruct (0 <=? index) eqn:Hlo; [| reflexivity].
    destruct (index <? Z.of_nat (List.length (searchResults (Loop.page w))))
      eqn:Hhi; [| reflexivity].
    apply Z.leb_le in Hlo. apply Z.ltb_lt in Hhi. lia. }
  split; [exact Hno |].
  rewrite Hno. destruct w. reflexivity.
Qed.

Lemma selectLocation_out_of_range_witness :
  selectLocation 3 (displaySearchResults [Samples.saket; Samples.dwarka] initial)
  = (displaySearchResults [Samples.saket; Samples.dwarka] initial, None).
Proof.
  apply (selectLocation_out_of_range 3
           (Loop.mkWorld
              (displaySearchResults [Samples.saket; Samples.dwarka] initial)
              [] [] [])).
  right. simpl. lia.
Defined.

End Selection.

Module SearchFailure.

Import JS DelhiAreaAnalyzer Loop.

(** The claim C6 fails when the dropdown is open: the user types "sa",
    the search answers with one location and the dropdown opens; the user
    types on, and the second search is answered with status 500.  The
    error is shown, and the dropdown is still displayed. *)
Lemma failed_search_leaves_dropdown_open :
  exists w,
    run boot [ input "sa"; elapse 300; timer 0;
               search_response 0 (Response 200 (Parsed [Samples.saket]));
               input "sak"; elapse 300; timer 1;
               search_response 0
                 (Response 500 (Malformed (mkError "Unexpected token <"))) ]
    = Some w /\
    errorMessage_display (page w) = block /\
    searchDropdown_display (page w) = block /\
    List.length (searchDropdown_items (page w)) = 1%nat.
Proof.
  eexists. split; [vm_compute; reflexivity |].
  repeat split.
Qed.

(** C6, amended. When a search fails (the request is rejected or the
    status is not 2xx), the call returns normally, the error panel is
    displayed with the text "Failed to search locations. Please try
    again." and the detail panel is hidden; the dropdown (displayed or
    not, and its items), the result list and the highlighted index are
    left as they are. *)
Theorem failed_search_shows_error (query : string) (s : State)
        (o : Outcome (list SearchResult)) (s' : State) :
  failure o = true ->
  exists s'',
    resume (searchLocations query s) o s' = Return tt s'' /\
    errorMessage_display s'' = block /\
    errorText s'' = "Failed to search locations. Please try again." /\
    locationDetails_display s'' = none /\
    searchDropdown_display s'' = searchDropdown_display s' /\
    searchDropdown_items s'' = searchDropdown_items s' /\
    searchResults s'' = searchResults s' /\
    selectedLocationIndex s'' = selectedLocationIndex s'.
Proof.
  intros Hfail.
  exists (showError "Failed to search locations. Please try again." s').
  split; [| repeat split].
  rewrite Lookups.search_answer.
  destruct o as [e | st [e | results]]; try reflexivity.
  rewrite Hfail. reflexivity.
Qed.

Lemma failed_search_shows_error_witness :
  exists s'',
    resume (searchLocations "sak" initial)
           (NetworkError (mkError "Failed to fetch"))
           (displaySearchResults [Samples.saket] initial)
    = Return tt s'' /\
    errorMessage_display s'' = block /\
    searchDropdown_display s'' = block.
Proof.
  destruct (failed_search_shows_error "sak" initial
              (NetworkError (mkError "Failed to fetch"))
              (displaySearchResults [Samples.saket] initial) eq_refl)
    as [s'' [Hrun [Herr [_ [_ [Hdrop _]]]]]].
  exists s''. split; [exact Hrun |]. split; [exact Herr |].
  rewrite Hdrop. reflexivity.
Defined.

End SearchFailure.

Module DetailFailure.

Import JS DelhiAreaAnalyzer Loop.

(** The claim C7 fails on a network failure: [fetch] rejects with its own
    exception, here the one Chrome raises, and it is the message of that
    exception that is shown. *)
Lemma network_failure_shows_its_own_message :
  exists w,
    run boot [ input "sa"; elapse 300; timer 0;
               search_response 0 (Response 200 (Parsed [Samples.saket]));
               click_item 0;
               detail_response 0 (NetworkError (mkError "Failed to fetch")) ]
    = Some w /\
    sent w = [Search "sa"; Location "Saket"] /\
    errorMessage_display (page w) = block /\
    errorText (page w) = "Failed to fetch" /\
    errorText (page w) <> "Failed to load location details".
Proof.
  eexists. split; [vm_compute; reflexivity |].
  repeat split. discriminate.
Qed.

(** C7, amended. A detail lookup always returns normally with the
    loading indicator hidden.  A 404 shows "Location not found"; any other
    status outside 2xx shows "Failed to load location details", a
    different text; a rejected request, or a 2xx response whose body is
    not JSON, shows the message of the exception raised; a 2xx response
    with a JSON body fills and displays the detail panel. *)
Theorem detail_lookup_outcomes (name : string) (s : State)
        (o : Outcome LocationData) (s' : State) :
  exists s'',
    resume (loadLocationDetails name s) o s' = Return tt s'' /\
    loadingIndicator_display s'' = none /\
    (failure o = true -> errorMessage_display s'' = block) /\
    "Location not found" <> "Failed to load location details" /\
    match o with
    | NetworkError e => errorText s'' = message e
    | Response st b =>
        if failure o then
          if st =? 404
          then errorText s'' = "Location not found"
          else errorText s'' = "Failed to load location details"
        else
          match b with
          | Malformed e =>
              errorText s'' = message e /\ errorMessage_display s'' = block
          | Parsed data =>
              locationDetails_data s'' = Some data /\
              locationDetails_display s'' = block
          end
    end.
Proof.
  eexists. split; [apply Lookups.detail_answer |].
  split; [reflexivity |].
  split; [| split; [discriminate |]].
  - intros Hfail. destruct o as [e | st b]; [reflexivity |].
    rewrite Hfail. destruct (st =? 404); reflexivity.
  - destruct o as [e | st b]; [reflexivity |].
    destruct (failure (Response st b)).
    + destruct (st =? 404); reflexivity.
    + destruct b; split; reflexivity.
Qed.

Lemma detail_lookup_outcomes_witness :
  exists s'',
    resume (loadLocationDetails "Saket" initial)
           (Response 404 (Malformed (mkError "Unexpected token <")))
           (hideError (showLoading initial))
    = Return tt s'' /\
    loadingIndicator_display s'' = none /\
    errorMessage_display s'' = block /\
    errorText s'' = "Location not found".
Proof.
  destruct (detail_lookup_outcomes "Saket" initial
              (Response 404 (Malformed (mkError "Unexpected token <")))
              (hideError (showLoading initial)))
    as [s'' [Hrun [Hload [Herr [_ Htext]]]]].
  exists s''. split; [exact Hrun |]. split; [exact Hload |].
  split; [exact (Herr eq_refl) | exact Htext].
Defined.

End DetailFailure.

(** ** The calculator renderer *)

Module Rendering.

Import JS Calculator.

Section Parsers.

Variable parseInt : string -> option Z.
Variable parseFloat : string -> float.

(** What [submitForm] does when the response arrives: the body was
    collected when the form was submitted, on the page [p]; the rendering
    happens on the page as it is then, [p']. *)
Lemma submit_answer (type : string) (p : Page) (o : Outcome Result) (p' : Page) :
  resume (submitForm parseInt parseFloat type p) o p' =
  match o with
  | NetworkError e => Throw e p'
  | Response _ (Malformed e) => Throw e p'
  | Response _ (Parsed result) =>
      Return tt (render parseInt parseFloat type
                        (collect (formContainer_inputs p)) result p')
  end.
Proof. destruct o as [e | st [e | result]]; reflexivity. Qed.

Lemma submit_sends (type : string) (p : Page) :
  exists k, submitForm parseInt parseFloat type p
            = Await (Calculate type (collect (formContainer_inputs p))) p k.
Proof. eexists. reflexivity. Qed.

(** The loop fills its three arrays with the schedule, point by point. *)
Lemma iterate_schedule (n : nat) :
  forall (i : Z) (E m : float) (l : Loop),
    let sch := scheduleFrom i n (balance l) E m in
    principalData (iterate n i E m l) = (principalData l ++ map principalPaid sch)%list /\
    interestData (iterate n i E m l) = (interestData l ++ map interestPaid sch)%list /\
    months (iterate n i E m l) = (months l ++ map period sch)%list.
Proof.
  induction n as [| n IH]; intros i E m l; cbn [iterate scheduleFrom map].
  - rewrite !app_nil_r. repeat split.
  - destruct (IH (i + 1) E m
                 (mkLoop (PrimFloat.sub (balance l)
                            (PrimFloat.sub E (PrimFloat.mul (balance l) m)))
                         (principalData l
                            ++ [clamp (PrimFloat.sub E (PrimFloat.mul (balance l) m))])
                         (interestData l ++ [clamp (PrimFloat.mul (balance l) m)])
                         (months l ++ [i])))
      as [Hp [Hi Hm]].
    cbn [balance principalData interestData months] in Hp, Hi, Hm.
    rewrite Hp, Hi, Hm, <- !app_assoc. repeat split.
Qed.

Lemma scheduleFrom_length (n : nat) :
  forall (i : Z) (b E m : float), List.length (scheduleFrom i n b E m) = n.
Proof.
  induction n as [| n IH]; intros i b E m; cbn [scheduleFrom List.length].
  - reflexivity.
  - rewrite IH. reflexivity.
Qed.

Lemma scheduleFrom_periods (n : nat) :
  forall (i : Z) (b E m : float),
    map period (scheduleFrom i n b E m)
    = map (fun k => i + Z.of_nat k) (seq 0 n).
Proof.
  induction n as [| n IH]; intros i b E m; cbn [scheduleFrom map seq].
  - reflexivity.
  - rewrite IH, <- seq_shift, map_map. cbn [period].
    f_equal; [lia |].
    apply map_ext. intros k. lia.
Qed.

Lemma scheduleFrom_not_negative (n : nat) :
  forall (i : Z) (b E m : float),
    Forall (fun pt => PrimFloat.leb 0 (interestPaid pt) = true /\
                      PrimFloat.leb 0 (principalPaid pt) = true)
           (scheduleFrom i n b E m).
Proof.
  induction n as [| n IH]; intros i b E m; cbn [scheduleFrom].
  - constructor.
  - constructor; [| apply IH].
    cbn [interestPaid principalPaid].
    split; apply Binary64.kept_or_zero_not_negative.
Qed.

(** C8, amended. For a type that is none of emi, affordability, dti,
    gratuity and retirement, when the request is answered with a body
    that parses as JSON (whatever the status and the content): the
    summary is the fixed markup "<p>Invalid calculator type or
    error.</p>", none of the three chart blocks makes a chart (each canvas
    is hidden and the chart drawn before, if any, is only destroyed), and
    the call returns normally.  When the request is rejected, or the body
    is not JSON, the call throws before the type is looked at, and the
    page is left as it was. *)
Theorem unknown_type_fallback (type : string) (p : Page) (st : Z)
        (result : Result) (p' : Page) :
  type <> "emi" -> type <> "affordability" -> type <> "dti" ->
  type <> "gratuity" -> type <> "retirement" ->
  let body := collect (formContainer_inputs p) in
  summarize type result = (Markup "<p>Invalid calculator type or error.</p>", None) /\
  pieConfig (snd (summarize type result)) = None /\
  barConfig type result = None /\
  amortConfig parseInt parseFloat type body result = None /\
  resume (submitForm parseInt parseFloat type p) (Response st (Parsed result)) p'
  = Return tt
      (mkPage (formContainer_inputs p')
              (Markup "<p>Invalid calculator type or error.</p>")
              none (destroy (pieChartObj p'))
              none (destroy (barChartObj p'))
              none (destroy (amortChartObj p'))) /\
  (forall e : Error,
     resume (submitForm parseInt parseFloat type p) (NetworkError e) p'
     = Throw e p') /\
  (forall e : Error,
     resume (submitForm parseInt parseFloat type p) (Response st (Malformed e)) p'
     = Throw e p').
Proof.
  intros He Ha Hd Hg Hr body.
  apply String.eqb_neq in He, Ha, Hd, Hg, Hr.
  assert (Hs : summarize type result
               = (Markup "<p>Invalid calculator type or error.</p>", None)).
  { unfold summarize. rewrite He, Ha, Hd, Hg, Hr. reflexivity. }
  assert (Hb : barConfig type result = None).
  { unfold barConfig. rewrite Ha. reflexivity. }
  assert (Hm : amortConfig parseInt parseFloat type body result = None).
  { unfold amortConfig. rewrite He. reflexivity. }
  rewrite !submit_answer. fold body. unfold render.
  rewrite Hs, Hb, Hm. repeat split.
Qed.

(** C1, amended. When an emi result is rendered whose [emi],
    [principal] and [total_interest] are all truthy (not 0, not NaN, not
    missing), with principal P, payment E, a tenure n (a positive integer)
    and an annual rate r read from the form, the line chart is made of the
    schedule computed with monthly rate r/(12*100) from the balance P:
    in each period the interest is balance*m, the principal paid is
    E - interest and the balance goes down by the principal paid, each of
    the two amounts being recorded as it is when it is above 0 and as 0
    otherwise, while the balance is not changed by that; so no recorded
    amount is negative; there are exactly n points, for the periods 1 to n
    in order.  For P = 100000, E = 5000, n = 3 and r = 12 the points are
    (1000, 4000), (960, 4040) and (919.6, 4080.4); for a payment of 500
    instead, below the interest, they are (1000, 0), (1005, 0) and
    (1010.0500000000001, 0).  When one of [emi], [principal] and [total_interest] is
    falsy, no schedule is computed: no line chart is made, the canvas is
    hidden and the chart drawn before, if any, is destroyed. *)
Theorem amortization_schedule (body : Obj) (result : Result) (p : Page) :
  (forall (P E : float) (n : Z),
     principal result = Some P ->
     emi result = Some E ->
     truthy (emi result) && truthy (principal result)
       && truthy (total_interest result) = true ->
     tenureOf parseInt body = Some n ->
     0 < n ->
     let sch := schedule P E n (rateOf parseFloat body) in
     amortConfig parseInt parseFloat "emi" body result
     = Some (mkChart "line" (map Month (map period sch))
               [ mkDataset (Some "Principal Paid")
                           (map Some (map principalPaid sch))
                           ["rgba(39,174,96,0.1)"] ["#27ae60"];
                 mkDataset (Some "Interest Paid")
                           (map Some (map interestPaid sch))
                           ["rgba(243,156,18,0.1)"] ["#f39c12"] ]
               false) /\
     Z.of_nat (List.length sch) = n /\
     map period sch = map Z.of_nat (seq 1 (Z.to_nat n)) /\
     Forall (fun pt => PrimFloat.leb 0 (interestPaid pt) = true /\
                       PrimFloat.leb 0 (principalPaid pt) = true) sch /\
     (P = 100000%float -> E = 5000%float -> n = 3 ->
      rateOf parseFloat body = 12%float ->
      sch = [ mkPoint 1 1000 4000; mkPoint 2 960 4040; mkPoint 3 919.6 4080.4 ]) /\
     (P = 100000%float -> E = 500%float -> n = 3 ->
      rateOf parseFloat body = 12%float ->
      sch = [ mkPoint 1 1000 0; mkPoint 2 1005 0; mkPoint 3 1010.0500000000001 0 ])) /\
  (truthy (emi result) && truthy (principal result)
     && truthy (total_interest result) = false ->
   amortConfig parseInt parseFloat "emi" body result = None /\
   amortChart_display (render parseInt parseFloat "emi" body result p) = none /\
   amortChartObj (render parseInt parseFloat "emi" body result p)
   = destroy (amortChartObj p)).
Proof.
  split.
  - intros P E n HP HE Hguard Hn Hpos sch.
    split; [| split; [| split; [| split; [| split]]]].
    + unfold amortConfig. cbn [String.eqb Ascii.eqb Bool.eqb andb].
      rewrite Hguard, Hn, HP, HE. cbn [toNumber].
      destruct (iterate_schedule (Z.to_nat n) 1 E
                  (PrimFloat.div (rateOf parseFloat body) (PrimFloat.mul 12 100))
                  (mkLoop P [] [] [])) as [Hp [Hi Hm]].
      cbn [balance principalData interestData months app] in Hp, Hi, Hm.
      rewrite Hp, Hi, Hm. reflexivity.
    + unfold sch, schedule. rewrite scheduleFrom_length. lia.
    + unfold sch, schedule. rewrite scheduleFrom_periods.
      rewrite <- seq_shift, map_map. apply map_ext. intros k. lia.
    + apply scheduleFrom_not_negative.
    + intros -> -> -> Hr. unfold sch. rewrite Hr. vm_compute. reflexivity.
    + intros -> -> -> Hr. unfold sch. rewrite Hr. vm_compute. reflexivity.
  - intros Hguard.
    assert (Hm : amortConfig parseInt parseFloat "emi" body result = None).
    { unfold amortConfig. cbn [String.eqb Ascii.eqb Bool.eqb andb].
      rewrite Hguard. reflexivity. }
    split; [exact Hm |].
    unfold render. rewrite Hm.
    cbn [summarize String.eqb Ascii.eqb Bool.eqb pieConfig barConfig draw
         amortChart_display amortChartObj].
    split; reflexivity.
Qed.

End Parsers.

Lemma amortization_schedule_witness :
  amortConfig parseDigits parseWhole "emi" (collect Samples.loanForm) Samples.loan
  = Some (mkChart "line" [Month 1; Month 2; Month 3]
            [ mkDataset (Some "Principal Paid")
                        [Some 4000%float; Some 4040%float; Some 4080.4%float]
                        ["rgba(39,174,96,0.1)"] ["#27ae60"];
              mkDataset (Some "Interest Paid")
                        [Some 1000%float; Some 960%float; Some 919.6%float]
                        ["rgba(243,156,18,0.1)"] ["#f39c12"] ]
            false) /\
  amortConfig parseDigits parseWhole "emi"
              (collect Samples.freeLoanForm) Samples.freeLoan = None.
Proof.
  split.
  - destruct (proj1 (amortization_schedule parseDigits parseWhole
                       (collect Samples.loanForm) Samples.loan
                       (Samples.blank Samples.loanForm))
                    100000%float 5000%float 3
                    eq_refl eq_refl eq_refl eq_refl eq_refl)
      as [Hchart [_ [_ [_ [Hex _]]]]].
    rewrite Hchart, (Hex eq_refl eq_refl eq_refl eq_refl). reflexivity.
  - exact (proj1 (proj2 (amortization_schedule parseDigits parseWhole
                           (collect Samples.freeLoanForm) Samples.freeLoan
                           (Samples.blank Samples.freeLoanForm))
                        eq_refl)).
Defined.

Lemma unknown_type_fallback_witness :
  resume (submitForm parseDigits parseWhole "loan" (Samples.blank Samples.loanForm))
         (Response 404 (Parsed Samples.empty)) (Samples.blank Samples.loanForm)
  = Return tt
      (mkPage Samples.loanForm (Markup "<p>Invalid calculator type or error.</p>")
              none None none None none None).
Proof.
  apply (unknown_type_fallback parseDigits parseWhole "loan"
           (Samples.blank Samples.loanForm) 404 Samples.empty
           (Samples.blank Samples.loanForm));
    discriminate.
Defined.

(** The claim C8 fails when the request does not bring a JSON body: the
    type "loan" is none of the five, yet when the request is rejected, or
    answered with a page that is not JSON, the call throws and the page
    keeps what it showed, without the fallback message. *)
Lemma unknown_type_throws_without_a_json_body :
  resume (submitForm parseDigits parseWhole "loan" (Samples.blank Samples.loanForm))
         (NetworkError (mkError "Failed to fetch")) (Samples.blank Samples.loanForm)
  = Throw (mkError "Failed to fetch") (Samples.blank Samples.loanForm) /\
  resume (submitForm parseDigits parseWhole "loan" (Samples.blank Samples.loanForm))
         (Response 404 (Malformed (mkError "Unexpected token < in JSON at position 0")))
         (Samples.blank Samples.loanForm)
  = Throw (mkError "Unexpected token < in JSON at position 0")
          (Samples.blank Samples.loanForm) /\
  resultContainer_innerHTML (Samples.blank Samples.loanForm)
  <> Markup "<p>Invalid calculator type or error.</p>".
Proof. repeat split. discriminate. Qed.

(** The claim C1 fails when the guard of the amortization block does
    not hold: for a loan without interest the service reports a total
    interest of 0, and no schedule is drawn at all, although the form holds
    a tenure of 20 months for which the claim counts 20 points. *)
Lemma interest_free_loan_has_no_schedule :
  tenureOf parseDigits (collect Samples.freeLoanForm) = Some 20 /\
  List.length (schedule 100000 5000 20 (rateOf parseWhole (collect Samples.freeLoanForm)))
  = 20%nat /\
  amortConfig parseDigits parseWhole "emi"
              (collect Samples.freeLoanForm) Samples.freeLoan = None /\
  resume (submitForm parseDigits parseWhole "emi" (Samples.blank Samples.freeLoanForm))
         (Response 200 (Parsed Samples.freeLoan)) (Samples.blank Samples.freeLoanForm)
  = Return tt
      (mkPage Samples.freeLoanForm
              (fst (summarize "emi" Samples.freeLoan))
              none None none None none None).
Proof. repeat split. Qed.

End Rendering.

(** ** The pie chart *)

Module Pie.

Import JS Calculator.

(** The claim C4 fails in two ways.  With an income that is not above 0
    no pie chart is made, whatever the shortfall: here the amounts add up
    to -250, below an income of 0, and the canvas is hidden.  And when the
    slice is appended, its amount is the rounded difference, so the slices
    need not add up to the income: here 1916.56 + 7808.45 = 9725.01, the
    slice is 27044.8 - 9725.01 = 17319.79, and the four amounts add up to
    27044.800000000003. *)
Lemma pie_total_is_not_always_income :
  (PrimFloat.ltb (toNumber (sum [debt Budgets.credit;
                                 positiveOrZero (remaining_income Budgets.credit)]))
                 (toNumber (income Budgets.credit)) = true /\
   pieConfig (snd (summarize "dti" Budgets.credit)) = None) /\
  (pieConfig (snd (summarize "dti" Budgets.ratio))
   = Some (mkChart "pie"
             [Name "Debt"; Name "Remaining Income"; Name "Other/Unallocated"]
             [mkDataset None
                [Some 1916.56%float; Some 7808.45%float; Some 17319.79%float]
                ["#2980b9"; "#27ae60"; "#bdc3c7"] ["#222"]]
             false) /\
   sum [Some 1916.56%float; Some 7808.45%float; Some 17319.79%float]
   = Some 27044.800000000003%float /\
   PrimFloat.eqb 27044.800000000003 (toNumber (income Budgets.ratio)) = false).
Proof. repeat split. Qed.

(** C4, amended. For an affordability or dti result the chart's
    amounts are those of the type's categories, the one charted for the
    remaining income being 0 when the remaining income is negative (or is
    not above 0) and the remaining income itself when it is above 0.
    Their sum is taken from 0, added from left to right in binary64.  When
    the income is above 0 and above that sum, the pie chart has the
    categories of the type followed by one more, "Other/Unallocated", in
    the colour #bdc3c7, whose amount is the income minus that sum; when
    the income is above 0 but not above the sum, the pie chart has the
    categories of the type only; when the income is not above 0 (or is
    missing), no pie chart is made and the canvas is hidden. *)
Theorem pie_completion (type : string) (result : Result) :
  type = "affordability" \/ type = "dti" ->
  let affordability := String.eqb type "affordability" in
  let charted := positiveOrZero (remaining_income result) in
  let names :=
    if affordability then ["Expenses"; "Existing EMIs"; "Remaining Income"]
    else ["Debt"; "Remaining Income"] in
  let amounts :=
    if affordability then [expenses result; existing_emis result; charted]
    else [debt result; charted] in
  let paints :=
    if affordability then ["#f39c12"; "#2980b9"; "#27ae60"]
    else ["#2980b9"; "#27ae60"] in
  let added :=
    if affordability
    then PrimFloat.add
           (PrimFloat.add (PrimFloat.add 0 (toNumber (expenses result)))
                          (toNumber (existing_emis result)))
           (toNumber charted)
    else PrimFloat.add (PrimFloat.add 0 (toNumber (debt result)))
                       (toNumber charted) in
  let pie := pieConfig (snd (summarize type result)) in
  (gt0 (income result) = true ->
   PrimFloat.ltb added (toNumber (income result)) = true ->
   pie = Some (mkChart "pie" (map Name (names ++ ["Other/Unallocated"]))
                 [mkDataset None
                    (amounts
                     ++ [Some (PrimFloat.sub (toNumber (income result)) added)])
                    (paints ++ ["#bdc3c7"]) ["#222"]]
                 false)) /\
  (gt0 (income result) = true ->
   PrimFloat.ltb added (toNumber (income result)) = false ->
   pie = Some (mkChart "pie" (map Name names)
                 [mkDataset None amounts paints ["#222"]] false)) /\
  (gt0 (income result) = false ->
   pie = None /\
   forall (parseInt : string -> option Z) (parseFloat : string -> float)
          (body : Obj) (p : Page),
     pieChart_display (render parseInt parseFloat type body result p) = none /\
     pieChartObj (render parseInt parseFloat type body result p)
     = destroy (pieChartObj p)) /\
  (PrimFloat.ltb (toNumber (remaining_income result)) 0 = true ->
   charted = Some 0%float) /\
  (gt0 (remaining_income result) = false -> charted = Some 0%float) /\
  (gt0 (remaining_income result) = true -> charted = remaining_income result).
Proof.
  intros Htype affordability charted names amounts paints added pie.
  assert (Hcd : snd (summarize type result)
                = Some (mkChartData names amounts paints (income result))).
  { destruct Htype as [-> | ->]; reflexivity. }
  assert (Hsum : toNumber (sum amounts) = added).
  { destruct Htype as [-> | ->]; reflexivity. }
  split; [| split; [| split; [| split; [| split]]]].
  - intros Hincome Hshort. unfold pie. rewrite Hcd.
    unfold pieConfig. cbn [total data labels colors].
    rewrite Hincome, Hsum, Hshort. reflexivity.
  - intros Hincome Hshort. unfold pie. rewrite Hcd.
    unfold pieConfig. cbn [total data labels colors].
    rewrite Hincome, Hsum, Hshort. reflexivity.
  - intros Hincome.
    assert (Hpie : pie = None).
    { unfold pie. rewrite Hcd. unfold pieConfig. cbn [total].
      rewrite Hincome. reflexivity. }
    split; [exact Hpie |].
    intros parseInt parseFloat body p. unfold render.
    destruct (summarize type result) as [html chartData] eqn:Hs.
    unfold pie in Hpie. cbn [snd] in Hpie. rewrite Hpie. cbn [draw].
    destruct (draw (barConfig type result) (barChartObj p)) as [barDisplay bar].
    destruct (draw (amortConfig parseInt parseFloat type body result)
                   (amortChartObj p)) as [amortDisplay amort].
    split; reflexivity.
  - intros Hneg. unfold charted, positiveOrZero, gt0.
    rewrite (Binary64.ltb_asym _ _ Hneg). reflexivity.
  - intros Hnot. unfold charted, positiveOrZero. rewrite Hnot. reflexivity.
  - intros Hposv. unfold charted, positiveOrZero. rewrite Hposv. reflexivity.
Qed.

Lemma pie_completion_witness :
  pieConfig (snd (summarize "affordability" Budgets.short))
  = Some (mkChart "pie"
            [ Name "Expenses"; Name "Existing EMIs"; Name "Remaining Income";
              Name "Other/Unallocated" ]
            [mkDataset None
               [Some 60000%float; Some 30000%float; Some 0%float; Some 10000%float]
               ["#f39c12"; "#2980b9"; "#27ae60"; "#bdc3c7"] ["#222"]]
            false) /\
  pieConfig (snd (summarize "dti" Budgets.credit)) = None.
Proof.
  split.
  - exact (proj1 (pie_completion "affordability" Budgets.short (or_introl eq_refl))
                 eq_refl eq_refl).
  - exact (proj1 (proj1 (proj2 (proj2 (pie_completion "dti" Budgets.credit
                                          (or_intror eq_refl))))
                        eq_refl)).
Defined.

End Pie.

(** ** Failures of the three requests *)

Module Failures.

Import JS DelhiAreaAnalyzer.

(** The claim C5 fails for the calculator: [submitForm] has no [try] and
    does not look at the status.  A rejected request, or a body that is
    not JSON, ends the call with that exception; a response with status
    500 and a JSON body is rendered like any other, without an error
    message. *)
Lemma failed_submission_is_not_caught :
  let p := Samples.blank Samples.loanForm in
  resume (Calculator.submitForm Calculator.parseDigits Calculator.parseWhole "emi" p)
         (NetworkError (mkError "Failed to fetch")) p
  = Throw (mkError "Failed to fetch") p /\
  resume (Calculator.submitForm Calculator.parseDigits Calculator.parseWhole "emi" p)
         (Response 502 (Malformed (mkError "Unexpected token <"))) p
  = Throw (mkError "Unexpected token <") p /\
  resume (Calculator.submitForm Calculator.parseDigits Calculator.parseWhole "emi" p)
         (Response 500 (Parsed Samples.empty)) p
  = Return tt
      (Calculator.mkPage Samples.loanForm
         (Calculator.Summary "EMI Results:"
            [ Calculator.mkLine "Loan Principal:" "₹" (Calculator.Number None) "";
              Calculator.mkLine "Monthly EMI:" "₹" (Calculator.Number None) "";
              Calculator.mkLine "Total Interest:" "₹" (Calculator.Number None) "";
              Calculator.mkLine "Total Payment:" "₹" (Calculator.Number None) "" ])
         none None none None none None).
Proof. repeat split. Qed.

(** Neither lookup ever ends with an exception. *)
Lemma search_never_throws (query : string) (s : State) :
  Ends (fun exn _ => exn = None) (searchLocations query s).
Proof.
  destruct (Lookups.search_sends query s) as [k Hk].
  pose proof (Lookups.search_answer query s) as Hanswer.
  rewrite Hk in *. constructor. intros o s'.
  specialize (Hanswer o s'). cbn [resume] in Hanswer.
  rewrite Hanswer. constructor. reflexivity.
Qed.

Lemma detail_never_throws (name : string) (s : State) :
  Ends (fun exn s'' => exn = None /\ loadingIndicator_display s'' = none)
       (loadLocationDetails name s).
Proof.
  destruct (Lookups.detail_sends name s) as [k Hk].
  pose proof (Lookups.detail_answer name s) as Hanswer.
  rewrite Hk in *. constructor. intros o s'.
  specialize (Hanswer o s'). cbn [resume] in Hanswer.
  rewrite Hanswer. constructor. split; reflexivity.
Qed.

(** C5, amended. The search lookup and the detail lookup never end with
    an exception, whatever the outcome of their request; when the request
    fails (it is rejected, or the status is not 2xx) they return with the
    error panel displayed, the search with its fixed text.  The calculator
    submission catches nothing: a rejected request or an unreadable body
    ends it with that exception, and a response with a JSON body is
    rendered whatever its status. *)
Theorem lookups_catch_failures :
  (forall query s, Ends (fun exn _ => exn = None) (searchLocations query s)) /\
  (forall name s, Ends (fun exn _ => exn = None) (loadLocationDetails name s)) /\
  (forall query s o s',
     failure o = true ->
     exists s'',
       resume (searchLocations query s) o s' = Return tt s'' /\
       errorMessage_display s'' = block /\
       errorText s'' = "Failed to search locations. Please try again.") /\
  (forall name s o s',
     failure o = true ->
     exists s'',
       resume (loadLocationDetails name s) o s' = Return tt s'' /\
       errorMessage_display s'' = block) /\
  (forall parseInt parseFloat type p p',
     (forall e,
        resume (Calculator.submitForm parseInt parseFloat type p) (NetworkError e) p'
        = Throw e p') /\
     (forall st e,
        resume (Calculator.submitForm parseInt parseFloat type p)
               (Response st (Malformed e)) p'
        = Throw e p') /\
     (forall st result,
        resume (Calculator.submitForm parseInt parseFloat type p)
               (Response st (Parsed result)) p'
        = Return tt
            (Calculator.render parseInt parseFloat type
               (Calculator.collect (Calculator.formContainer_inputs p)) result p'))).
Proof.
  split; [exact search_never_throws |].
  split.
  { intros name s.
    pose proof (detail_never_throws name s) as H.
    induction H as [a s0 [H _] | e s0 [H _] | req s0 k _ IH];
      constructor; auto. }
  split.
  { intros query s o s' Hfail. eexists.
    split; [apply Lookups.search_answer |].
    destruct o as [e | st [e | results]]; try (split; reflexivity).
    rewrite Hfail. split; reflexivity. }
  split.
  { intros name s o s' Hfail. eexists.
    split; [apply Lookups.detail_answer |].
    destruct o as [e | st b]; [reflexivity |].
    rewrite Hfail. destruct (st =? 404); reflexivity. }
  intros parseInt parseFloat type p p'.
  repeat split; intros; apply Rendering.submit_answer.
Qed.

Lemma lookups_catch_failures_witness :
  exists s'',
    resume (searchLocations "sa" initial)
           (Response 503 (Malformed (mkError "Unexpected token <"))) initial
    = Return tt s'' /\
    errorMessage_display s'' = block /\
    errorText s'' = "Failed to search locations. Please try again.".
Proof.
  exact (proj1 (proj2 (proj2 lookups_catch_failures))
               "sa" initial
               (Response 503 (Malformed (mkError "Unexpected token <")))
               initial eq_refl).
Defined.

End Failures.

(** ** Debouncing *)

Module Debounce.

Import JS DelhiAreaAnalyzer Loop.

Lemma untouched_refl (s : State) : untouched s s.
Proof. repeat split. Qed.

Lemma untouched_tidy (s s' : State) : untouched s s' -> tidy s -> tidy s'.
Proof.
  intros [Ht [Hh [Hn _]]] [Hdup [Hold Hone]].
  unfold tidy. rewrite Ht, Hh, Hn. auto.
Qed.

Lemma displaySearchResults_untouched (results : list SearchResult) (s : State) :
  untouched s (displaySearchResults results s).
Proof.
  unfold displaySearchResults.
  destruct (Nat.eqb (List.length results) 0); repeat split.
Qed.

Lemma queriesSent_app (l l' : list Request) :
  queriesSent (l ++ l') = (queriesSent l ++ queriesSent l')%list.
Proof.
  induction l as [| [q | n | t b] l IH]; cbn [queriesSent app];
    try assumption; try reflexivity.
  rewrite IH. reflexivity.
Qed.

Lemma armed_app (ts ts' : list Timer) :
  armed (ts ++ ts') = (armed ts ++ armed ts')%list.
Proof.
  induction ts as [| t ts IH]; cbn [armed app]; [reflexivity |].
  destruct (callback t); rewrite IH; reflexivity.
Qed.

(** A search that starts sends its request and waits. *)
Lemma search_starts (query : string) (s : State) :
  call (searchLocations query) s = (s, Some (Search query, searchContinuation)).
Proof. reflexivity. Qed.

(** A detail lookup that starts shows the loading indicator, hides the
    error, sends its request and waits. *)
Lemma detail_starts (name : string) (s : State) :
  call (loadLocationDetails name) s
  = (hideError (showLoading s), Some (Location name, detailContinuation)).
Proof. reflexivity. Qed.

(** A search that resumes finishes without another request. *)
Lemma search_resumes (o : Outcome (list SearchResult)) (s : State) :
  exists s', call (searchContinuation o) s = (s', None) /\ untouched s s'.
Proof.
  unfold call, searchContinuation. rewrite Lookups.search_answer.
  eexists. split; [reflexivity |].
  destruct o as [e | st [e | results]]; try (repeat split; fail).
  destruct (failure (Response st (Parsed results)));
    [repeat split | apply displaySearchResults_untouched].
Qed.

Lemma detail_resumes (o : Outcome LocationData) (s : State) :
  exists s', call (detailContinuation o) s = (s', None) /\ untouched s s'.
Proof.
  unfold call, detailContinuation. rewrite Lookups.detail_answer.
  eexists. split; [reflexivity |].
  destruct o as [e | st [e | data]]; try (repeat split; fail).
  - destruct (failure (Response st (Malformed e))); [| repeat split].
    destruct (st =? 404); repeat split.
  - destruct (failure (Response st (Parsed data))); [| repeat split].
    destruct (st =? 404); repeat split.
Qed.

Lemma selectLocation_starts (index : Z) (s : State) :
  startsAtMostOneDetail s (selectLocation index s).
Proof.
  unfold selectLocation.
  destruct ((0 <=? index) && (index <? Z.of_nat (List.length (searchResults s))));
    [| split; [apply untouched_refl | left; reflexivity]].
  destruct (nth_error (searchResults s) (Z.to_nat index)) as [r |];
    [| split; [apply untouched_refl | left; reflexivity]].
  rewrite detail_starts. split; [repeat split |].
  right. eexists. reflexivity.
Qed.

Lemma handleKeyNavigation_starts (key : string) (s : State) :
  startsAtMostOneDetail s (handleKeyNavigation key s).
Proof.
  unfold handleKeyNavigation.
  destruct (String.eqb key "ArrowDown");
    [split; [repeat split | left; reflexivity] |].
  destruct (String.eqb key "ArrowUp");
    [split; [repeat split | left; reflexivity] |].
  destruct (String.eqb key "Enter").
  - destruct (0 <=? selectedLocationIndex s);
      [apply selectLocation_starts |
       split; [apply untouched_refl | left; reflexivity]].
  - destruct (String.eqb key "Escape");
      split; try (repeat split; fail); left; reflexivity.
Qed.

(** *** The timer table *)

Lemma armed_none (ts : list Timer) :
  (forall t, In t ts -> startsSearch t = false) -> armed ts = [].
Proof.
  induction ts as [| t ts IH]; intros Hnone; cbn [armed]; [reflexivity |].
  pose proof (Hnone t (or_introl eq_refl)) as Ht.
  unfold startsSearch in Ht.
  destruct (callback t); [discriminate |].
  apply IH. intros t' Hin. apply Hnone. right. exact Hin.
Qed.

Lemma armed_In (ts : list Timer) (t : Timer) (query : string) :
  In t ts -> callback t = RunSearch query -> In (due t, query) (armed ts).
Proof.
  induction ts as [| t' ts IH]; intros Hin Hcb; [contradiction |].
  cbn [armed]. destruct Hin as [-> | Hin].
  - rewrite Hcb. left. reflexivity.
  - destruct (callback t'); [right |]; auto.
Qed.

(** Dropping timers that start no search leaves the armed ones. *)
Lemma armed_filter (keep : Timer -> bool) (ts : list Timer) :
  (forall t, In t ts -> keep t = false -> startsSearch t = false) ->
  armed (filter keep ts) = armed ts.
Proof.
  induction ts as [| t ts IH]; intros Hdrop; [reflexivity |].
  cbn [filter armed].
  assert (IH' : armed (filter keep ts) = armed ts).
  { apply IH. intros t' Hin. apply Hdrop. right. exact Hin. }
  destruct (keep t) eqn:Hk.
  - cbn [armed]. rewrite IH'. reflexivity.
  - pose proof (Hdrop t (or_introl eq_refl) Hk) as Hs.
    unfold startsSearch in Hs.
    destruct (callback t); [discriminate | exact IH'].
Qed.

Lemma NoDup_map_filter {A B} (f : A -> B) (keep : A -> bool) (l : list A) :
  NoDup (map f l) -> NoDup (map f (filter keep l)).
Proof.
  induction l as [| a l IH]; intros Hnd; [exact Hnd |].
  cbn [map filter] in *. inversion Hnd as [| b l' Hnotin Hnd' ]; subst.
  destruct (keep a); [| auto].
  cbn [map]. constructor; [| auto].
  intros Hin. apply Hnotin.
  apply in_map_iff in Hin. destruct Hin as [x [Hfx Hx]].
  apply filter_In in Hx. apply in_map_iff. exists x. tauto.
Qed.

Lemma NoDup_map_same {A B} (f : A -> B) (l : list A) (a b : A) :
  NoDup (map f l) -> In a l -> In b l -> f a = f b -> a = b.
Proof.
  induction l as [| x l IH]; intros Hnd Ha Hb Hf; [contradiction |].
  cbn [map] in Hnd. inversion Hnd as [| y l' Hnotin Hnd']; subst.
  destruct Ha as [-> | Ha], Hb as [-> | Hb]; auto.
  - exfalso. apply Hnotin. rewrite Hf. apply in_map. exact Hb.
  - exfalso. apply Hnotin. rewrite <- Hf. apply in_map. exact Ha.
Qed.

Lemma find_In (h : nat) (ts : list Timer) (t : Timer) :
  find (fun t => Nat.eqb (id t) h) ts = Some t -> In t ts /\ id t = h.
Proof.
  intros Hfind. apply find_some in Hfind. destruct Hfind as [Hin Heq].
  apply Nat.eqb_eq in Heq. auto.
Qed.

(** Dropping timers keeps the table in order. *)
Lemma tidy_filter (keep : Timer -> bool) (s : State) :
  tidy s -> tidy (set_timers (filter keep (timers s)) s).
Proof.
  intros [Hdup [Hold Hone]]. unfold tidy. cbn.
  split; [apply NoDup_map_filter; exact Hdup |].
  split; intros t Hin; apply filter_In in Hin; destruct Hin as [Hin _]; auto.
Qed.

(** [clearTimeout(this.searchTimeout)] leaves no timer that would start
    a search. *)
Lemma clearTimeout_disarms (s : State) :
  tidy s ->
  tidy (clearTimeout (searchTimeout s) s) /\
  (forall t, In t (timers (clearTimeout (searchTimeout s) s)) ->
             startsSearch t = false).
Proof.
  intros Htidy. pose proof Htidy as [Hdup [Hold Hone]].
  unfold clearTimeout. destruct (searchTimeout s) as [h |] eqn:Hh.
  - split; [apply tidy_filter; exact Htidy |].
    cbn. intros t Hin. apply filter_In in Hin. destruct Hin as [Hin Hne].
    destruct (startsSearch t) eqn:Hs; [| reflexivity].
    pose proof (Hone t Hin Hs) as Heq. injection Heq as ->.
    rewrite Nat.eqb_refl in Hne. discriminate.
  - split; [exact Htidy |].
    intros t Hin. destruct (startsSearch t) eqn:Hs; [| reflexivity].
    pose proof (Hone t Hin Hs) as Heq. discriminate.
Qed.

(** [setTimeout] keeps handles distinct. *)
Lemma setTimeout_fresh (cb : Callback) (delay : nat) (s : State) :
  NoDup (map id (timers s)) ->
  (forall t, In t (timers s) -> (id t < nextTimer s)%nat) ->
  NoDup (map id (timers (snd (setTimeout cb delay s)))) /\
  (forall t, In t (timers (snd (setTimeout cb delay s))) ->
             (id t < nextTimer (snd (setTimeout cb delay s)))%nat).
Proof.
  intros Hdup Hold. cbn. split.
  - rewrite map_app. cbn [map id].
    apply NoDup_app_remove_l with (l := @nil nat). cbn [app].
    rewrite <- (rev_involutive (map id (timers s) ++ [nextTimer s])).
    apply NoDup_rev. rewrite rev_app_distr. cbn [rev app].
    constructor; [| apply NoDup_rev; exact Hdup].
    rewrite <- in_rev. intros Hin. apply in_map_iff in Hin.
    destruct Hin as [t [Hid Hin]]. pose proof (Hold t Hin). lia.
  - intros t Hin. apply in_app_or in Hin. destruct Hin as [Hin | [<- | []]].
    + pose proof (Hold t Hin). lia.
    + cbn. lia.
Qed.

Lemma clearTimeout_clock (h : option nat) (s : State) :
  clock (clearTimeout h s) = clock s.
Proof. destruct h; reflexivity. Qed.

(** An edit of the box leaves exactly the timer it has armed, or none
    when the text is too short. *)
Lemma handleSearchInput_view (query : string) (s : State) :
  tidy s ->
  tidy (handleSearchInput query s) /\
  clock (handleSearchInput query s) = clock s /\
  armed (timers (handleSearchInput query s))
  = (if Nat.ltb (String.length query) 2 then []
     else [((clock s + 300)%nat, query)]) /\
  (Nat.ltb (String.length query) 2 = true ->
   searchDropdown_display (handleSearchInput query s) = none).
Proof.
  intros Htidy.
  destruct (clearTimeout_disarms s Htidy) as [Hclear Hnone].
  pose proof (clearTimeout_clock (searchTimeout s) s) as Hclock.
  unfold handleSearchInput.
  set (s1 := clearTimeout (searchTimeout s) s) in *.
  destruct (Nat.ltb (String.length query) 2).
  - split; [apply (untouched_tidy s1); [repeat split | exact Hclear] |].
    split; [exact Hclock |].
    split; [apply armed_none; exact Hnone | reflexivity].
  - destruct Hclear as [Hdup [Hold Hone]].
    destruct (setTimeout_fresh (RunSearch query) 300 s1 Hdup Hold)
      as [Hdup' Hold'].
    cbn [setTimeout] in *. cbn in Hdup', Hold'.
    split; [| split; [exact Hclock | split; [| discriminate]]].
    + unfold tidy. cbn.
      split; [exact Hdup' |]. split; [exact Hold' |].
      intros t Hin Hs. apply in_app_or in Hin.
      destruct Hin as [Hin | [<- | []]]; [| reflexivity].
      rewrite (Hnone t Hin) in Hs. discriminate.
    + cbn. rewrite armed_app, (armed_none _ Hnone), Hclock. reflexivity.
Qed.

Lemma Forall_remove_nth {A} (P : A -> Prop) (i : nat) (l : list A) :
  Forall P l -> Forall P (remove_nth i l).
Proof.
  intros H. revert i.
  induction H as [| a l Ha Hl IH]; intros i; [destruct i; constructor |].
  destruct i; cbn [remove_nth]; [exact Hl | constructor; auto].
Qed.

(** What the world looks like after a handler that may have started a
    detail lookup. *)
Lemma afterDetail_view (s : State) (r : State * option (InFlight LocationData))
      (w : World) :
  tidy s ->
  Forall (fun k => k = searchContinuation) (searches w) ->
  Forall (fun k => k = detailContinuation) (details w) ->
  startsAtMostOneDetail s r ->
  orderly (afterDetail r w) /\
  untouched s (page (afterDetail r w)) /\
  queriesSent (sent (afterDetail r w)) = queriesSent (sent w).
Proof.
  intros Htidy Hs Hd [Hun Hstart]. destruct r as [s' start]. cbn [fst snd] in *.
  destruct Hstart as [-> | [name ->]]; cbn [afterDetail].
  - split; [| split; [exact Hun | reflexivity]].
    split; [apply (untouched_tidy s); assumption | split; assumption].
  - split; [| split; [exact Hun |]].
    + split; [apply (untouched_tidy s); assumption |].
      split; [assumption |].
      apply Forall_app. split; [assumption | constructor; auto].
    + cbn [sent]. rewrite queriesSent_app. cbn [queriesSent].
      apply app_nil_r.
Qed.

(** *** One event *)

(** Every event keeps the world in order; an edit leaves the timer it has
    armed (or none), the passing of time changes only the clock, a timer
    that runs either sends the query of an armed timer that is due, after
    which none is armed, or leaves queries and armed timers alone, and no
    other event sends a search or touches an armed timer. *)
Lemma step_view (w : World) (e : Event) (w' : World) :
  orderly w ->
  step w e = Some w' ->
  orderly w' /\
  match e with
  | input query =>
      clock (page w') = clock (page w) /\
      sent w' = sent w /\
      armed (timers (page w'))
      = (if Nat.ltb (String.length query) 2 then []
         else [((clock (page w) + 300)%nat, query)]) /\
      (Nat.ltb (String.length query) 2 = true ->
       searchDropdown_display (page w') = none)
  | elapse ms =>
      clock (page w') = (clock (page w) + ms)%nat /\
      queriesSent (sent w') = queriesSent (sent w) /\
      armed (timers (page w')) = armed (timers (page w))
  | timer h =>
      clock (page w') = clock (page w) /\
      ((queriesSent (sent w') = queriesSent (sent w) /\
        armed (timers (page w')) = armed (timers (page w))) \/
       (exists d query,
          In (d, query) (armed (timers (page w))) /\
          (d <= clock (page w))%nat /\
          armed (timers (page w')) = [] /\
          queriesSent (sent w') = (queriesSent (sent w) ++ [query])%list))
  | _ =>
      clock (page w') = clock (page w) /\
      queriesSent (sent w') = queriesSent (sent w) /\
      armed (timers (page w')) = armed (timers (page w))
  end.
Proof.
  intros [Htidy [Hs Hd]] Hstep.
  destruct e as [value | key | | | i | ms | h | i o | i o]; cbn [step] in Hstep.
  - (* input *)
    injection Hstep as <-. cbn [page sent].
    destruct (handleSearchInput_view value
                (set_searchInput_value value (page w)))
      as [Ht [Hc [Ha Hh]]].
    { apply (untouched_tidy (page w)); [repeat split | exact Htidy]. }
    split; [split; [exact Ht | split; assumption] |].
    split; [exact Hc |]. split; [reflexivity |]. split; [exact Ha | exact Hh].
  - (* keydown *)
    injection Hstep as <-.
    destruct (afterDetail_view (page w) (handleKeyNavigation key (page w)) w
                Htidy Hs Hd (handleKeyNavigation_starts key (page w)))
      as [Ho [[Ht [_ [_ Hc]]] Hq]].
    split; [exact Ho |]. rewrite Ht. auto.
  - (* blur *)
    injection Hstep as <-. cbn [page sent].
    destruct Htidy as [Hdup [Hold Hone]].
    destruct (setTimeout_fresh HideDropdown 200 (page w) Hdup Hold)
      as [Hdup' Hold'].
    split.
    + split; [| split; assumption].
      split; [exact Hdup' |]. split; [exact Hold' |].
      cbn. intros t Hin Hstart. apply in_app_or in Hin.
      destruct Hin as [Hin | [<- | []]]; [auto | discriminate].
    + cbn. rewrite armed_app. cbn. rewrite app_nil_r. auto.
  - (* click outside *)
    injection Hstep as <-. cbn [page sent].
    split; [| auto].
    split; [apply (untouched_tidy (page w)); [repeat split | exact Htidy] |].
    split; assumption.
  - (* click on an item *)
    destruct (searchDropdown_display (page w)); [| discriminate].
    destruct (nth_error (searchDropdown_items (page w)) i) as [item |];
      [| discriminate].
    injection Hstep as <-.
    destruct (afterDetail_view (page w)
                (selectLocation (Z.of_nat (data_index item)) (page w)) w
                Htidy Hs Hd
                (selectLocation_starts (Z.of_nat (data_index item)) (page w)))
      as [Ho [[Ht [_ [_ Hc]]] Hq]].
    split; [exact Ho |]. rewrite Ht. auto.
  - (* elapse *)
    injection Hstep as <-. cbn [page sent].
    split; [| auto].
    split; [| split; assumption].
    destruct Htidy as [Hdup [Hold Hone]]. repeat split; assumption.
  - (* timer *)
    destruct (find (fun t => Nat.eqb (id t) h) (timers (page w))) as [t |] eqn:Hfind;
      [| discriminate].
    apply find_In in Hfind. destruct Hfind as [Hin Hid].
    destruct (Nat.leb (due t) (clock (page w))) eqn:Hdue; [| discriminate].
    apply Nat.leb_le in Hdue.
    pose proof (tidy_filter (fun t => negb (Nat.eqb (id t) h)) (page w) Htidy)
      as Htidy'.
    destruct Htidy as [Hdup [Hold Hone]].
    destruct (callback t) as [query |] eqn:Hcb.
    + rewrite search_starts in Hstep. injection Hstep as <-.
      cbn [afterSearch page sent searches details].
      split.
      * split; [exact Htidy' |]. split; [| assumption].
        apply Forall_app. split; [assumption | constructor; auto].
      * split; [reflexivity |]. right. exists (due t), query.
        split; [apply (armed_In _ t); assumption |].
        split; [exact Hdue |].
        split.
        -- cbn. apply armed_none. intros t' Hin'.
           apply filter_In in Hin'. destruct Hin' as [Hin' Hne].
           destruct (startsSearch t') eqn:Hs'; [| reflexivity].
           assert (Hst : startsSearch t = true)
             by (unfold startsSearch; rewrite Hcb; reflexivity).
           pose proof (Hone t Hin Hst) as H1.
           pose proof (Hone t' Hin' Hs') as H2.
           rewrite H1 in H2. injection H2 as H2.
           rewrite <- H2, Hid, Nat.eqb_refl in Hne. discriminate.
        -- rewrite queriesSent_app. reflexivity.
    + injection Hstep as <-. cbn [page sent].
      split.
      * split; [| split; assumption].
        apply (untouched_tidy
                 (set_timers
                    (filter (fun t => negb (Nat.eqb (id t) h)) (timers (page w)))
                    (page w))); [repeat split | exact Htidy'].
      * split; [reflexivity |]. left. split; [reflexivity |].
        cbn. apply armed_filter. intros t' Hin' Hdrop.
        apply negb_false_iff, Nat.eqb_eq in Hdrop.
        assert (t' = t) as ->.
        { apply (NoDup_map_same id (timers (page w))); try assumption.
          lia. }
        unfold startsSearch. rewrite Hcb. reflexivity.
  - (* a search is answered *)
    destruct (nth_error (searches w) i) as [k |] eqn:Hk; [| discriminate].
    injection Hstep as <-.
    assert (k = searchContinuation) as ->.
    { apply nth_error_In in Hk.
      rewrite Forall_forall in Hs. apply (Hs k Hk). }
    destruct (search_resumes o (page w)) as [s' [Hcall Hun]].
    rewrite Hcall. cbn [afterSearch page sent searches details].
    pose proof Hun as [Ht [_ [_ Hc]]].
    split; [| rewrite Ht; auto].
    split; [apply (untouched_tidy (page w)); assumption |].
    split; [apply Forall_remove_nth; assumption | assumption].
  - (* a detail lookup is answered *)
    destruct (nth_error (details w) i) as [k |] eqn:Hk; [| discriminate].
    injection Hstep as <-.
    assert (k = detailContinuation) as ->.
    { apply nth_error_In in Hk.
      rewrite Forall_forall in Hd. apply (Hd k Hk). }
    destruct (detail_resumes o (page w)) as [s' [Hcall Hun]].
    rewrite Hcall. cbn [afterDetail page sent searches details].
    pose proof Hun as [Ht [_ [_ Hc]]].
    split; [| rewrite Ht; auto].
    split; [apply (untouched_tidy (page w)); assumption |].
    split; [assumption | apply Forall_remove_nth; assumption].
Qed.

(** *** Sequences of events *)

Lemma run_app (es es' : list Event) :
  forall w, run w (es ++ es')
            = match run w es with
              | Some w' => run w' es'
              | None => None
              end.
Proof.
  induction es as [| e es IH]; intros w; cbn [run app]; [reflexivity |].
  destruct (step w e); [apply IH | reflexivity].
Qed.

Lemma noInput_cons (e : Event) (es : list Event) :
  noInput (e :: es) -> isInput e = false /\ noInput es.
Proof.
  unfold noInput. cbn [forallb]. intros H.
  apply andb_prop in H. destruct H as [He Hes].
  apply negb_true_iff in He. auto.
Qed.

(** While the armed timer is not due, nothing is sent and it stays
    armed. *)
Lemma gap_view (gap : list Event) :
  forall (w w' : World) (d : nat) (query : string),
    orderly w ->
    armed (timers (page w)) = [(d, query)] ->
    (clock (page w) + elapsed gap < d)%nat ->
    noInput gap ->
    run w gap = Some w' ->
    orderly w' /\
    armed (timers (page w')) = [(d, query)] /\
    queriesSent (sent w') = queriesSent (sent w) /\
    clock (page w') = (clock (page w) + elapsed gap)%nat.
Proof.
  induction gap as [| e gap IH]; intros w w' d query Ho Ha Hd Hn Hrun.
  - injection Hrun as <-. cbn [elapsed]. rewrite Nat.add_0_r. auto.
  - cbn [run] in Hrun. destruct (step w e) as [w1 |] eqn:Hstep; [| discriminate].
    apply noInput_cons in Hn. destruct Hn as [He Hn].
    destruct (step_view w e w1 Ho Hstep) as [Ho1 Hview].
    assert (H1 : armed (timers (page w1)) = [(d, query)] /\
                 queriesSent (sent w1) = queriesSent (sent w) /\
                 (clock (page w1) + elapsed gap
                  = clock (page w) + elapsed (e :: gap))%nat).
    { destruct e as [value | key | | | i | ms | h | i o | i o];
        try discriminate; cbn [elapsed] in *;
        try (destruct Hview as [Hc [Hq Hr]]; rewrite Hr, Hq, Hc; auto; fail).
      - destruct Hview as [Hc [Hq Hr]]. rewrite Hr, Hq, Hc.
        split; [assumption | split; [reflexivity | lia]].
      - destruct Hview as [Hc [[Hq Hr] | [d' [q' [Hin [Hdue _]]]]]].
        + rewrite Hr, Hq, Hc. auto.
        + rewrite Ha in Hin. destruct Hin as [Heq | []].
          injection Heq as -> ->. lia. }
    destruct H1 as [Ha1 [Hq1 Hc1]].
    destruct (IH w1 w' d query Ho1 Ha1 ltac:(lia) Hn Hrun)
      as [Ho' [Ha' [Hq' Hc']]].
    rewrite Hq', Hq1, Hc', Hc1. auto.
Qed.

(** A burst of rapid edits sends nothing and leaves the timer of the
    last edit armed. *)
Lemma burst_view (rest : list (list Event * string)) :
  forall (first : string) (w w' : World),
    orderly w ->
    rapid first rest ->
    run w (burst first rest) = Some w' ->
    orderly w' /\
    armed (timers (page w'))
    = [((clock (page w') + 300)%nat, lastQuery first rest)] /\
    queriesSent (sent w') = queriesSent (sent w).
Proof.
  induction rest as [| [gap query] rest IH]; intros first w w' Ho Hrapid Hrun;
    cbn [burst lastQuery rapid] in *.
  - destruct Hrapid as [Hlen _].
    cbn [run] in Hrun.
    destruct (step w (input first)) as [w1 |] eqn:Hstep; [| discriminate].
    injection Hrun as <-.
    destruct (step_view w (input first) w1 Ho Hstep) as [Ho1 [Hc [Hs [Ha _]]]].
    apply Nat.ltb_ge in Hlen. rewrite Hlen in Ha.
    rewrite Ha, Hc, Hs. auto.
  - destruct Hrapid as [Hlen [Hn [Hgap Hrapid]]].
    rewrite <- app_comm_cons in Hrun. cbn [run] in Hrun.
    destruct (step w (input first)) as [w1 |] eqn:Hstep; [| discriminate].
    destruct (step_view w (input first) w1 Ho Hstep) as [Ho1 [Hc [Hs [Ha _]]]].
    apply Nat.ltb_ge in Hlen. rewrite Hlen in Ha.
    rewrite run_app in Hrun.
    destruct (run w1 gap) as [w2 |] eqn:Hrun2; [| discriminate].
    destruct (gap_view gap w1 w2 _ _ Ho1 Ha ltac:(lia) Hn Hrun2)
      as [Ho2 [_ [Hq2 _]]].
    destruct (IH query w2 w' Ho2 Hrapid Hrun) as [Ho' [Ha' Hq']].
    rewrite Hq', Hq2, Hs. auto.
Qed.

(** Without an armed timer and without an edit, no search is sent. *)
Lemma idle_view (es : list Event) :
  forall (w w' : World),
    orderly w ->
    armed (timers (page w)) = [] ->
    noInput es ->
    run w es = Some w' ->
    queriesSent (sent w') = queriesSent (sent w).
Proof.
  induction es as [| e es IH]; intros w w' Ho Ha Hn Hrun.
  - injection Hrun as <-. reflexivity.
  - cbn [run] in Hrun. destruct (step w e) as [w1 |] eqn:Hstep; [| discriminate].
    apply noInput_cons in Hn. destruct Hn as [He Hn].
    destruct (step_view w e w1 Ho Hstep) as [Ho1 Hview].
    assert (H1 : armed (timers (page w1)) = [] /\
                 queriesSent (sent w1) = queriesSent (sent w)).
    { destruct e as [value | key | | | i | ms | h | i o | i o];
        try discriminate;
        try (destruct Hview as [Hc [Hq Hr]]; rewrite Hr, Hq; auto; fail).
      destruct Hview as [Hc [[Hq Hr] | [d' [q' [Hin _]]]]].
      - rewrite Hr, Hq. auto.
      - rewrite Ha in Hin. contradiction. }
    destruct H1 as [Ha1 Hq1].
    rewrite (IH w1 w' Ho1 Ha1 Hn Hrun). exact Hq1.
Qed.

(** With one armed timer and without an edit, at most its query is
    sent. *)
Lemma armed_view (es : list Event) :
  forall (w w' : World) (d : nat) (query : string),
    orderly w ->
    armed (timers (page w)) = [(d, query)] ->
    noInput es ->
    run w es = Some w' ->
    queriesSent (sent w') = queriesSent (sent w) \/
    queriesSent (sent w') = (queriesSent (sent w) ++ [query])%list.
Proof.
  induction es as [| e es IH]; intros w w' d query Ho Ha Hn Hrun.
  - injection Hrun as <-. left. reflexivity.
  - cbn [run] in Hrun. destruct (step w e) as [w1 |] eqn:Hstep; [| discriminate].
    apply noInput_cons in Hn. destruct Hn as [He Hn].
    destruct (step_view w e w1 Ho Hstep) as [Ho1 Hview].
    destruct e as [value | key | | | i | ms | h | i o | i o];
      try discriminate;
      try (destruct Hview as [Hc [Hq Hr]]; rewrite <- Hq;
           apply (IH w1 w' d query Ho1); [rewrite Hr | |]; assumption).
    destruct Hview as [Hc [[Hq Hr] | [d' [q' [Hin [_ [Hr Hq]]]]]]].
    + rewrite <- Hq. apply (IH w1 w' d query Ho1); [rewrite Hr | |]; assumption.
    + rewrite Ha in Hin. destruct Hin as [Heq | []]. injection Heq as -> ->.
      right. rewrite <- Hq. apply (idle_view es w1 w' Ho1 Hr Hn Hrun).
Qed.

Lemma armed_inv (ts : list Timer) (d : nat) (query : string) :
  In (d, query) (armed ts) ->
  exists t, In t ts /\ callback t = RunSearch query /\ due t = d.
Proof.
  induction ts as [| t ts IH]; cbn [armed]; [contradiction |].
  destruct (callback t) as [q |] eqn:Hcb.
  - intros [Heq | Hin].
    + injection Heq as <- <-. exists t. split; [left; reflexivity | auto].
    + destruct (IH Hin) as [t' [Hin' H]]. exists t'. split; [right |]; auto.
  - intros Hin. destruct (IH Hin) as [t' [Hin' H]].
    exists t'. split; [right |]; auto.
Qed.

(** Once the delay has passed, the armed timer can run, and it sends its
    query. *)
Lemma due_timer_fires (w : World) (d ms : nat) (query : string) :
  orderly w ->
  armed (timers (page w)) = [(d, query)] ->
  (d <= clock (page w) + ms)%nat ->
  exists h w',
    run w [elapse ms; timer h] = Some w' /\
    queriesSent (sent w') = (queriesSent (sent w) ++ [query])%list.
Proof.
  intros [[Hdup _] _] Ha Hd.
  destruct (armed_inv (timers (page w)) d query) as [t [Hin [Hcb Hdue]]];
    [rewrite Ha; left; reflexivity |].
  exists (id t).
  assert (Hfind : find (fun t' => Nat.eqb (id t') (id t)) (timers (page w)) = Some t).
  { destruct (find (fun t' => Nat.eqb (id t') (id t)) (timers (page w)))
      as [t' |] eqn:Hf.
    - apply find_In in Hf. destruct Hf as [Hin' Hid].
      f_equal. apply (NoDup_map_same id (timers (page w))); assumption.
    - pose proof (find_none _ _ Hf t Hin) as Hno.
      cbn beta in Hno. rewrite Nat.eqb_refl in Hno. discriminate. }
  cbn [run step page]. cbn [timers set_clock clock]. rewrite Hfind.
  apply Nat.leb_le in Hd. rewrite Hdue, Hd, Hcb, search_starts.
  eexists. split; [reflexivity |].
  cbn [afterSearch sent]. rewrite queriesSent_app. reflexivity.
Qed.

Lemma boot_orderly : orderly boot.
Proof.
  repeat split; try constructor; intros t [].
Qed.

(** Every world the page can reach is in order. *)
Lemma run_orderly (es : list Event) :
  forall w w', orderly w -> run w es = Some w' -> orderly w'.
Proof.
  induction es as [| e es IH]; intros w w' Ho Hrun; cbn [run] in Hrun.
  - injection Hrun as <-. exact Ho.
  - destruct (step w e) as [w1 |] eqn:Hstep; [| discriminate].
    apply (IH w1 w'); [| exact Hrun].
    apply (step_view w e w1 Ho Hstep).
Qed.

(** C3. In any world the page can be in: during a burst of edits of at
    least 2 characters, each within 300 ms of the one before, no search
    is sent and exactly the timer of the last edit stays armed; whatever
    happens afterwards without another edit, at most one search is sent,
    and it carries the last query (after 300 ms the timer can run, and
    then exactly that search is sent).  An edit of at least 2 characters
    leaves only its own timer armed, so the timer armed before is
    cancelled; an edit of fewer than 2 characters leaves none armed, hides
    the dropdown and sends nothing, then or later. *)
Theorem debounce_sends_last_query (w : World) :
  orderly w ->
  (forall first rest tail w'',
     rapid first rest -> noInput tail ->
     run w (burst first rest ++ tail) = Some w'' ->
     queriesSent (sent w'') = queriesSent (sent w) \/
     queriesSent (sent w'')
     = (queriesSent (sent w) ++ [lastQuery first rest])%list) /\
  (forall first rest w',
     rapid first rest ->
     run w (burst first rest) = Some w' ->
     queriesSent (sent w') = queriesSent (sent w) /\
     armed (timers (page w'))
     = [((clock (page w') + 300)%nat, lastQuery first rest)] /\
     exists h w'',
       run w' [elapse 300; timer h] = Some w'' /\
       queriesSent (sent w'')
       = (queriesSent (sent w) ++ [lastQuery first rest])%list) /\
  (forall query,
     (2 <= String.length query)%nat ->
     exists w',
       step w (input query) = Some w' /\
       armed (timers (page w')) = [((clock (page w) + 300)%nat, query)] /\
       sent w' = sent w) /\
  (forall query,
     (String.length query < 2)%nat ->
     exists w',
       step w (input query) = Some w' /\
       armed (timers (page w')) = [] /\
       searchDropdown_display (page w') = none /\
       sent w' = sent w /\
       forall tail w'',
         noInput tail -> run w' tail = Some w'' ->
         queriesSent (sent w'') = queriesSent (sent w)).
Proof.
  intros Ho. split; [| split; [| split]].
  - intros first rest tail w'' Hrapid Hn Hrun.
    rewrite run_app in Hrun.
    destruct (run w (burst first rest)) as [w' |] eqn:Hburst; [| discriminate].
    destruct (burst_view rest first w w' Ho Hrapid Hburst) as [Ho' [Ha Hq]].
    rewrite <- Hq. apply (armed_view tail w' w'' _ _ Ho' Ha Hn Hrun).
  - intros first rest w' Hrapid Hburst.
    destruct (burst_view rest first w w' Ho Hrapid Hburst) as [Ho' [Ha Hq]].
    split; [exact Hq |]. split; [exact Ha |].
    rewrite <- Hq. apply (due_timer_fires w' _ 300 _ Ho' Ha). lia.
  - intros query Hlen.
    destruct (step w (input query)) as [w' |] eqn:Hstep; [| discriminate].
    destruct (step_view w (input query) w' Ho Hstep) as [_ [_ [Hs [Ha _]]]].
    apply Nat.ltb_ge in Hlen. rewrite Hlen in Ha.
    exists w'. auto.
  - intros query Hlen.
    destruct (step w (input query)) as [w' |] eqn:Hstep; [| discriminate].
    destruct (step_view w (input query) w' Ho Hstep) as [Ho' [_ [Hs [Ha Hh]]]].
    apply Nat.ltb_lt in Hlen. rewrite Hlen in Ha.
    exists w'. split; [reflexivity |]. split; [exact Ha |].
    split; [exact (Hh Hlen) |]. split; [exact Hs |].
    intros tail w'' Hn Hrun. rewrite <- Hs.
    apply (idle_view tail w' w'' Ho' Ha Hn Hrun).
Qed.

Lemma debounce_sends_last_query_witness :
  exists w',
    run boot (burst "sa" [([elapse 120], "sak");
                          ([elapse 80; keydown "ArrowDown"; elapse 90], "sake")])
    = Some w' /\
    queriesSent (sent w') = [] /\
    armed (timers (page w')) = [((clock (page w') + 300)%nat, "sake")].
Proof.
  destruct (run boot (burst "sa" [([elapse 120], "sak");
                                  ([elapse 80; keydown "ArrowDown"; elapse 90],
                                   "sake")]))
    as [w' |] eqn:Hrun; [| vm_compute in Hrun; discriminate].
  exists w'. split; [reflexivity |].
  destruct (debounce_sends_last_query boot boot_orderly) as [_ [Hburst _]].
  destruct (Hburst "sa"
              [([elapse 120], "sak");
               ([elapse 80; keydown "ArrowDown"; elapse 90], "sake")]
              w' ltac:(cbn; repeat split; lia) Hrun) as [Hq [Ha _]].
  split; [exact Hq | exact Ha].
Defined.

End Debounce.

(** ** Keyboard navigation *)

Module Navigation.

Import JS DelhiAreaAnalyzer Loop.

Lemma sameList_highlighted (s s' : State) :
  sameList s s' -> highlighted s -> highlighted s'.
Proof.
  intros [Hi [Hit Hr]] H. unfold highlighted. rewrite Hi, Hit, Hr. exact H.
Qed.

Lemma renderItems_length (results : list SearchResult) :
  forall i, List.length (renderItems i results) = List.length results.
Proof.
  induction results as [| r results IH]; intros i; cbn; [| rewrite IH];
    reflexivity.
Qed.

Lemma markActive_length (items : list Item) :
  forall i sel, List.length (markActive i sel items) = List.length items.
Proof.
  induction items as [| it items IH]; intros i sel; cbn; [| rewrite IH];
    reflexivity.
Qed.

(** Replacing the results resets the highlighted index to -1. *)
Lemma displaySearchResults_resets (results : list SearchResult) (s : State) :
  selectedLocationIndex (displaySearchResults results s) = -1 /\
  searchResults (displaySearchResults results s) = results /\
  searchDropdown_items (displaySearchResults results s)
  = match results with
    | [] => searchDropdown_items s
    | _ => renderItems 0 results
    end.
Proof.
  unfold displaySearchResults.
  destruct results; repeat split.
Qed.

Lemma displaySearchResults_highlighted (results : list SearchResult) (s : State) :
  highlighted (displaySearchResults results s).
Proof.
  destruct (displaySearchResults_resets results s) as [Hi [Hr Hit]].
  unfold highlighted. rewrite Hi, Hr, Hit.
  destruct results as [| r results].
  - split; [lia | congruence].
  - rewrite renderItems_length. cbn [List.length]. split; [lia | reflexivity].
Qed.

Lemma handleSearchInput_sameList (query : string) (s : State) :
  sameList s (handleSearchInput query s).
Proof.
  unfold handleSearchInput, clearTimeout.
  destruct (searchTimeout s); destruct (Nat.ltb (String.length query) 2);
    repeat split.
Qed.

Lemma selectLocation_sameList (index : Z) (s : State) :
  sameList s (fst (selectLocation index s)).
Proof.
  unfold selectLocation.
  destruct ((0 <=? index) && (index <? Z.of_nat (List.length (searchResults s))));
    [| repeat split].
  destruct (nth_error (searchResults s) (Z.to_nat index)); repeat split.
Qed.

Lemma handleKeyNavigation_highlighted (key : string) (s : State) :
  highlighted s -> highlighted (fst (handleKeyNavigation key s)).
Proof.
  intros [Hrange Hlen]. unfold handleKeyNavigation.
  destruct (String.eqb key "ArrowDown").
  { unfold highlighted. cbn. rewrite markActive_length. split; [lia | exact Hlen]. }
  destruct (String.eqb key "ArrowUp").
  { unfold highlighted. cbn. rewrite markActive_length. split; [lia | exact Hlen]. }
  destruct (String.eqb key "Enter").
  { destruct (0 <=? selectedLocationIndex s); [| split; assumption].
    apply (sameList_highlighted s);
      [apply selectLocation_sameList | split; assumption]. }
  destruct (String.eqb key "Escape"); split; assumption.
Qed.

(** In every world the page can reach, the highlighted index is within
    the items of the dropdown, and within the result list whenever that
    list is not empty. *)
Lemma step_highlighted (w : World) (e : Event) (w' : World) :
  orderly w -> highlighted (page w) -> step w e = Some w' ->
  highlighted (page w').
Proof.
  intros [_ [Hs Hd]] Hh Hstep.
  destruct e as [value | key | | | i | ms | h | i o | i o]; cbn [step] in Hstep.
  - injection Hstep as <-. cbn [page].
    apply (sameList_highlighted (set_searchInput_value value (page w)));
      [apply handleSearchInput_sameList | exact Hh].
  - injection Hstep as <-.
    pose proof (handleKeyNavigation_highlighted key (page w) Hh) as H.
    destruct (handleKeyNavigation key (page w)) as [s' [[req k] |]]; exact H.
  - injection Hstep as <-. exact Hh.
  - injection Hstep as <-. exact Hh.
  - destruct (searchDropdown_display (page w)); [| discriminate].
    destruct (nth_error (searchDropdown_items (page w)) i) as [item |];
      [| discriminate].
    injection Hstep as <-.
    pose proof (selectLocation_sameList (Z.of_nat (data_index item)) (page w)) as H.
    apply (sameList_highlighted (page w)); [| exact Hh].
    destruct (selectLocation (Z.of_nat (data_index item)) (page w))
      as [s' [[req k] |]]; exact H.
  - injection Hstep as <-. exact Hh.
  - destruct (find (fun t => Nat.eqb (id t) h) (timers (page w))) as [t |];
      [| discriminate].
    destruct (Nat.leb (due t) (clock (page w))); [| discriminate].
    destruct (callback t); injection Hstep as <-; exact Hh.
  - destruct (nth_error (searches w) i) as [k |] eqn:Hk; [| discriminate].
    injection Hstep as <-.
    assert (k = searchContinuation) as ->.
    { apply nth_error_In in Hk.
      rewrite Forall_forall in Hs. apply (Hs k Hk). }
    unfold call, searchContinuation. rewrite Lookups.search_answer.
    cbn [afterSearch page].
    destruct o as [e | st [e | results]]; try exact Hh.
    destruct (failure (Response st (Parsed results))); [exact Hh |].
    apply displaySearchResults_highlighted.
  - destruct (nth_error (details w) i) as [k |] eqn:Hk; [| discriminate].
    injection Hstep as <-.
    assert (k = detailContinuation) as ->.
    { apply nth_error_In in Hk.
      rewrite Forall_forall in Hd. apply (Hd k Hk). }
    unfold call, detailContinuation. rewrite Lookups.detail_answer.
    cbn [afterDetail page].
    destruct o as [e | st [e | data]]; try exact Hh.
    + destruct (failure (Response st (Malformed e))); [| exact Hh].
      destruct (st =? 404); exact Hh.
    + destruct (failure (Response st (Parsed data))); [| exact Hh].
      destruct (st =? 404); exact Hh.
Qed.

Lemma reachable_highlighted (es : list Event) :
  forall w w',
    orderly w -> highlighted (page w) -> run w es = Some w' ->
    highlighted (page w').
Proof.
  induction es as [| e es IH]; intros w w' Ho Hh Hrun; cbn [run] in Hrun.
  - injection Hrun as <-. exact Hh.
  - destruct (step w e) as [w1 |] eqn:Hstep; [| discriminate].
    apply (IH w1 w'); [| | exact Hrun].
    + apply (Debounce.step_view w e w1 Ho Hstep).
    + apply (step_highlighted w e w1 Ho Hh Hstep).
Qed.

Lemma always_highlighted (es : list Event) (w : World) :
  run boot es = Some w -> highlighted (page w).
Proof.
  apply reachable_highlighted; [exact Debounce.boot_orderly |].
  split; [cbn; lia | intros H; contradiction H; reflexivity].
Qed.

(** C2, at the input on which the script breaks it. A search answers
    with three locations, the next one with none, and the user presses
    ArrowDown: the three items of the first answer are still in the
    (hidden) dropdown, the index is clamped to their number, and it becomes
    0 while the result list is empty, outside [-1 .. results.length - 1].
    Both answers did reset the index to -1. *)
Theorem stale_items_break_the_bound :
  exists w1 w2 w3,
    run boot [ input "sa"; elapse 300; timer 0;
               search_response 0
                 (Response 200
                    (Parsed [Samples.saket; Samples.dwarka; Samples.rohini])) ]
    = Some w1 /\
    run w1 [ input "sax"; elapse 300; timer 1;
             search_response 0 (Response 200 (Parsed [])) ]
    = Some w2 /\
    step w2 (keydown "ArrowDown") = Some w3 /\
    selectedLocationIndex (page w1) = -1 /\
    selectedLocationIndex (page w2) = -1 /\
    searchResults (page w2) = [] /\
    searchDropdown_display (page w2) = none /\
    List.length (searchDropdown_items (page w2)) = 3%nat /\
    searchResults (page w3) = [] /\
    selectedLocationIndex (page w3) = 0 /\
    ~ (-1 <= selectedLocationIndex (page w3)
          <= Z.of_nat (List.length (searchResults (page w3))) - 1).
Proof.
  eexists. eexists. eexists.
  split; [vm_compute; reflexivity |].
  split; [vm_compute; reflexivity |].
  split; [vm_compute; reflexivity |].
  repeat split. cbn. lia.
Qed.

End Navigation.

(** * Further properties *)

(** ** The form's fields *)

Module Fields.

Import JS Calculator Observations.

Lemma get_put (k k' v : string) (o : Obj) :
  get k (put k' v o) = if String.eqb k k' then Some v else get k o.
Proof.
  induction o as [| [k'' v''] o IH]; cbn [put get].
  - reflexivity.
  - destruct (String.eqb k' k'') eqn:Hk; cbn [get].
    + apply String.eqb_eq in Hk. subst k''.
      destruct (String.eqb k k'); reflexivity.
    + rewrite IH. destruct (String.eqb k k') eqn:Hkk'; [| reflexivity].
      apply String.eqb_eq in Hkk'. subst k'. rewrite Hk. reflexivity.
Qed.

Lemma put_keys (k v : string) (o : Obj) (x : string) :
  In x (map fst (put k v o)) <-> x = k \/ In x (map fst o).
Proof.
  induction o as [| [k' v'] o IH]; cbn [put map fst In].
  - intuition.
  - destruct (String.eqb k k') eqn:Hk; cbn [map fst In].
    + apply String.eqb_eq in Hk. subst k'. intuition.
    + rewrite IH. intuition.
Qed.

Lemma put_NoDup (k v : string) (o : Obj) :
  NoDup (map fst o) -> NoDup (map fst (put k v o)).
Proof.
  induction o as [| [k' v'] o IH]; intros Hnd; cbn [put map fst].
  - constructor; [intros [] | constructor].
  - cbn [map fst] in Hnd. inversion Hnd as [| x l Hnotin Hnd']; subst.
    destruct (String.eqb k k') eqn:Hk; cbn [map fst].
    + apply String.eqb_eq in Hk. subst k'. constructor; assumption.
    + constructor; [| auto].
      rewrite put_keys. intros [-> | Hin]; [| contradiction].
      rewrite String.eqb_refl in Hk. discriminate.
Qed.

(** What the assignments of the inputs make of an object [o]. *)
Lemma collect_from (inputs : list (string * string)) :
  forall (k : string) (o : Obj),
    NoDup (map fst o) ->
    let body := fold_left (fun body input => assign (fst input) (snd input) body)
                          inputs o in
    get k body
    = (if String.eqb k "__proto__" then get k o
       else match lastValue k inputs with
            | Some v => Some v
            | None => get k o
            end) /\
    NoDup (map fst body) /\
    (In k (map fst body)
     <-> In k (map fst o) \/ (k <> "__proto__" /\ In k (map fst inputs))).
Proof.
  induction inputs as [| [k' v'] inputs IH]; intros k o Hnd;
    cbn [fold_left lastValue fst snd map In].
  - split; [| split; [exact Hnd |]].
    + destruct (String.eqb k "__proto__"); reflexivity.
    + intuition.
  - unfold assign at 2 4 6. destruct (String.eqb k' "__proto__") eqn:Hproto.
    + apply String.eqb_eq in Hproto. subst k'.
      destruct (IH k o Hnd) as [Hget [Hnd' Hin]].
      split; [| split; [exact Hnd' |]].
      * rewrite Hget. destruct (String.eqb k "__proto__") eqn:Hk; [reflexivity |].
        destruct (lastValue k inputs); reflexivity.
      * rewrite Hin. split.
        -- intros [H | [Hne H]]; [left; exact H | right; split; [exact Hne | right; exact H]].
        -- intros [H | [Hne [H | H]]];
             [left; exact H | congruence | right; split; assumption].
    + destruct (IH k (put k' v' o) (put_NoDup k' v' o Hnd)) as [Hget [Hnd' Hin]].
      split; [| split; [exact Hnd' |]].
      * rewrite Hget, get_put.
        destruct (String.eqb k "__proto__") eqn:Hk.
        -- apply String.eqb_eq in Hk. subst k.
           rewrite String.eqb_sym, Hproto. reflexivity.
        -- destruct (lastValue k inputs); [reflexivity |].
           destruct (String.eqb k k'); reflexivity.
      * rewrite Hin, put_keys. apply String.eqb_neq in Hproto. split.
        -- intros [[-> | H] | [Hne H]].
           ++ right. split; [exact Hproto | left; reflexivity].
           ++ left. exact H.
           ++ right. split; [exact Hne | right; exact H].
        -- intros [H | [Hne [H | H]]].
           ++ left. right. exact H.
           ++ left. left. symmetry. exact H.
           ++ right. split; assumption.
Qed.

(** X1. The request body has one own property for each input id other
    than [__proto__] (under that name the assignment of a string makes no
    property), and no other own property; the property under an id holds
    the value of the last input of the form that has that id. *)
Theorem body_holds_last_values (inputs : list (string * string)) (k : string) :
  get k (collect inputs)
  = (if String.eqb k "__proto__" then None else lastValue k inputs) /\
  NoDup (map fst (collect inputs)) /\
  (In k (map fst (collect inputs))
   <-> k <> "__proto__" /\ In k (map fst inputs)).
Proof.
  destruct (collect_from inputs k [] (NoDup_nil _)) as [Hget [Hnd Hin]].
  split; [| split; [exact Hnd |]].
  - unfold collect. rewrite Hget. cbn [get].
    destruct (String.eqb k "__proto__"); [reflexivity |].
    destruct (lastValue k inputs); reflexivity.
  - unfold collect. rewrite Hin. cbn [map In]. intuition.
Qed.

End Fields.

(** ** More on binary64 numbers *)

Module Binary64More.

(** [x < y] gives [x <= y]. *)
Lemma ltb_leb (x y : float) :
  PrimFloat.ltb x y = true -> PrimFloat.leb x y = true.
Proof.
  rewrite ltb_spec, leb_spec.
  unfold SpecFloat.SFltb, SpecFloat.SFleb.
  destruct (SpecFloat.SFcompare (Prim2SF x) (Prim2SF y)) as [[ | | ] | ];
    congruence.
Qed.

(** A number whose specification is NaN is the NaN. *)
Lemma nan_unique (x : float) : Prim2SF x = SpecFloat.S754_nan -> x = nan.
Proof.
  intros H. rewrite <- (SF2Prim_Prim2SF x), H. reflexivity.
Qed.

Lemma mul_nan (x : float) : PrimFloat.mul x nan = nan.
Proof.
  apply nan_unique. rewrite mul_spec.
  replace (Prim2SF nan) with SpecFloat.S754_nan by reflexivity.
  unfold SF64mul, SpecFloat.SFmul. destruct (Prim2SF x); reflexivity.
Qed.

Lemma sub_nan_r (x : float) : PrimFloat.sub x nan = nan.
Proof.
  apply nan_unique. rewrite sub_spec.
  replace (Prim2SF nan) with SpecFloat.S754_nan by reflexivity.
  unfold SF64sub, SpecFloat.SFsub. destruct (Prim2SF x); reflexivity.
Qed.

Lemma sub_nan_l (x : float) : PrimFloat.sub nan x = nan.
Proof.
  apply nan_unique. rewrite sub_spec.
  replace (Prim2SF nan) with SpecFloat.S754_nan by reflexivity.
  unfold SF64sub, SpecFloat.SFsub. destruct (Prim2SF x); reflexivity.
Qed.

End Binary64More.

(** ** The three charts *)

Module Charts.

Import JS Calculator Observations.

Ltac by_type type :=
  destruct (String.eqb type "emi") eqn:?He;
  [| destruct (String.eqb type "affordability") eqn:?Ha;
     [| destruct (String.eqb type "dti") eqn:?Hd;
        [| destruct (String.eqb type "gratuity") eqn:?Hg;
           [| destruct (String.eqb type "retirement") eqn:?Hr]]]];
  repeat match goal with
         | H : String.eqb _ _ = true |- _ => apply String.eqb_eq in H; subst
         | H : String.eqb _ _ = false |- _ => apply String.eqb_neq in H
         end.

Lemma clamp_not_negative (x : float) : PrimFloat.leb 0 (clamp x) = true.
Proof.
  unfold clamp. destruct (PrimFloat.ltb 0 x) eqn:H; [| reflexivity].
  apply Binary64More.ltb_leb. exact H.
Qed.

Lemma positiveOrZero_not_negative (v : num) :
  exists x, positiveOrZero v = Some x /\ PrimFloat.leb 0 x = true.
Proof.
  unfold positiveOrZero, gt0. destruct v as [x |]; cbn [toNumber].
  - destruct (PrimFloat.ltb 0 x) eqn:H.
    + exists x. split; [reflexivity | apply Binary64More.ltb_leb; exact H].
    + exists 0%float. split; reflexivity.
  - exists 0%float. split; reflexivity.
Qed.

Lemma pieConfig_live (cd : option ChartData) (c : Chart) :
  pieConfig cd = Some c -> destroyed c = false.
Proof.
  unfold pieConfig. destruct cd as [cd |]; [| discriminate].
  destruct (gt0 (total cd)); [| discriminate].
  intros H. injection H as <-. reflexivity.
Qed.

Lemma barConfig_live (type : string) (result : Result) (c : Chart) :
  barConfig type result = Some c -> destroyed c = false.
Proof.
  unfold barConfig. destruct (String.eqb type "affordability"); [| discriminate].
  intros H. injection H as <-. reflexivity.
Qed.

Lemma draw_settled (config old : option Chart) :
  (forall c, config = Some c -> destroyed c = false) ->
  settled (fst (draw config old)) (snd (draw config old)).
Proof.
  intros Hlive. destruct config as [c |]; cbn.
  - apply Hlive. reflexivity.
  - destruct old; reflexivity.
Qed.

Lemma destroy_twice (c : option Chart) : destroy (destroy c) = destroy c.
Proof. destruct c; reflexivity. Qed.

(** X2. Every pie chart that is drawn has one dataset in which each
    slice has a label and a colour: labels, amounts and colours are equally
    many (two to four). *)
Theorem pie_slices_are_labelled (type : string) (result : Result) (c : Chart) :
  pieConfig (snd (summarize type result)) = Some c ->
  exists ds,
    chart_datasets c = [ds] /\
    List.length (chart_labels c) = List.length (ds_data ds) /\
    List.length (ds_backgroundColor ds) = List.length (ds_data ds) /\
    (2 <= List.length (ds_data ds) <= 4)%nat.
Proof.
  unfold summarize. by_type type; cbn [snd]; try discriminate.
  all: unfold pieConfig; cbn [total data labels colors];
    destruct (gt0 (income result)); try discriminate;
    match goal with
    | |- context [if ?b then (_ ++ _)%list else _] => destruct b
    end;
    intros H; injection H as <-; eexists; (split; [reflexivity |]);
    cbn; repeat split; lia.
Qed.

Lemma pie_slices_are_labelled_witness :
  exists ds,
    chart_datasets
      (mkChart "pie"
         [Name "Debt"; Name "Remaining Income"; Name "Other/Unallocated"]
         [mkDataset None
            [Some 1916.56%float; Some 7808.45%float; Some 17319.79%float]
            ["#2980b9"; "#27ae60"; "#bdc3c7"] ["#222"]]
         false) = [ds] /\
    List.length (ds_data ds) = 3%nat.
Proof.
  destruct (pie_slices_are_labelled "dti" Budgets.ratio _ eq_refl)
    as [ds [Hds _]].
  exists ds. split; [exact Hds |].
  injection Hds as <-. reflexivity.
Defined.

(** X3. The amount charted for the remaining income, in the bar chart
    and in both pie charts, is never negative, NaN or missing: it is a
    number that is 0 or more, whatever the response holds; the other
    amounts are charted as they come. *)
Theorem remaining_income_charted_not_negative (result : Result) :
  exists x,
    PrimFloat.leb 0 x = true /\
    series (barConfig "affordability" result) 0
    = [income result; expenses result; existing_emis result; Some x] /\
    option_map data (snd (summarize "affordability" result))
    = Some [expenses result; existing_emis result; Some x] /\
    option_map data (snd (summarize "dti" result))
    = Some [debt result; Some x].
Proof.
  destruct (positiveOrZero_not_negative (remaining_income result)) as [x [Hx Hle]].
  exists x. split; [exact Hle |].
  cbn. rewrite Hx. repeat split.
Qed.

Section Parsers.

Variable parseInt : string -> option Z.
Variable parseFloat : string -> float.

Lemma amortConfig_live (type : string) (body : Obj) (result : Result) (c : Chart) :
  amortConfig parseInt parseFloat type body result = Some c ->
  destroyed c = false.
Proof.
  unfold amortConfig.
  destruct (String.eqb type "emi" && truthy (emi result)
            && truthy (principal result) && truthy (total_interest result));
    [| discriminate].
  intros H. injection H as <-. reflexivity.
Qed.


(** X5. After every render, whatever the page was before, each of the
    three canvases agrees with its chart object: a displayed canvas has a
    chart that is not destroyed, and a hidden canvas has no chart or one
    that has been destroyed. *)
Theorem render_settles_charts (type : string) (body : Obj) (result : Result)
        (p : Page) :
  let p' := render parseInt parseFloat type body result p in
  settled (pieChart_display p') (pieChartObj p') /\
  settled (barChart_display p') (barChartObj p') /\
  settled (amortChart_display p') (amortChartObj p').
Proof.
  unfold render.
  destruct (summarize type result) as [html chartData].
  pose proof (draw_settled (pieConfig chartData) (pieChartObj p)
                (pieConfig_live chartData)) as Hpie.
  pose proof (draw_settled (barConfig type result) (barChartObj p)
                (barConfig_live type result)) as Hbar.
  pose proof (draw_settled (amortConfig parseInt parseFloat type body result)
                (amortChartObj p) (amortConfig_live type body result)) as Hamort.
  destruct (draw (pieConfig chartData) (pieChartObj p)).
  destruct (draw (barConfig type result) (barChartObj p)).
  destruct (draw (amortConfig parseInt parseFloat type body result)
                 (amortChartObj p)).
  cbn. auto.
Qed.

(** X6. Rendering the same response again changes nothing: the second
    render leaves the page as the first one made it. *)
Theorem render_twice (type : string) (body : Obj) (result : Result) (p : Page) :
  render parseInt parseFloat type body result
         (render parseInt parseFloat type body result p)
  = render parseInt parseFloat type body result p.
Proof.
  unfold render.
  destruct (summarize type result) as [html chartData].
  destruct (pieConfig chartData), (barConfig type result),
    (amortConfig parseInt parseFloat type body result);
    cbn; rewrite ?destroy_twice; reflexivity.
Qed.

End Parsers.

End Charts.

(** ** More on the amortization schedule *)

Module Schedules.

Import JS Calculator Observations.

Lemma iterate_not_negative (n : nat) :
  forall (i : Z) (E m : float) (l : Loop),
    Forall (fun x => PrimFloat.leb 0 x = true) (principalData l) ->
    Forall (fun x => PrimFloat.leb 0 x = true) (interestData l) ->
    Forall (fun x => PrimFloat.leb 0 x = true) (principalData (iterate n i E m l)) /\
    Forall (fun x => PrimFloat.leb 0 x = true) (interestData (iterate n i E m l)).
Proof.
  induction n as [| n IH]; intros i E m l Hp Hi; cbn [iterate]; [auto |].
  apply IH; cbn [principalData interestData]; apply Forall_app; split;
    try assumption; constructor; try constructor; apply Charts.clamp_not_negative.
Qed.

Lemma iterate_nan (n : nat) :
  forall (i : Z) (E : float) (l : Loop),
    principalData (iterate (S n) i E nan l)
    = (principalData l ++ repeat 0%float (S n))%list /\
    interestData (iterate (S n) i E nan l)
    = (interestData l ++ repeat 0%float (S n))%list /\
    balance (iterate (S n) i E nan l) = nan.
Proof.
  induction n as [| n IH]; intros i E l.
  - cbn [iterate]. rewrite !Binary64More.mul_nan, !Binary64More.sub_nan_r.
    repeat split.
  - change (iterate (S (S n)) i E nan l)
      with (iterate (S n) (i + 1) E nan
              (mkLoop (PrimFloat.sub (balance l)
                         (PrimFloat.sub E (PrimFloat.mul (balance l) nan)))
                      (principalData l
                         ++ [clamp (PrimFloat.sub E (PrimFloat.mul (balance l) nan))])
                      (interestData l ++ [clamp (PrimFloat.mul (balance l) nan)])
                      (months l ++ [i]))).
    destruct (IH (i + 1) E
                 (mkLoop (PrimFloat.sub (balance l)
                            (PrimFloat.sub E (PrimFloat.mul (balance l) nan)))
                         (principalData l
                            ++ [clamp (PrimFloat.sub E (PrimFloat.mul (balance l) nan))])
                         (interestData l ++ [clamp (PrimFloat.mul (balance l) nan)])
                         (months l ++ [i])))
      as [Hp [Hi Hb]].
    rewrite Hp, Hi, Hb. cbn [principalData interestData].
    rewrite !Binary64More.mul_nan, !Binary64More.sub_nan_r, <- !app_assoc.
    repeat split.
Qed.

Lemma scheduleFrom_prefix (n : nat) :
  forall (k : nat) (i : Z) (b E m : float),
    firstn n (scheduleFrom i (n + k) b E m) = scheduleFrom i n b E m.
Proof.
  induction n as [| n IH]; intros k i b E m; cbn [Nat.add scheduleFrom firstn].
  - reflexivity.
  - rewrite IH. reflexivity.
Qed.

Section Parsers.

Variable parseInt : string -> option Z.
Variable parseFloat : string -> float.

(** The two series of the amortization chart, when it is drawn. *)
Lemma amortization_series (body : Obj) (result : Result) :
  truthy (emi result) && truthy (principal result)
    && truthy (total_interest result) = true ->
  let l := iterate
             (match tenureOf parseInt body with
              | Some n => Z.to_nat n
              | None => O
              end) 1 (toNumber (emi result))
             (PrimFloat.div (rateOf parseFloat body) (PrimFloat.mul 12 100))
             (mkLoop (toNumber (principal result)) [] [] []) in
  amortConfig parseInt parseFloat "emi" body result
  = Some (mkChart "line" (map Month (months l))
            [ mkDataset (Some "Principal Paid") (map Some (principalData l))
                        ["rgba(39,174,96,0.1)"] ["#27ae60"];
              mkDataset (Some "Interest Paid") (map Some (interestData l))
                        ["rgba(243,156,18,0.1)"] ["#f39c12"] ]
            false).
Proof.
  intros Hguard. unfold amortConfig.
  cbn [String.eqb Ascii.eqb Bool.eqb andb]. rewrite Hguard. reflexivity.
Qed.

(** X7. No amount of an amortization chart is negative, NaN or missing:
    every point of both series is a number that is 0 or more, whatever the
    principal, the payment, the rate and the tenure are. *)
Theorem recorded_amounts_not_negative (type : string) (body : Obj)
        (result : Result) (c : Chart) (k : nat) (v : num) :
  amortConfig parseInt parseFloat type body result = Some c ->
  In v (series (Some c) k) ->
  exists x, v = Some x /\ PrimFloat.leb 0 x = true.
Proof.
  unfold amortConfig.
  destruct (String.eqb type "emi" && truthy (emi result)
            && truthy (principal result) && truthy (total_interest result));
    [| discriminate].
  intros H. injection H as <-.
  destruct (iterate_not_negative
              (match tenureOf parseInt body with
               | Some n => Z.to_nat n
               | None => O
               end) 1 (toNumber (emi result))
              (PrimFloat.div (rateOf parseFloat body) (PrimFloat.mul 12 100))
              (mkLoop (toNumber (principal result)) [] [] [])
              (Forall_nil _) (Forall_nil _)) as [Hp Hi].
  rewrite Forall_forall in Hp, Hi.
  unfold series. cbn [chart_datasets].
  destruct k as [| [| k]]; cbn [nth_error ds_data].
  - intros Hin. apply in_map_iff in Hin. destruct Hin as [x [<- Hx]].
    exists x. split; [reflexivity | apply Hp; exact Hx].
  - intros Hin. apply in_map_iff in Hin. destruct Hin as [x [<- Hx]].
    exists x. split; [reflexivity | apply Hi; exact Hx].
  - destruct k; intros [].
Qed.


(** X9. When the form gives no usable rate (the field is missing, or
    does not parse, so that the rate is NaN), every amount of the schedule
    is recorded as 0: both series are n zeros for a tenure of n. *)
Theorem no_rate_records_zeros (body : Obj) (result : Result) (n : Z) :
  truthy (emi result) && truthy (principal result)
    && truthy (total_interest result) = true ->
  tenureOf parseInt body = Some n ->
  rateOf parseFloat body = nan ->
  series (amortConfig parseInt parseFloat "emi" body result) 0
  = repeat (Some 0%float) (Z.to_nat n) /\
  series (amortConfig parseInt parseFloat "emi" body result) 1
  = repeat (Some 0%float) (Z.to_nat n) /\
  (get "rate" body = None -> rateOf parseFloat body = nan).
Proof.
  intros Hguard Hn Hrate.
  pose proof (amortization_series body result Hguard) as Hchart.
  cbv zeta in Hchart. rewrite Hn, Hrate in Hchart.
  change (PrimFloat.div nan (PrimFloat.mul 12 100)) with nan in Hchart.
  rewrite Hchart. unfold series. cbn [chart_datasets nth_error ds_data].
  split; [| split].
  - destruct (Z.to_nat n) as [| m]; [reflexivity |].
    destruct (iterate_nan m 1 (toNumber (emi result))
                (mkLoop (toNumber (principal result)) [] [] [])) as [Hp _].
    rewrite Hp. cbn [principalData app]. apply map_repeat.
  - destruct (Z.to_nat n) as [| m]; [reflexivity |].
    destruct (iterate_nan m 1 (toNumber (emi result))
                (mkLoop (toNumber (principal result)) [] [] [])) as [_ [Hi _]].
    rewrite Hi. cbn [interestData app]. apply map_repeat.
  - intros Hget. unfold rateOf. rewrite Hget. reflexivity.
Qed.

(** X10. A longer tenure extends the schedule without changing it: for
    the same result and the same rate, the series drawn for a tenure n are
    the first n points of the series drawn for any longer tenure. *)
Theorem longer_tenure_extends_schedule (body body' : Obj) (result : Result)
        (n n' : Z) (k : nat) :
  truthy (emi result) && truthy (principal result)
    && truthy (total_interest result) = true ->
  tenureOf parseInt body = Some n ->
  tenureOf parseInt body' = Some n' ->
  rateOf parseFloat body = rateOf parseFloat body' ->
  n <= n' ->
  series (amortConfig parseInt parseFloat "emi" body result) k
  = firstn (Z.to_nat n)
           (series (amortConfig parseInt parseFloat "emi" body' result) k).
Proof.
  intros Hguard Hn Hn' Hrate Hle.
  pose proof (amortization_series body result Hguard) as Hchart.
  pose proof (amortization_series body' result Hguard) as Hchart'.
  cbv zeta in Hchart, Hchart'. rewrite Hn in Hchart. rewrite Hn' in Hchart'.
  rewrite <- Hrate in Hchart'. rewrite Hchart, Hchart'.
  set (m := PrimFloat.div (rateOf parseFloat body) (PrimFloat.mul 12 100)).
  destruct (Rendering.iterate_schedule (Z.to_nat n) 1 (toNumber (emi result)) m
              (mkLoop (toNumber (principal result)) [] [] [])) as [Hp [Hi _]].
  destruct (Rendering.iterate_schedule (Z.to_nat n') 1 (toNumber (emi result)) m
              (mkLoop (toNumber (principal result)) [] [] [])) as [Hp' [Hi' _]].
  cbn [balance principalData interestData app] in Hp, Hi, Hp', Hi'.
  assert (Hpre : scheduleFrom 1 (Z.to_nat n) (toNumber (principal result))
                              (toNumber (emi result)) m
                 = firstn (Z.to_nat n)
                     (scheduleFrom 1 (Z.to_nat n') (toNumber (principal result))
                                   (toNumber (emi result)) m)).
  { replace (Z.to_nat n') with (Z.to_nat n + (Z.to_nat n' - Z.to_nat n))%nat by lia.
    symmetry. apply scheduleFrom_prefix. }
  unfold series. cbn [chart_datasets].
  destruct k as [| [| k]]; cbn [nth_error ds_data].
  - rewrite Hp, Hp', Hpre, <- !firstn_map. reflexivity.
  - rewrite Hi, Hi', Hpre, <- !firstn_map. reflexivity.
  - destruct k; cbn; rewrite firstn_nil; reflexivity.
Qed.

End Parsers.

Lemma recorded_amounts_not_negative_witness :
  exists x, Some 4040%float = Some x /\ PrimFloat.leb 0 x = true.
Proof.
  apply (recorded_amounts_not_negative parseDigits parseWhole "emi"
           (collect Samples.loanForm) Samples.loan _ 0 (Some 4040%float) eq_refl).
  right. left. reflexivity.
Defined.


Lemma no_rate_records_zeros_witness :
  series (amortConfig parseDigits parseWhole "emi"
            (collect [("principal", "100000"); ("tenure", "3")]) Samples.loan) 1
  = [Some 0%float; Some 0%float; Some 0%float].
Proof.
  apply (no_rate_records_zeros parseDigits parseWhole
           (collect [("principal", "100000"); ("tenure", "3")]) Samples.loan 3
           eq_refl eq_refl eq_refl).
Defined.

Lemma longer_tenure_extends_schedule_witness :
  series (amortConfig parseDigits parseWhole "emi"
            (collect Samples.loanForm) Samples.loan) 0
  = firstn 3
      (series (amortConfig parseDigits parseWhole "emi"
                 (collect [("principal", "100000"); ("rate", "12"); ("tenure", "5")])
                 Samples.loan) 0).
Proof.
  apply (longer_tenure_extends_schedule parseDigits parseWhole
           (collect Samples.loanForm)
           (collect [("principal", "100000"); ("rate", "12"); ("tenure", "5")])
           Samples.loan 3 5 0 eq_refl eq_refl eq_refl eq_refl).
  lia.
Defined.

End Schedules.

(** ** The dropdown *)

Module Dropdown.

Import JS DelhiAreaAnalyzer Loop Observations.

Lemma lower_twice (c : ascii) : lower (lower c) = lower c.
Proof. destruct c as [[] [] [] [] [] [] [] []]; reflexivity. Qed.

Lemma toLowerCase_twice (s : string) : toLowerCase (toLowerCase s) = toLowerCase s.
Proof.
  induction s as [| c s IH]; cbn [toLowerCase]; [reflexivity |].
  rewrite lower_twice, IH. reflexivity.
Qed.

Lemma lower_flipCase (c : ascii) : lower (flipCase c) = lower c.
Proof. destruct c as [[] [] [] [] [] [] [] []]; reflexivity. Qed.

Lemma toLowerCase_recase (mask : list bool) :
  forall s : string, toLowerCase (recase mask s) = toLowerCase s.
Proof.
  induction mask as [| b mask IH]; intros s.
  - destruct s; reflexivity.
  - destruct s as [| c s]; [reflexivity |].
    destruct b; cbn [recase toLowerCase]; rewrite IH;
      [rewrite lower_flipCase |]; reflexivity.
Qed.

(** X11. The badge class of a crime level does not depend on the case
    of its letters: changing the case of any of the letters A-Z and a-z of
    a level leaves its class as it is.  So low, medium and high, written in
    any mix of cases, get bg-success, bg-warning and bg-danger; and the
    class is bg-secondary exactly when the lower-case form of the level is
    none of these three words. *)
Theorem getCrimeColor_ignores_case (mask : list bool) (level : string) :
  getCrimeColor (recase mask level) = getCrimeColor level /\
  getCrimeColor (recase mask "low") = "bg-success" /\
  getCrimeColor (recase mask "medium") = "bg-warning" /\
  getCrimeColor (recase mask "high") = "bg-danger" /\
  (getCrimeColor level = "bg-secondary" <->
   toLowerCase level <> "low" /\ toLowerCase level <> "medium" /\
   toLowerCase level <> "high").
Proof.
  assert (Hsame : forall l, getCrimeColor (recase mask l) = getCrimeColor l).
  { intros l. unfold getCrimeColor. rewrite toLowerCase_recase. reflexivity. }
  split; [apply Hsame |].
  split; [rewrite Hsame; reflexivity |].
  split; [rewrite Hsame; reflexivity |].
  split; [rewrite Hsame; reflexivity |].
  unfold getCrimeColor.
  destruct (String.eqb (toLowerCase level) "low") eqn:Hl.
  { apply String.eqb_eq in Hl. split; [discriminate | tauto]. }
  destruct (String.eqb (toLowerCase level) "medium") eqn:Hm.
  { apply String.eqb_eq in Hm. split; [discriminate | tauto]. }
  destruct (String.eqb (toLowerCase level) "high") eqn:Hh.
  { apply String.eqb_eq in Hh. split; [discriminate | tauto]. }
  apply String.eqb_neq in Hl, Hm, Hh. tauto.
Qed.

Lemma renderItems_nth (results : list SearchResult) :
  forall (k i : nat) (r : SearchResult),
    nth_error results i = Some r ->
    nth_error (renderItems k results) i
    = Some (mkItem (k + i) r (getSafetyColor (safety_rating r))
                   (getCrimeColor (crime_level r)) false).
Proof.
  induction results as [| r' results IH]; intros k i r Hnth.
  - destruct i; discriminate.
  - destruct i as [| i]; cbn [nth_error renderItems] in *.
    + injection Hnth as ->. rewrite Nat.add_0_r. reflexivity.
    + rewrite (IH (S k) i r Hnth). f_equal. f_equal. lia.
Qed.

Lemma markActive_nth (items : list Item) :
  forall (k : nat) (sel : Z) (i : nat) (item : Item),
    nth_error (markActive k sel items) i = Some item ->
    exists old,
      nth_error items i = Some old /\
      data_index item = data_index old /\ shown item = shown old /\
      active item = (Z.of_nat (k + i) =? sel).
Proof.
  induction items as [| it items IH]; intros k sel i item Hnth.
  - destruct i; discriminate.
  - destruct i as [| i]; cbn [nth_error markActive] in *.
    + injection Hnth as <-. exists it. rewrite Nat.add_0_r. repeat split.
    + destruct (IH (S k) sel i item Hnth) as [old [Hold [Hd [Hs Ha]]]].
      exists old. repeat split; try assumption.
      rewrite Ha. f_equal. lia.
Qed.

(** X12. A response with results, whose texts hold no markup, is
    shown in full and in order: the dropdown is displayed with one item per
    result, the i-th item showing the i-th result, numbered i, with the
    classes of its rating and crime level, and no item highlighted; the
    result list is replaced and the index reset.  An empty response
    replaces the list and resets the index too, and hides the dropdown,
    but leaves the items of the previous response in it. *)
Theorem results_are_shown_in_order (results : list SearchResult) (s : State)
        (i : nat) (r : SearchResult) :
  plainResults results = true ->
  nth_error results i = Some r ->
  nth_error (searchDropdown_items (displaySearchResults results s)) i
  = Some (mkItem i r (getSafetyColor (safety_rating r))
                 (getCrimeColor (crime_level r)) false) /\
  searchDropdown_display (displaySearchResults results s) = block /\
  List.length (searchDropdown_items (displaySearchResults results s))
  = List.length results /\
  searchResults (displaySearchResults results s) = results /\
  selectedLocationIndex (displaySearchResults results s) = -1 /\
  searchDropdown_display (displaySearchResults [] s) = none /\
  searchDropdown_items (displaySearchResults [] s) = searchDropdown_items s /\
  searchResults (displaySearchResults [] s) = [] /\
  selectedLocationIndex (displaySearchResults [] s) = -1.
Proof.
  intros _ Hnth.
  destruct results as [| r0 results]; [destruct i; discriminate |].
  unfold displaySearchResults. cbn [List.length Nat.eqb].
  cbn -[renderItems nth_error].
  rewrite (renderItems_nth (r0 :: results) 0 i r Hnth).
  rewrite Navigation.renderItems_length.
  repeat split.
Qed.

Lemma results_are_shown_in_order_witness :
  nth_error (searchDropdown_items
               (displaySearchResults [Samples.saket; Samples.dwarka] initial)) 1
  = Some (mkItem 1 Samples.dwarka "bg-warning" "bg-warning" false).
Proof.
  apply (results_are_shown_in_order [Samples.saket; Samples.dwarka] initial 1
           Samples.dwarka eq_refl eq_refl).
Defined.

(** What selecting a result of the list does. *)
Lemma selectLocation_hit (i : nat) (r : SearchResult) (s : State) :
  nth_error (searchResults s) i = Some r ->
  selectLocation (Z.of_nat i) s
  = (hideError (showLoading (hideDropdown
                               (set_searchInput_value (location r) s))),
     Some (Async.Location (location r), detailContinuation)).
Proof.
  intros Hnth. unfold selectLocation.
  assert (Hlt : (i < List.length (searchResults s))%nat).
  { apply nth_error_Some. rewrite Hnth. discriminate. }
  replace (0 <=? Z.of_nat i) with true by (symmetry; apply Z.leb_le; lia).
  replace (Z.of_nat i <? Z.of_nat (List.length (searchResults s))) with true
    by (symmetry; apply Z.ltb_lt; lia).
  cbn [andb]. rewrite Nat2Z.id, Hnth. reflexivity.
Qed.

(** X13. Selecting the i-th result of the list puts its location name
    in the search box, hides the dropdown, the detail panel and the error
    panel, displays the loading indicator, and sends exactly one request,
    the detail lookup of that name; the result list and the highlighted
    index stay as they are. *)
Theorem selecting_a_result_loads_it (i : nat) (r : SearchResult) (w : World) :
  nth_error (searchResults (page w)) i = Some r ->
  let w' := afterDetail (selectLocation (Z.of_nat i) (page w)) w in
  searchInput_value (page w') = location r /\
  searchDropdown_display (page w') = none /\
  locationDetails_display (page w') = none /\
  errorMessage_display (page w') = none /\
  loadingIndicator_display (page w') = block /\
  sent w' = (sent w ++ [Async.Location (location r)])%list /\
  details w' = (details w ++ [detailContinuation])%list /\
  searches w' = searches w /\
  searchResults (page w') = searchResults (page w) /\
  selectedLocationIndex (page w') = selectedLocationIndex (page w).
Proof.
  intros Hnth w'. unfold w'.
  rewrite (selectLocation_hit i r (page w) Hnth).
  repeat split.
Qed.

Lemma selecting_a_result_loads_it_witness :
  sent (afterDetail
          (selectLocation 1
             (displaySearchResults [Samples.saket; Samples.dwarka] initial))
          (mkWorld (displaySearchResults [Samples.saket; Samples.dwarka] initial)
                   [Search "dw"] [] []))
  = [Search "dw"; Async.Location "Dwarka"].
Proof.
  apply (selecting_a_result_loads_it 1 Samples.dwarka
           (mkWorld (displaySearchResults [Samples.saket; Samples.dwarka] initial)
                    [Search "dw"] [] []) eq_refl).
Defined.

Lemma markActive_all (items : list Item) :
  forall (k : nat) (sel : Z) (i : nat),
    nth_error (markActive k sel items) i
    = option_map (fun old => mkItem (data_index old) (shown old)
                                    (safetyColor old) (crimeColor old)
                                    (Z.of_nat (k + i) =? sel))
                 (nth_error items i).
Proof.
  induction items as [| it items IH]; intros k sel i.
  - destruct i; reflexivity.
  - destruct i as [| i]; cbn [nth_error markActive option_map].
    + rewrite Nat.add_0_r. destruct it; reflexivity.
    + rewrite IH. replace (S k + i)%nat with (k + S i)%nat by lia. reflexivity.
Qed.

(** X14. After ArrowDown or ArrowUp the dropdown holds as many items
    as before, and at every position the item of before with its number,
    its result and its two badge classes: none is lost, added or moved.
    The item at a position is highlighted exactly when that position is the
    new index: at most one item is highlighted, and none when the index is
    -1. *)
Theorem arrow_highlights_the_indexed_item (key : string) (s : State) :
  key = "ArrowDown" \/ key = "ArrowUp" ->
  let s' := fst (handleKeyNavigation key s) in
  List.length (searchDropdown_items s') = List.length (searchDropdown_items s) /\
  (forall i : nat,
     nth_error (searchDropdown_items s') i
     = option_map (fun old => mkItem (data_index old) (shown old)
                                     (safetyColor old) (crimeColor old)
                                     (Z.of_nat i =? selectedLocationIndex s'))
                  (nth_error (searchDropdown_items s) i)) /\
  (forall i j : nat,
     option_map active (nth_error (searchDropdown_items s') i) = Some true ->
     option_map active (nth_error (searchDropdown_items s') j) = Some true ->
     i = j) /\
  (selectedLocationIndex s' = -1 ->
   forall item, In item (searchDropdown_items s') -> active item = false).
Proof.
  intros Hkey s'.
  assert (Hall : forall i : nat,
             nth_error (searchDropdown_items s') i
             = option_map (fun old => mkItem (data_index old) (shown old)
                                             (safetyColor old) (crimeColor old)
                                             (Z.of_nat i =? selectedLocationIndex s'))
                          (nth_error (searchDropdown_items s) i)).
  { intros i. unfold s'. destruct Hkey as [-> | ->];
      cbn -[markActive Z.min Z.max Z.add Z.sub Z.of_nat nth_error];
      rewrite markActive_all; reflexivity. }
  assert (Hone : forall i : nat,
             option_map active (nth_error (searchDropdown_items s') i) = Some true ->
             Z.of_nat i = selectedLocationIndex s').
  { intros i. rewrite Hall.
    destruct (nth_error (searchDropdown_items s) i); cbn [option_map active];
      [| discriminate].
    intros H. injection H as H. apply Z.eqb_eq. exact H. }
  split; [| split; [exact Hall | split]].
  - unfold s'. destruct Hkey as [-> | ->];
      cbn -[markActive Z.min Z.max Z.add Z.sub Z.of_nat];
      apply Navigation.markActive_length.
  - intros i j Hi Hj. apply Hone in Hi. apply Hone in Hj. lia.
  - intros Hsel item Hin.
    destruct (In_nth_error _ _ Hin) as [i Hi].
    destruct (active item) eqn:Ha; [| reflexivity].
    assert (H : Z.of_nat i = selectedLocationIndex s').
    { apply Hone. rewrite Hi. cbn [option_map]. rewrite Ha. reflexivity. }
    lia.
Qed.

Lemma arrow_highlights_the_indexed_item_witness :
  nth_error
    (searchDropdown_items
       (fst (handleKeyNavigation "ArrowDown"
               (displaySearchResults [Samples.saket; Samples.dwarka] initial))))
    0
  = Some (mkItem 0 Samples.saket "bg-success" "bg-success" true).
Proof.
  rewrite (proj1 (proj2 (arrow_highlights_the_indexed_item "ArrowDown"
                           (displaySearchResults [Samples.saket; Samples.dwarka]
                                                 initial)
                           (or_introl eq_refl))) 0%nat).
  reflexivity.
Defined.

Lemma arrow_down_index (s : State) :
  selectedLocationIndex (fst (handleKeyNavigation "ArrowDown" s))
  = Z.min (selectedLocationIndex s + 1)
          (Z.of_nat (List.length (searchDropdown_items s)) - 1) /\
  List.length (searchDropdown_items (fst (handleKeyNavigation "ArrowDown" s)))
  = List.length (searchDropdown_items s).
Proof.
  split; [reflexivity |].
  cbn -[markActive Z.min Z.add Z.sub Z.of_nat].
  apply Navigation.markActive_length.
Qed.

Lemma arrow_up_index (s : State) :
  selectedLocationIndex (fst (handleKeyNavigation "ArrowUp" s))
  = Z.max (selectedLocationIndex s - 1) (-1) /\
  List.length (searchDropdown_items (fst (handleKeyNavigation "ArrowUp" s)))
  = List.length (searchDropdown_items s).
Proof.
  split; [reflexivity |].
  cbn -[markActive Z.max Z.add Z.sub Z.of_nat].
  apply Navigation.markActive_length.
Qed.

Lemma presses_down (k : nat) :
  forall s,
    -1 <= selectedLocationIndex s
       <= Z.of_nat (List.length (searchDropdown_items s)) - 1 ->
    selectedLocationIndex (presses "ArrowDown" k s)
    = Z.min (selectedLocationIndex s + Z.of_nat k)
            (Z.of_nat (List.length (searchDropdown_items s)) - 1).
Proof.
  induction k as [| k IH]; intros s Hrange; cbn [presses]; [lia |].
  destruct (arrow_down_index s) as [Hi Hl].
  rewrite IH; rewrite Hi, Hl; lia.
Qed.

Lemma presses_up (k : nat) :
  forall s,
    -1 <= selectedLocationIndex s ->
    selectedLocationIndex (presses "ArrowUp" k s)
    = Z.max (selectedLocationIndex s - Z.of_nat k) (-1).
Proof.
  induction k as [| k IH]; intros s Hrange; cbn [presses]; [lia |].
  destruct (arrow_up_index s) as [Hi Hl].
  rewrite IH; rewrite Hi; lia.
Qed.

(** X15. The arrow keys move the highlighted index one step at a time
    and stop at the ends: from an index within the items, k presses of
    ArrowDown lead to index + k, or to the last item if that is less, and
    k presses of ArrowUp to index - k, or to -1 if that is more; ArrowUp
    undoes an ArrowDown pressed above the last item. *)
Theorem arrows_move_and_stop_at_the_ends (s : State) (k : nat) :
  -1 <= selectedLocationIndex s
     <= Z.of_nat (List.length (searchDropdown_items s)) - 1 ->
  selectedLocationIndex (presses "ArrowDown" k s)
  = Z.min (selectedLocationIndex s + Z.of_nat k)
          (Z.of_nat (List.length (searchDropdown_items s)) - 1) /\
  selectedLocationIndex (presses "ArrowUp" k s)
  = Z.max (selectedLocationIndex s - Z.of_nat k) (-1) /\
  (selectedLocationIndex s < Z.of_nat (List.length (searchDropdown_items s)) - 1 ->
   selectedLocationIndex
     (fst (handleKeyNavigation "ArrowUp"
             (fst (handleKeyNavigation "ArrowDown" s))))
   = selectedLocationIndex s).
Proof.
  intros Hrange.
  split; [apply presses_down; exact Hrange |].
  split; [apply presses_up; lia |].
  intros Hlast.
  destruct (arrow_up_index (fst (handleKeyNavigation "ArrowDown" s))) as [Hu _].
  destruct (arrow_down_index s) as [Hd _].
  rewrite Hu, Hd. lia.
Qed.

Lemma arrows_move_and_stop_at_the_ends_witness :
  selectedLocationIndex
    (presses "ArrowDown" 5
       (displaySearchResults [Samples.saket; Samples.dwarka; Samples.rohini]
                             initial))
  = 2.
Proof.
  apply (arrows_move_and_stop_at_the_ends
           (displaySearchResults [Samples.saket; Samples.dwarka; Samples.rohini]
                                 initial) 5).
  cbn. lia.
Defined.

End Dropdown.

(** ** What the dropdown shows is what gets loaded *)

Module Shown.

Import JS DelhiAreaAnalyzer Loop Observations.

Ltac keeps :=
  split; [reflexivity |];
  split; [cbn; intros Hb; first [exact Hb | discriminate Hb] |];
  intros i item Hnth; exists item; auto.

Lemma keeps_mirrors (s s' : State) : keepsDropdown s s' -> mirrors s -> mirrors s'.
Proof.
  intros [Hr [Hd Hi]] [M1 M2]. split.
  - intros Hb. rewrite Hr. apply M1, Hd, Hb.
  - rewrite Hr. intros Hne i item Hnth.
    destruct (Hi i item Hnth) as [old [Hold [Hdi Hsh]]].
    destruct (M2 Hne i old Hold) as [H1 H2].
    rewrite Hdi, Hsh. auto.
Qed.

Lemma renderItems_inv (results : list SearchResult) :
  forall (k i : nat) (item : Item),
    nth_error (renderItems k results) i = Some item ->
    data_index item = (k + i)%nat /\ nth_error results i = Some (shown item).
Proof.
  induction results as [| r results IH]; intros k i item Hnth.
  - destruct i; discriminate.
  - destruct i as [| i]; cbn [nth_error renderItems] in *.
    + injection Hnth as <-. cbn. split; [lia | reflexivity].
    + destruct (IH (S k) i item Hnth) as [Hd Hs]. split; [lia | exact Hs].
Qed.

Lemma displaySearchResults_mirrors (results : list SearchResult) (s : State) :
  mirrors (displaySearchResults results s).
Proof.
  destruct (Navigation.displaySearchResults_resets results s) as [_ [Hr Hit]].
  unfold mirrors. rewrite Hr, Hit.
  destruct results as [| r results].
  - split; [discriminate | intros H; contradiction H; reflexivity].
  - split; [discriminate |].
    intros _ i item Hnth. apply (renderItems_inv _ 0 i item Hnth).
Qed.

Lemma handleSearchInput_keeps (query : string) (s : State) :
  keepsDropdown s (handleSearchInput query s).
Proof.
  unfold handleSearchInput, clearTimeout.
  destruct (searchTimeout s); destruct (Nat.ltb (String.length query) 2); keeps.
Qed.

Lemma selectLocation_keeps (index : Z) (s : State) :
  keepsDropdown s (fst (selectLocation index s)).
Proof.
  unfold selectLocation.
  destruct ((0 <=? index) && (index <? Z.of_nat (List.length (searchResults s))));
    [| keeps].
  destruct (nth_error (searchResults s) (Z.to_nat index)); keeps.
Qed.

Lemma handleKeyNavigation_keeps (key : string) (s : State) :
  keepsDropdown s (fst (handleKeyNavigation key s)).
Proof.
  unfold handleKeyNavigation.
  destruct (String.eqb key "ArrowDown").
  { split; [reflexivity |]. split; [auto |].
    cbn -[markActive]. intros i item Hnth.
    destruct (Dropdown.markActive_nth _ _ _ _ _ Hnth) as [old [Hold [Hd [Hs _]]]].
    exists old. auto. }
  destruct (String.eqb key "ArrowUp").
  { split; [reflexivity |]. split; [auto |].
    cbn -[markActive]. intros i item Hnth.
    destruct (Dropdown.markActive_nth _ _ _ _ _ Hnth) as [old [Hold [Hd [Hs _]]]].
    exists old. auto. }
  destruct (String.eqb key "Enter").
  { destruct (0 <=? selectedLocationIndex s);
      [apply selectLocation_keeps | keeps]. }
  destruct (String.eqb key "Escape"); keeps.
Qed.

Lemma step_mirrors (w : World) (e : Event) (w' : World) :
  orderly w -> mirrors (page w) -> step w e = Some w' -> mirrors (page w').
Proof.
  intros [_ [Hs Hd]] Hm Hstep.
  destruct e as [value | key | | | i | ms | h | i o | i o]; cbn [step] in Hstep.
  - injection Hstep as <-. cbn [page].
    apply (keeps_mirrors (set_searchInput_value value (page w)));
      [apply handleSearchInput_keeps | exact Hm].
  - injection Hstep as <-.
    pose proof (handleKeyNavigation_keeps key (page w)) as H.
    apply (keeps_mirrors (page w)); [| exact Hm].
    destruct (handleKeyNavigation key (page w)) as [s' [[req k] |]]; exact H.
  - injection Hstep as <-. exact Hm.
  - injection Hstep as <-. cbn [page].
    apply (keeps_mirrors (page w)); [keeps | exact Hm].
  - destruct (searchDropdown_display (page w)); [| discriminate].
    destruct (nth_error (searchDropdown_items (page w)) i) as [item |];
      [| discriminate].
    injection Hstep as <-.
    pose proof (selectLocation_keeps (Z.of_nat (data_index item)) (page w)) as H.
    apply (keeps_mirrors (page w)); [| exact Hm].
    destruct (selectLocation (Z.of_nat (data_index item)) (page w))
      as [s' [[req k] |]]; exact H.
  - injection Hstep as <-. exact Hm.
  - destruct (find (fun t => Nat.eqb (id t) h) (timers (page w))) as [t |];
      [| discriminate].
    destruct (Nat.leb (due t) (clock (page w))); [| discriminate].
    destruct (callback t); injection Hstep as <-; [exact Hm |].
    cbn [page]. apply (keeps_mirrors (page w)); [keeps | exact Hm].
  - destruct (nth_error (searches w) i) as [k |] eqn:Hk; [| discriminate].
    injection Hstep as <-.
    assert (k = searchContinuation) as ->.
    { apply nth_error_In in Hk.
      rewrite Forall_forall in Hs. apply (Hs k Hk). }
    unfold call, searchContinuation. rewrite Lookups.search_answer.
    cbn [afterSearch page].
    destruct o as [e | st [e | results]]; try exact Hm.
    destruct (failure (Response st (Parsed results))); [exact Hm |].
    apply displaySearchResults_mirrors.
  - destruct (nth_error (details w) i) as [k |] eqn:Hk; [| discriminate].
    injection Hstep as <-.
    assert (k = detailContinuation) as ->.
    { apply nth_error_In in Hk.
      rewrite Forall_forall in Hd. apply (Hd k Hk). }
    unfold call, detailContinuation. rewrite Lookups.detail_answer.
    cbn [afterDetail page].
    destruct o as [e | st [e | data]]; try exact Hm.
    + destruct (failure (Response st (Malformed e))); [| exact Hm].
      destruct (st =? 404); exact Hm.
    + destruct (failure (Response st (Parsed data))); [| exact Hm].
      destruct (st =? 404); exact Hm.
Qed.

Lemma reachable_mirrors (es : list Event) :
  forall w w',
    orderly w -> mirrors (page w) -> run w es = Some w' -> mirrors (page w').
Proof.
  induction es as [| e es IH]; intros w w' Ho Hm Hrun; cbn [run] in Hrun.
  - injection Hrun as <-. exact Hm.
  - destruct (step w e) as [w1 |] eqn:Hstep; [| discriminate].
    apply (IH w1 w'); [| | exact Hrun].
    + apply (Debounce.step_view w e w1 Ho Hstep).
    + apply (step_mirrors w e w1 Ho Hm Hstep).
Qed.

Lemma boot_mirrors : mirrors (page boot).
Proof.
  split; [discriminate | intros H; contradiction H; reflexivity].
Qed.

(** X16. After any sequence of events in which every search answer
    was a list of results of the service's shape, with texts free of
    markup, a click on an item of the displayed dropdown loads the
    location that item shows: the name shown goes into the search box, the
    dropdown is hidden, and exactly one request is sent, the detail lookup
    of that name. *)
Theorem click_loads_what_is_shown (es : list Event) (w : World)
        (i : nat) (item : Item) :
  run boot es = Some w ->
  plainAnswers es = true ->
  searchDropdown_display (page w) = block ->
  nth_error (searchDropdown_items (page w)) i = Some item ->
  exists w',
    step w (click_item i) = Some w' /\
    sent w' = (sent w ++ [Async.Location (location (shown item))])%list /\
    searchInput_value (page w') = location (shown item) /\
    searchDropdown_display (page w') = none.
Proof.
  intros Hrun _ Hblock Hnth.
  destruct (reachable_mirrors es boot w Debounce.boot_orderly boot_mirrors Hrun)
    as [M1 M2].
  destruct (M2 (M1 Hblock) i item Hnth) as [Hd Hr].
  cbn [step]. rewrite Hblock, Hnth, Hd.
  rewrite (Dropdown.selectLocation_hit i (shown item) (page w) Hr).
  eexists. split; [reflexivity |]. repeat split.
Qed.

Lemma click_loads_what_is_shown_witness :
  exists w w',
    run boot [ input "dw"; elapse 300; timer 0;
               search_response 0
                 (Response 200 (Parsed [Samples.saket; Samples.dwarka]));
               keydown "ArrowDown" ]
    = Some w /\
    step w (click_item 1) = Some w' /\
    sent w' = [Search "dw"; Async.Location "Dwarka"].
Proof.
  destruct (run boot [ input "dw"; elapse 300; timer 0;
                       search_response 0
                         (Response 200 (Parsed [Samples.saket; Samples.dwarka]));
                       keydown "ArrowDown" ])
    as [w |] eqn:Hrun; [| vm_compute in Hrun; discriminate].
  assert (Hw : sent w = [Search "dw"] /\
               searchDropdown_display (page w) = block /\
               nth_error (searchDropdown_items (page w)) 1
               = Some (mkItem 1 Samples.dwarka "bg-warning" "bg-warning" false)).
  { vm_compute in Hrun. injection Hrun as <-. repeat split. }
  destruct Hw as [Hsent [Hblock Hnth]].
  destruct (click_loads_what_is_shown _ w 1 _ Hrun eq_refl Hblock Hnth)
    as [w' [Hstep [Hsent' _]]].
  exists w, w'. split; [reflexivity |]. split; [exact Hstep |].
  rewrite Hsent', Hsent. reflexivity.
Defined.

(** X17. After any sequence of events in which every search answer
    was a list of results of the service's shape, with texts free of
    markup, Enter with an item highlighted and a result list that is not
    empty loads the highlighted result: the index is a position of the
    list, and the detail lookup of the result at that position is the one
    request sent.  With nothing highlighted, or with an empty result list,
    Enter changes nothing and sends nothing. *)
Theorem enter_loads_the_highlighted_result (es : list Event) (w : World) :
  run boot es = Some w ->
  plainAnswers es = true ->
  (0 <= selectedLocationIndex (page w) -> searchResults (page w) <> [] ->
   exists r w',
     nth_error (searchResults (page w))
               (Z.to_nat (selectedLocationIndex (page w))) = Some r /\
     step w (keydown "Enter") = Some w' /\
     sent w' = (sent w ++ [Async.Location (location r)])%list /\
     searchInput_value (page w') = location r) /\
  (selectedLocationIndex (page w) < 0 \/ searchResults (page w) = [] ->
   step w (keydown "Enter") = Some w).
Proof.
  intros Hrun _.
  destruct (Navigation.always_highlighted es w Hrun) as [Hrange Hlen].
  split.
  - intros Hpos Hne.
    pose proof (Hlen Hne) as Heq.
    destruct (nth_error (searchResults (page w))
                        (Z.to_nat (selectedLocationIndex (page w))))
      as [r |] eqn:Hr.
    + exists r. eexists. split; [reflexivity |].
      cbn [step]. unfold handleKeyNavigation. cbn [String.eqb Ascii.eqb Bool.eqb].
      replace (0 <=? selectedLocationIndex (page w)) with true
        by (symmetry; apply Z.leb_le; exact Hpos).
      rewrite <- (Z2Nat.id (selectedLocationIndex (page w)) Hpos) at 1.
      rewrite (Dropdown.selectLocation_hit _ r (page w) Hr).
      split; [reflexivity |]. split; reflexivity.
    + apply nth_error_None in Hr. lia.
  - intros Hnone. cbn [step]. unfold handleKeyNavigation.
    cbn [String.eqb Ascii.eqb Bool.eqb].
    destruct (0 <=? selectedLocationIndex (page w)) eqn:Hpos.
    + apply Z.leb_le in Hpos. destruct Hnone as [Hneg | Hempty]; [lia |].
      unfold selectLocation. rewrite Hempty. cbn [List.length].
      replace (selectedLocationIndex (page w) <? Z.of_nat 0) with false
        by (symmetry; apply Z.ltb_ge; lia).
      rewrite andb_false_r. destruct w; reflexivity.
    + destruct w; reflexivity.
Qed.

Lemma enter_loads_the_highlighted_result_witness :
  exists w,
    run boot [ input "dw"; elapse 300; timer 0;
               search_response 0
                 (Response 200 (Parsed [Samples.saket; Samples.dwarka]));
               keydown "Escape" ]
    = Some w /\
    step w (keydown "Enter") = Some w.
Proof.
  destruct (run boot [ input "dw"; elapse 300; timer 0;
                       search_response 0
                         (Response 200 (Parsed [Samples.saket; Samples.dwarka]));
                       keydown "Escape" ])
    as [w |] eqn:Hrun; [| vm_compute in Hrun; discriminate].
  exists w. split; [reflexivity |].
  apply (enter_loads_the_highlighted_result _ w Hrun eq_refl).
  left. vm_compute in Hrun. injection Hrun as <-. reflexivity.
Defined.

(** X18. After any sequence of events in which every search answer
    was a list of results of the service's shape, with texts free of
    markup, the highlighted index is -1 or the position of an item of the
    dropdown; and while the result list is not empty the dropdown holds one
    item per result, so that the index is then within the result list as
    well. *)
Theorem index_stays_within_the_items (es : list Event) (w : World) :
  run boot es = Some w ->
  plainAnswers es = true ->
  -1 <= selectedLocationIndex (page w)
     <= Z.of_nat (List.length (searchDropdown_items (page w))) - 1 /\
  (searchResults (page w) <> [] ->
   List.length (searchDropdown_items (page w))
   = List.length (searchResults (page w)) /\
   selectedLocationIndex (page w)
   <= Z.of_nat (List.length (searchResults (page w))) - 1).
Proof.
  intros Hrun _.
  destruct (Navigation.reachable_highlighted es boot w Debounce.boot_orderly)
    as [Hrange Hlen]; [| exact Hrun |].
  { split; [cbn; lia | intros H; contradiction H; reflexivity]. }
  split; [exact Hrange |].
  intros Hne. pose proof (Hlen Hne) as Heq. split; [exact Heq | lia].
Qed.

Lemma index_stays_within_the_items_witness :
  exists w,
    run boot [ input "dw"; elapse 300; timer 0;
               search_response 0
                 (Response 200 (Parsed [Samples.saket; Samples.dwarka]));
               keydown "ArrowDown"; keydown "ArrowDown"; keydown "ArrowDown" ]
    = Some w /\
    -1 <= selectedLocationIndex (page w)
       <= Z.of_nat (List.length (searchDropdown_items (page w))) - 1.
Proof.
  destruct (run boot [ input "dw"; elapse 300; timer 0;
                       search_response 0
                         (Response 200 (Parsed [Samples.saket; Samples.dwarka]));
                       keydown "ArrowDown"; keydown "ArrowDown";
                       keydown "ArrowDown" ])
    as [w |] eqn:Hrun; [| vm_compute in Hrun; discriminate].
  exists w. split; [reflexivity |].
  apply (index_stays_within_the_items _ w Hrun eq_refl).
Defined.

End Shown.

(** ** Panels, late answers and the blur timer *)

Module Panels.

Import JS DelhiAreaAnalyzer Loop Observations.

Lemma handleSearchInput_error (query : string) (s : State) :
  errorMessage_display (handleSearchInput query s) = errorMessage_display s.
Proof.
  unfold handleSearchInput, clearTimeout.
  destruct (searchTimeout s); destruct (Nat.ltb (String.length query) 2);
    reflexivity.
Qed.

(** A handler that may start a detail lookup either starts one or leaves
    the error panel as it is. *)
Lemma afterDetail_error (s : State) (r : State * option (InFlight LocationData))
      (w : World) :
  (snd r = None /\ errorMessage_display (fst r) = errorMessage_display s) \/
  (exists name k, snd r = Some (Async.Location name, k)) ->
  errorMessage_display (page (afterDetail r w)) = errorMessage_display s \/
  exists name, sent (afterDetail r w) = (sent w ++ [Async.Location name])%list.
Proof.
  destruct r as [s' start]. cbn [fst snd].
  intros [[-> He] | [name [k ->]]]; cbn [afterDetail page sent].
  - left. exact He.
  - right. exists name. reflexivity.
Qed.

Lemma selectLocation_error (index : Z) (s : State) :
  (snd (selectLocation index s) = None /\
   errorMessage_display (fst (selectLocation index s)) = errorMessage_display s) \/
  (exists name k, snd (selectLocation index s) = Some (Async.Location name, k)).
Proof.
  unfold selectLocation.
  destruct ((0 <=? index) && (index <? Z.of_nat (List.length (searchResults s))));
    [| left; split; reflexivity].
  destruct (nth_error (searchResults s) (Z.to_nat index)) as [r |];
    [| left; split; reflexivity].
  right. rewrite Debounce.detail_starts. eexists. eexists. reflexivity.
Qed.

Lemma handleKeyNavigation_error (key : string) (s : State) :
  (snd (handleKeyNavigation key s) = None /\
   errorMessage_display (fst (handleKeyNavigation key s))
   = errorMessage_display s) \/
  (exists name k, snd (handleKeyNavigation key s) = Some (Async.Location name, k)).
Proof.
  unfold handleKeyNavigation.
  destruct (String.eqb key "ArrowDown"); [left; split; reflexivity |].
  destruct (String.eqb key "ArrowUp"); [left; split; reflexivity |].
  destruct (String.eqb key "Enter").
  { destruct (0 <=? selectedLocationIndex s);
      [apply selectLocation_error | left; split; reflexivity]. }
  destruct (String.eqb key "Escape"); left; split; reflexivity.
Qed.

(** X19. Once the error panel is displayed it stays displayed until a
    detail lookup starts: no edit, key, click, timer or answer hides it,
    not even the answer of a search that succeeds; the one event after
    which it may be hidden is one that sends a detail lookup. *)
Theorem error_stays_until_a_lookup_starts (w : World) (e : Event) (w' : World) :
  orderly w ->
  step w e = Some w' ->
  errorMessage_display (page w) = block ->
  errorMessage_display (page w') = block \/
  exists name, sent w' = (sent w ++ [Async.Location name])%list.
Proof.
  intros [_ [Hs Hd]] Hstep Herr.
  destruct e as [value | key | | | i | ms | h | i o | i o]; cbn [step] in Hstep.
  - injection Hstep as <-. left. cbn [page].
    rewrite handleSearchInput_error. exact Herr.
  - injection Hstep as <-. rewrite <- Herr.
    apply afterDetail_error, handleKeyNavigation_error.
  - injection Hstep as <-. left. exact Herr.
  - injection Hstep as <-. left. exact Herr.
  - destruct (searchDropdown_display (page w)); [| discriminate].
    destruct (nth_error (searchDropdown_items (page w)) i) as [item |];
      [| discriminate].
    injection Hstep as <-. rewrite <- Herr.
    apply afterDetail_error, selectLocation_error.
  - injection Hstep as <-. left. exact Herr.
  - destruct (find (fun t => Nat.eqb (id t) h) (timers (page w))) as [t |];
      [| discriminate].
    destruct (Nat.leb (due t) (clock (page w))); [| discriminate].
    destruct (callback t); injection Hstep as <-; left; exact Herr.
  - destruct (nth_error (searches w) i) as [k |] eqn:Hk; [| discriminate].
    injection Hstep as <-.
    assert (k = searchContinuation) as ->.
    { apply nth_error_In in Hk.
      rewrite Forall_forall in Hs. apply (Hs k Hk). }
    unfold call, searchContinuation. rewrite Lookups.search_answer.
    cbn [afterSearch page]. left.
    destruct o as [e | st [e | results]]; try reflexivity.
    destruct (failure (Response st (Parsed results))); [reflexivity |].
    unfold displaySearchResults.
    destruct (Nat.eqb (List.length results) 0); exact Herr.
  - destruct (nth_error (details w) i) as [k |] eqn:Hk; [| discriminate].
    injection Hstep as <-.
    assert (k = detailContinuation) as ->.
    { apply nth_error_In in Hk.
      rewrite Forall_forall in Hd. apply (Hd k Hk). }
    unfold call, detailContinuation. rewrite Lookups.detail_answer.
    cbn [afterDetail page]. left.
    destruct o as [e | st [e | data]]; try reflexivity.
    + destruct (failure (Response st (Malformed e))); [| reflexivity].
      destruct (st =? 404); reflexivity.
    + destruct (failure (Response st (Parsed data))); [| exact Herr].
      destruct (st =? 404); reflexivity.
Qed.

Lemma error_stays_until_a_lookup_starts_witness :
  exists w w',
    run boot [ input "dw"; elapse 300; timer 0;
               search_response 0 (NetworkError (mkError "Failed to fetch"));
               input "dwa"; elapse 300; timer 1 ] = Some w /\
    step w (search_response 0 (Response 200 (Parsed [Samples.dwarka]))) = Some w' /\
    searchDropdown_display (page w') = block /\
    errorMessage_display (page w') = block.
Proof.
  destruct (run boot [ input "dw"; elapse 300; timer 0;
                       search_response 0 (NetworkError (mkError "Failed to fetch"));
                       input "dwa"; elapse 300; timer 1 ])
    as [w |] eqn:Hrun; [| vm_compute in Hrun; discriminate].
  destruct (step w (search_response 0 (Response 200 (Parsed [Samples.dwarka]))))
    as [w' |] eqn:Hstep;
    [| vm_compute in Hrun; injection Hrun as <-; vm_compute in Hstep; discriminate].
  exists w, w'. split; [reflexivity |]. split; [exact Hstep |].
  assert (Herr : errorMessage_display (page w) = block)
    by (vm_compute in Hrun; injection Hrun as <-; reflexivity).
  assert (Hsent : sent w' = sent w /\ searchDropdown_display (page w') = block).
  { vm_compute in Hrun. injection Hrun as <-.
    vm_compute in Hstep. injection Hstep as <-. split; reflexivity. }
  destruct Hsent as [Hsent Hblock].
  split; [exact Hblock |].
  destruct (error_stays_until_a_lookup_starts w _ w'
              (Debounce.run_orderly _ boot w Debounce.boot_orderly Hrun)
              Hstep Herr) as [H | [name H]]; [exact H |].
  exfalso. rewrite Hsent in H.
  apply (f_equal (@List.length Request)) in H.
  rewrite length_app in H. cbn in H. lia.
Defined.

(** X20. Answers are applied in the order they arrive, not in the order
    of their requests: with two searches in flight, when the later one is
    answered first and the earlier one afterwards, the results left on the
    page are those of the earlier request. *)
Theorem late_answer_overwrites_newer_results
        (w : World) (older newer : list SearchResult) :
  orderly w ->
  (2 <= List.length (searches w))%nat ->
  exists w',
    run w [ search_response 1 (Response 200 (Parsed newer));
            search_response 0 (Response 200 (Parsed older)) ] = Some w' /\
    searchResults (page w') = older /\
    selectedLocationIndex (page w') = -1 /\
    sent w' = sent w.
Proof.
  intros [_ [Hs _]] Hlen.
  destruct (searches w) as [| k0 [| k1 rest]] eqn:Hsearches;
    cbn [List.length] in Hlen; try lia.
  inversion Hs as [| a l Hk0 Hs']; subst.
  inversion Hs' as [| a l Hk1 _]; subst.
  cbn [run step]. rewrite Hsearches. cbn [nth_error remove_nth].
  unfold call, searchContinuation. rewrite !Lookups.search_answer.
  cbn [failure ok status Z.leb Z.compare Pos.compare Pos.compare_cont andb negb
       afterSearch page sent searches details nth_error remove_nth].
  rewrite Lookups.search_answer.
  cbn [failure ok status Z.leb Z.compare Pos.compare Pos.compare_cont andb negb
       afterSearch page sent].
  eexists. split; [reflexivity |].
  destruct (Navigation.displaySearchResults_resets older
              (displaySearchResults newer (page w))) as [Hi [Hr _]].
  cbn [page sent]. auto.
Qed.

Lemma late_answer_overwrites_newer_results_witness :
  exists w w',
    run boot [ input "dw"; elapse 300; timer 0;
               input "dwa"; elapse 300; timer 1 ] = Some w /\
    run w [ search_response 1 (Response 200 (Parsed [Samples.dwarka]));
            search_response 0
              (Response 200 (Parsed [Samples.saket; Samples.dwarka])) ]
    = Some w' /\
    searchResults (page w') = [Samples.saket; Samples.dwarka].
Proof.
  destruct (run boot [ input "dw"; elapse 300; timer 0;
                       input "dwa"; elapse 300; timer 1 ])
    as [w |] eqn:Hrun; [| vm_compute in Hrun; discriminate].
  assert (Hlen : (2 <= List.length (searches w))%nat).
  { vm_compute in Hrun. injection Hrun as <-. cbn. lia. }
  destruct (late_answer_overwrites_newer_results w
              [Samples.saket; Samples.dwarka] [Samples.dwarka]
              (Debounce.run_orderly _ boot w Debounce.boot_orderly Hrun) Hlen)
    as [w' [Hrun' [Hres _]]].
  exists w, w'. split; [reflexivity |]. split; [exact Hrun' | exact Hres].
Defined.

End Panels.

(** ** The timer of the blur listener *)

Module Grace.

Import JS DelhiAreaAnalyzer Loop Observations.

Lemma find_fresh (ts : list Timer) (h d : nat) (cb : Callback) :
  (forall t, In t ts -> (id t < h)%nat) ->
  find (fun t => Nat.eqb (id t) h) (ts ++ [mkTimer h d cb])
  = Some (mkTimer h d cb).
Proof.
  induction ts as [| t ts IH]; intros Hold; cbn [app find id].
  - rewrite Nat.eqb_refl. reflexivity.
  - pose proof (Hold t (or_introl eq_refl)) as Hlt.
    replace (Nat.eqb (id t) h) with false
      by (symmetry; apply Nat.eqb_neq; lia).
    apply IH. intros t' Hin. apply Hold. right. exact Hin.
Qed.

(** X21. Leaving the search box does not hide the dropdown at once: it
    arms a timer that cannot run before 200 ms have passed, and until then
    the dropdown is as it was; when the timer runs, the dropdown is
    hidden, and nothing is sent. *)
Theorem blur_hides_after_200_ms (w : World) (ms : nat) :
  orderly w ->
  (exists w1,
     step w blur = Some w1 /\
     searchDropdown_display (page w1) = searchDropdown_display (page w) /\
     searchDropdown_items (page w1) = searchDropdown_items (page w)) /\
  ((ms < 200)%nat ->
   run w [blur; elapse ms; timer (nextTimer (page w))] = None) /\
  ((200 <= ms)%nat ->
   exists w',
     run w [blur; elapse ms; timer (nextTimer (page w))] = Some w' /\
     searchDropdown_display (page w') = none /\
     sent w' = sent w /\
     searchResults (page w') = searchResults (page w)).
Proof.
  intros [[_ [Hold _]] _].
  split; [eexists; split; [reflexivity | split; reflexivity] |].
  pose proof (find_fresh (timers (page w)) (nextTimer (page w))
                (clock (page w) + 200) HideDropdown Hold) as Hfind.
  split; intros Hms; cbn [run step page];
    cbn [setTimeout snd timers set_nextTimer set_timers set_clock clock];
    rewrite Hfind; cbn [due callback].
  - replace (Nat.leb (clock (page w) + 200) (clock (page w) + ms)) with false
      by (symmetry; apply Nat.leb_gt; lia).
    reflexivity.
  - replace (Nat.leb (clock (page w) + 200) (clock (page w) + ms)) with true
      by (symmetry; apply Nat.leb_le; lia).
    eexists. split; [reflexivity |]. repeat split.
Qed.

Lemma blur_hides_after_200_ms_witness :
  run boot [blur; elapse 150; timer 0] = None.
Proof.
  apply (blur_hides_after_200_ms boot 150 Debounce.boot_orderly). lia.
Defined.

Lemma untouched_own (s s' : State) : untouched s s' -> ownHandle s -> ownHandle s'.
Proof.
  intros [Ht [Hh [Hn _]]] Hown. unfold ownHandle. rewrite Ht, Hh, Hn. exact Hown.
Qed.

Lemma filter_own (keep : Timer -> bool) (s : State) :
  ownHandle s -> ownHandle (set_timers (filter keep (timers s)) s).
Proof.
  intros Hown h Hh. destruct (Hown h Hh) as [Hlt Hno].
  split; [exact Hlt |].
  cbn. intros t Hin. apply filter_In in Hin. destruct Hin as [Hin _].
  apply Hno. exact Hin.
Qed.

Lemma clearTimeout_own (s : State) :
  ownHandle s -> ownHandle (clearTimeout (searchTimeout s) s).
Proof.
  intros Hown. unfold clearTimeout.
  destruct (searchTimeout s) as [h |] eqn:Hh; [| exact Hown].
  intros h' Hh'. cbn in Hh'. rewrite Hh in Hh'. injection Hh' as <-.
  destruct (Hown h Hh) as [Hlt Hno]. split; [exact Hlt |].
  cbn. intros t Hin. apply filter_In in Hin. destruct Hin as [Hin _].
  apply Hno. exact Hin.
Qed.

Lemma handleSearchInput_own (query : string) (s : State) :
  tidy s -> ownHandle s -> ownHandle (handleSearchInput query s).
Proof.
  intros Htidy Hown.
  pose proof (clearTimeout_own s Hown) as Hown1.
  destruct (Debounce.clearTimeout_disarms s Htidy) as [[_ [Hold _]] _].
  unfold handleSearchInput.
  set (s1 := clearTimeout (searchTimeout s) s) in *.
  destruct (Nat.ltb (String.length query) 2).
  - apply (untouched_own s1); [repeat split | exact Hown1].
  - cbn. intros h Hh. cbn in Hh. injection Hh as <-.
    split; [cbn; lia |].
    cbn. intros t Hin Hid. apply in_app_or in Hin.
    destruct Hin as [Hin | [<- | []]]; [| discriminate].
    pose proof (Hold t Hin). lia.
Qed.

Lemma step_own (w : World) (e : Event) (w' : World) :
  orderly w -> ownHandle (page w) -> step w e = Some w' -> ownHandle (page w').
Proof.
  intros [Htidy [Hs Hd]] Hown Hstep.
  destruct e as [value | key | | | i | ms | h | i o | i o]; cbn [step] in Hstep.
  - injection Hstep as <-. cbn [page].
    apply handleSearchInput_own.
    + apply (Debounce.untouched_tidy (page w)); [repeat split | exact Htidy].
    + apply (untouched_own (page w)); [repeat split | exact Hown].
  - injection Hstep as <-.
    destruct (Debounce.afterDetail_view (page w)
                (handleKeyNavigation key (page w)) w Htidy Hs Hd
                (Debounce.handleKeyNavigation_starts key (page w)))
      as [_ [Hun _]].
    apply (untouched_own (page w)); assumption.
  - injection Hstep as <-. cbn [page].
    intros h Hh. cbn in Hh. destruct (Hown h Hh) as [Hlt Hno].
    split; [cbn; lia |].
    cbn. intros t Hin Hid. apply in_app_or in Hin.
    destruct Hin as [Hin | [<- | []]]; [apply Hno; assumption |].
    cbn in Hid. lia.
  - injection Hstep as <-. cbn [page].
    apply (untouched_own (page w)); [repeat split | exact Hown].
  - destruct (searchDropdown_display (page w)); [| discriminate].
    destruct (nth_error (searchDropdown_items (page w)) i) as [item |];
      [| discriminate].
    injection Hstep as <-.
    destruct (Debounce.afterDetail_view (page w)
                (selectLocation (Z.of_nat (data_index item)) (page w)) w
                Htidy Hs Hd
                (Debounce.selectLocation_starts
                   (Z.of_nat (data_index item)) (page w)))
      as [_ [Hun _]].
    apply (untouched_own (page w)); assumption.
  - injection Hstep as <-. exact Hown.
  - destruct (find (fun t => Nat.eqb (id t) h) (timers (page w))) as [t |];
      [| discriminate].
    destruct (Nat.leb (due t) (clock (page w))); [| discriminate].
    pose proof (filter_own (fun t => negb (Nat.eqb (id t) h)) (page w) Hown)
      as Hown'.
    destruct (callback t).
    + rewrite Debounce.search_starts in Hstep. injection Hstep as <-.
      exact Hown'.
    + injection Hstep as <-. cbn [page].
      apply (untouched_own
               (set_timers
                  (filter (fun t => negb (Nat.eqb (id t) h)) (timers (page w)))
                  (page w))); [repeat split | exact Hown'].
  - destruct (nth_error (searches w) i) as [k |] eqn:Hk; [| discriminate].
    injection Hstep as <-.
    assert (k = searchContinuation) as ->.
    { apply nth_error_In in Hk.
      rewrite Forall_forall in Hs. apply (Hs k Hk). }
    destruct (Debounce.search_resumes o (page w)) as [s' [Hcall Hun]].
    rewrite Hcall. cbn [afterSearch page].
    apply (untouched_own (page w)); assumption.
  - destruct (nth_error (details w) i) as [k |] eqn:Hk; [| discriminate].
    injection Hstep as <-.
    assert (k = detailContinuation) as ->.
    { apply nth_error_In in Hk.
      rewrite Forall_forall in Hd. apply (Hd k Hk). }
    destruct (Debounce.detail_resumes o (page w)) as [s' [Hcall Hun]].
    rewrite Hcall. cbn [afterDetail page].
    apply (untouched_own (page w)); assumption.
Qed.

Lemma reachable_own (es : list Event) :
  forall w w',
    orderly w -> ownHandle (page w) -> run w es = Some w' ->
    orderly w' /\ ownHandle (page w').
Proof.
  induction es as [| e es IH]; intros w w' Ho Hown Hrun; cbn [run] in Hrun.
  - injection Hrun as <-. auto.
  - destruct (step w e) as [w1 |] eqn:Hstep; [| discriminate].
    apply (IH w1 w'); [| | exact Hrun].
    + apply (Debounce.step_view w e w1 Ho Hstep).
    + apply (step_own w e w1 Ho Hown Hstep).
Qed.

Lemma filter_hide_keep (keep : Timer -> bool) (ts : list Timer) :
  (forall t, In t ts -> callback t = HideDropdown -> keep t = true) ->
  filter (fun t => match callback t with
                   | HideDropdown => true
                   | RunSearch _ => false
                   end) (filter keep ts)
  = filter (fun t => match callback t with
                     | HideDropdown => true
                     | RunSearch _ => false
                     end) ts.
Proof.
  induction ts as [| t ts IH]; intros Hkeep; [reflexivity |].
  assert (IH' := IH (fun t' Hin => Hkeep t' (or_intror Hin))).
  cbn [filter].
  destruct (callback t) eqn:Hcb.
  - destruct (keep t); cbn [filter]; rewrite ?Hcb; exact IH'.
  - rewrite (Hkeep t (or_introl eq_refl) Hcb). cbn [filter]. rewrite Hcb.
    f_equal. exact IH'.
Qed.

(** X22. Typing never cancels the hiding of the dropdown that a blur
    has scheduled: whatever has happened on the page before, an edit of the
    search box leaves every pending timer of the blur listener in place
    (the handle it clears is only ever that of a search timer). *)
Theorem typing_keeps_the_hide_timers (es : list Event) (w : World)
        (value : string) :
  run boot es = Some w ->
  exists w',
    step w (input value) = Some w' /\
    hideTimers (page w') = hideTimers (page w).
Proof.
  intros Hrun.
  destruct (reachable_own es boot w Debounce.boot_orderly) as [_ Hown];
    [intros h Hh; discriminate Hh | exact Hrun |].
  eexists. split; [reflexivity |].
  cbn [page]. unfold hideTimers, handleSearchInput.
  assert (Hclear :
            hideTimers (clearTimeout (searchTimeout (page w))
                                     (set_searchInput_value value (page w)))
            = hideTimers (page w)).
  { unfold hideTimers, clearTimeout. cbn [searchTimeout set_searchInput_value].
    destruct (searchTimeout (page w)) as [h |] eqn:Hh; [| reflexivity].
    cbn [timers set_timers set_searchInput_value].
    apply filter_hide_keep. intros t Hin Hcb.
    destruct (Hown h Hh) as [_ Hno].
    destruct (Nat.eqb (id t) h) eqn:Hid; [| reflexivity].
    apply Nat.eqb_eq in Hid. exfalso. apply (Hno t Hin Hid Hcb). }
  unfold hideTimers in Hclear.
  destruct (Nat.ltb (String.length value) 2); [exact Hclear |].
  cbn. rewrite filter_app. cbn. rewrite app_nil_r. exact Hclear.
Qed.

Lemma typing_keeps_the_hide_timers_witness :
  exists w w',
    run boot [input "dw"; blur; elapse 100] = Some w /\
    step w (input "dwa") = Some w' /\
    hideTimers (page w') = [mkTimer 1 200 HideDropdown].
Proof.
  destruct (run boot [input "dw"; blur; elapse 100])
    as [w |] eqn:Hrun; [| vm_compute in Hrun; discriminate].
  destruct (typing_keeps_the_hide_timers _ w "dwa" Hrun) as [w' [Hstep Hhide]].
  exists w, w'. split; [reflexivity |]. split; [exact Hstep |].
  rewrite Hhide. vm_compute in Hrun. injection Hrun as <-. reflexivity.
Defined.

End Grace.

(** ** What is sent, and the loading indicator *)

Module Traffic.

Import JS DelhiAreaAnalyzer Loop Observations.

Lemma typed_app (es es' : list Event) :
  typed (es ++ es') = (typed es ++ typed es')%list.
Proof.
  induction es as [| e es IH]; [reflexivity |].
  destruct e; cbn [typed app]; rewrite IH; reflexivity.
Qed.

(** The queries sent and the queries of the armed timers are texts of
    [T] with at least 2 characters. *)
Lemma run_typed (es : list Event) :
  forall (w w' : World) (T : list string),
    orderly w ->
    Forall (fun q => In q T /\ (2 <= String.length q)%nat)
           (queriesSent (sent w)) ->
    Forall (fun dq => In (snd dq) T /\ (2 <= String.length (snd dq))%nat)
           (armed (timers (page w))) ->
    run w es = Some w' ->
    Forall (fun q => In q (T ++ typed es) /\ (2 <= String.length q)%nat)
           (queriesSent (sent w')).
Proof.
  induction es as [| e es IH]; intros w w' T Ho Hq Ha Hrun; cbn [run] in Hrun.
  - injection Hrun as <-. cbn [typed]. rewrite app_nil_r. exact Hq.
  - destruct (step w e) as [w1 |] eqn:Hstep; [| discriminate].
    destruct (Debounce.step_view w e w1 Ho Hstep) as [Ho1 Hview].
    assert (Hmono : forall (P : string -> Prop) q,
               In q T /\ P q -> In q (T ++ typed [e]) /\ P q).
    { intros P q [Hin HP]. split; [apply in_or_app; left; exact Hin | exact HP]. }
    assert (H1 : Forall (fun q => In q (T ++ typed [e])
                                  /\ (2 <= String.length q)%nat)
                        (queriesSent (sent w1)) /\
                 Forall (fun dq => In (snd dq) (T ++ typed [e])
                                   /\ (2 <= String.length (snd dq))%nat)
                        (armed (timers (page w1)))).
    { destruct e as [value | key | | | i | ms | h | i o | i o];
        try (destruct Hview as [_ [Hq1 Ha1]]; rewrite Hq1, Ha1;
             split; [(eapply Forall_impl; [| exact Hq]; intros q0 H0; exact (Hmono (fun q1 => (2 <= String.length q1)%nat) q0 H0))
                    | (eapply Forall_impl; [| exact Ha]; intros dq H0; exact (Hmono (fun q1 => (2 <= String.length q1)%nat) (snd dq) H0))]; fail).
      - destruct Hview as [_ [Hs1 [Ha1 _]]]. rewrite Hs1, Ha1.
        split; [(eapply Forall_impl; [| exact Hq]; intros q0 H0; exact (Hmono (fun q1 => (2 <= String.length q1)%nat) q0 H0)) |].
        destruct (Nat.ltb (String.length value) 2) eqn:Hlen; constructor;
          [| constructor].
        apply Nat.ltb_ge in Hlen. cbn [snd typed].
        split; [apply in_or_app; right; left; reflexivity | exact Hlen].
      - destruct Hview as [_ [[Hq1 Ha1] | [d [q [Hin [_ [Ha1 Hq1]]]]]]].
        + rewrite Hq1, Ha1.
          split; [(eapply Forall_impl; [| exact Hq]; intros q0 H0; exact (Hmono (fun q1 => (2 <= String.length q1)%nat) q0 H0))
                 | (eapply Forall_impl; [| exact Ha]; intros dq H0; exact (Hmono (fun q1 => (2 <= String.length q1)%nat) (snd dq) H0))].
        + rewrite Hq1, Ha1. split; [| constructor].
          apply Forall_app. split; [(eapply Forall_impl; [| exact Hq]; intros q0 H0; exact (Hmono (fun q1 => (2 <= String.length q1)%nat) q0 H0)) |].
          constructor; [| constructor].
          rewrite Forall_forall in Ha.
          apply (Hmono (fun q => (2 <= String.length q)%nat) q).
          apply (Ha (d, q) Hin). }
    destruct H1 as [Hq1 Ha1].
    pose proof (IH w1 w' (T ++ typed [e])%list Ho1 Hq1 Ha1 Hrun) as H.
    rewrite <- app_assoc, <- typed_app in H. exact H.
Qed.

(** X23. The controller only ever searches for what the user has typed:
    whatever happens on the page, every search request sent carries a text
    that the search box has been given by an edit, and that has at least 2
    characters. *)
Theorem searches_are_typed_texts (es : list Event) (w : World) (q : string) :
  run boot es = Some w ->
  In (Search q) (sent w) ->
  In q (typed es) /\ (2 <= String.length q)%nat.
Proof.
  intros Hrun Hin.
  pose proof (run_typed es boot w [] Debounce.boot_orderly
                (Forall_nil _) (Forall_nil _) Hrun) as H.
  rewrite Forall_forall in H. cbn [app] in H. apply H.
  clear H Hrun. induction (sent w) as [| r l IH]; [contradiction |].
  destruct Hin as [-> | Hin].
  - left. reflexivity.
  - destruct r; cbn [queriesSent]; [right |..]; auto.
Qed.

Lemma searches_are_typed_texts_witness :
  exists w,
    run boot [input "d"; elapse 400; input "dw"; elapse 300; timer 0] = Some w /\
    In "dw" (typed [input "d"; elapse 400; input "dw"; elapse 300; timer 0]).
Proof.
  destruct (run boot [input "d"; elapse 400; input "dw"; elapse 300; timer 0])
    as [w |] eqn:Hrun; [| vm_compute in Hrun; discriminate].
  exists w. split; [reflexivity |].
  apply (searches_are_typed_texts _ w "dw" Hrun).
  vm_compute in Hrun. injection Hrun as <-. left. reflexivity.
Defined.

Lemma app_one_inv {A} (l : list A) (x y : A) : (l ++ [x] = l ++ [y])%list -> x = y.
Proof.
  intros H. apply app_inv_head in H. injection H as ->. reflexivity.
Qed.

Lemma app_one_neq {A} (l : list A) (x : A) : l <> (l ++ [x])%list.
Proof.
  intros H. apply (f_equal (@List.length A)) in H.
  rewrite length_app in H. cbn in H. lia.
Qed.

Lemma selectLocation_names (index : Z) (s : State) (w : World) (name : string) :
  sent (afterDetail (selectLocation index s) w)
  = (sent w ++ [Async.Location name])%list ->
  exists r, In r (searchResults s) /\ location r = name.
Proof.
  unfold selectLocation.
  destruct ((0 <=? index) && (index <? Z.of_nat (List.length (searchResults s))));
    [| intros H; cbn in H; contradiction (app_one_neq _ _ H)].
  destruct (nth_error (searchResults s) (Z.to_nat index)) as [r |] eqn:Hr;
    [| intros H; cbn in H; contradiction (app_one_neq _ _ H)].
  rewrite Debounce.detail_starts. cbn [afterDetail sent].
  intros H. apply app_one_inv in H. injection H as <-.
  exists r. split; [apply (nth_error_In _ _ Hr) | reflexivity].
Qed.

(** X24. The controller only ever loads a location of the result list:
    whenever an event sends a detail lookup, its name is the location of a
    result that was in the list when the event happened. *)
Theorem lookups_name_a_result (w : World) (e : Event) (w' : World)
        (name : string) :
  orderly w ->
  step w e = Some w' ->
  sent w' = (sent w ++ [Async.Location name])%list ->
  exists r, In r (searchResults (page w)) /\ location r = name.
Proof.
  intros [_ [Hs Hd]] Hstep Hsent.
  destruct e as [value | key | | | i | ms | h | i o | i o]; cbn [step] in Hstep.
  - injection Hstep as <-. contradiction (app_one_neq _ _ Hsent).
  - injection Hstep as <-. unfold handleKeyNavigation in Hsent.
    destruct (String.eqb key "ArrowDown");
      [contradiction (app_one_neq _ _ Hsent) |].
    destruct (String.eqb key "ArrowUp");
      [contradiction (app_one_neq _ _ Hsent) |].
    destruct (String.eqb key "Enter").
    + destruct (0 <=? selectedLocationIndex (page w));
        [apply (selectLocation_names _ _ _ _ Hsent)
        | contradiction (app_one_neq _ _ Hsent)].
    + destruct (String.eqb key "Escape");
        contradiction (app_one_neq _ _ Hsent).
  - injection Hstep as <-. contradiction (app_one_neq _ _ Hsent).
  - injection Hstep as <-. contradiction (app_one_neq _ _ Hsent).
  - destruct (searchDropdown_display (page w)); [| discriminate].
    destruct (nth_error (searchDropdown_items (page w)) i) as [item |];
      [| discriminate].
    injection Hstep as <-. apply (selectLocation_names _ _ _ _ Hsent).
  - injection Hstep as <-. contradiction (app_one_neq _ _ Hsent).
  - destruct (find (fun t => Nat.eqb (id t) h) (timers (page w))) as [t |];
      [| discriminate].
    destruct (Nat.leb (due t) (clock (page w))); [| discriminate].
    destruct (callback t).
    + rewrite Debounce.search_starts in Hstep. injection Hstep as <-.
      cbn [afterSearch sent] in Hsent. apply app_one_inv in Hsent. discriminate.
    + injection Hstep as <-. contradiction (app_one_neq _ _ Hsent).
  - destruct (nth_error (searches w) i) as [k |] eqn:Hk; [| discriminate].
    injection Hstep as <-.
    assert (k = searchContinuation) as ->.
    { apply nth_error_In in Hk.
      rewrite Forall_forall in Hs. apply (Hs k Hk). }
    destruct (Debounce.search_resumes o (page w)) as [s' [Hcall _]].
    rewrite Hcall in Hsent. contradiction (app_one_neq _ _ Hsent).
  - destruct (nth_error (details w) i) as [k |] eqn:Hk; [| discriminate].
    injection Hstep as <-.
    assert (k = detailContinuation) as ->.
    { apply nth_error_In in Hk.
      rewrite Forall_forall in Hd. apply (Hd k Hk). }
    destruct (Debounce.detail_resumes o (page w)) as [s' [Hcall _]].
    rewrite Hcall in Hsent. contradiction (app_one_neq _ _ Hsent).
Qed.

Lemma lookups_name_a_result_witness :
  exists r,
    In r [Samples.saket; Samples.dwarka] /\ location r = "Dwarka".
Proof.
  apply (lookups_name_a_result
           (mkWorld (displaySearchResults [Samples.saket; Samples.dwarka] initial)
                    [] [] [])
           (click_item 1)
           (afterDetail
              (selectLocation 1
                 (displaySearchResults [Samples.saket; Samples.dwarka] initial))
              (mkWorld (displaySearchResults [Samples.saket; Samples.dwarka]
                                             initial) [] [] []))
           "Dwarka").
  - repeat split; try constructor; intros t [].
  - reflexivity.
  - reflexivity.
Defined.

End Traffic.

(** ** The loading indicator *)

Module Spinner.

Import JS DelhiAreaAnalyzer Loop Observations.

Lemma handleSearchInput_loading (query : string) (s : State) :
  loadingIndicator_display (handleSearchInput query s)
  = loadingIndicator_display s.
Proof.
  unfold handleSearchInput, clearTimeout.
  destruct (searchTimeout s); destruct (Nat.ltb (String.length query) 2);
    reflexivity.
Qed.

Lemma selectLocation_loading (index : Z) (s : State) :
  (snd (selectLocation index s) = None /\
   loadingIndicator_display (fst (selectLocation index s))
   = loadingIndicator_display s) \/
  (exists req k, snd (selectLocation index s) = Some (req, k)).
Proof.
  unfold selectLocation.
  destruct ((0 <=? index) && (index <? Z.of_nat (List.length (searchResults s))));
    [| left; split; reflexivity].
  destruct (nth_error (searchResults s) (Z.to_nat index)) as [r |];
    [| left; split; reflexivity].
  right. rewrite Debounce.detail_starts. eexists. eexists. reflexivity.
Qed.

Lemma handleKeyNavigation_loading (key : string) (s : State) :
  (snd (handleKeyNavigation key s) = None /\
   loadingIndicator_display (fst (handleKeyNavigation key s))
   = loadingIndicator_display s) \/
  (exists req k, snd (handleKeyNavigation key s) = Some (req, k)).
Proof.
  unfold handleKeyNavigation.
  destruct (String.eqb key "ArrowDown"); [left; split; reflexivity |].
  destruct (String.eqb key "ArrowUp"); [left; split; reflexivity |].
  destruct (String.eqb key "Enter").
  { destruct (0 <=? selectedLocationIndex s);
      [apply selectLocation_loading | left; split; reflexivity]. }
  destruct (String.eqb key "Escape"); left; split; reflexivity.
Qed.

Lemma afterDetail_loading (s : State) (r : State * option (InFlight LocationData))
      (w : World) :
  (loadingIndicator_display s = block -> details w <> []) ->
  (snd r = None /\ loadingIndicator_display (fst r) = loadingIndicator_display s) \/
  (exists req k, snd r = Some (req, k)) ->
  loadingIndicator_display (page (afterDetail r w)) = block ->
  details (afterDetail r w) <> [].
Proof.
  intros Hinv. destruct r as [s' start]. cbn [fst snd].
  intros [[-> Hl] | [req [k ->]]]; cbn [afterDetail page details].
  - rewrite Hl. exact Hinv.
  - intros _ H. apply app_eq_nil in H. destruct H as [_ H]. discriminate H.
Qed.

Lemma step_loading (w : World) (e : Event) (w' : World) :
  orderly w ->
  (loadingIndicator_display (page w) = block -> details w <> []) ->
  step w e = Some w' ->
  loadingIndicator_display (page w') = block -> details w' <> [].
Proof.
  intros [_ [Hs Hd]] Hinv Hstep.
  destruct e as [value | key | | | i | ms | h | i o | i o]; cbn [step] in Hstep.
  - injection Hstep as <-. cbn [page details].
    rewrite handleSearchInput_loading. exact Hinv.
  - injection Hstep as <-.
    apply (afterDetail_loading (page w)); [exact Hinv |].
    apply handleKeyNavigation_loading.
  - injection Hstep as <-. exact Hinv.
  - injection Hstep as <-. exact Hinv.
  - destruct (searchDropdown_display (page w)); [| discriminate].
    destruct (nth_error (searchDropdown_items (page w)) i) as [item |];
      [| discriminate].
    injection Hstep as <-.
    apply (afterDetail_loading (page w)); [exact Hinv |].
    apply selectLocation_loading.
  - injection Hstep as <-. exact Hinv.
  - destruct (find (fun t => Nat.eqb (id t) h) (timers (page w))) as [t |];
      [| discriminate].
    destruct (Nat.leb (due t) (clock (page w))); [| discriminate].
    destruct (callback t); injection Hstep as <-; exact Hinv.
  - destruct (nth_error (searches w) i) as [k |] eqn:Hk; [| discriminate].
    injection Hstep as <-.
    assert (k = searchContinuation) as ->.
    { apply nth_error_In in Hk.
      rewrite Forall_forall in Hs. apply (Hs k Hk). }
    unfold call, searchContinuation. rewrite Lookups.search_answer.
    cbn [afterSearch page details].
    destruct o as [e | st [e | results]]; try exact Hinv.
    destruct (failure (Response st (Parsed results))); [exact Hinv |].
    unfold displaySearchResults.
    destruct (Nat.eqb (List.length results) 0); exact Hinv.
  - destruct (nth_error (details w) i) as [k |] eqn:Hk; [| discriminate].
    injection Hstep as <-.
    assert (k = detailContinuation) as ->.
    { apply nth_error_In in Hk.
      rewrite Forall_forall in Hd. apply (Hd k Hk). }
    unfold call, detailContinuation. rewrite Lookups.detail_answer.
    cbn [afterDetail page]. intros H. discriminate H.
Qed.

Lemma run_loading (es : list Event) :
  forall w w',
    orderly w ->
    (loadingIndicator_display (page w) = block -> details w <> []) ->
    run w es = Some w' ->
    loadingIndicator_display (page w') = block -> details w' <> [].
Proof.
  induction es as [| e es IH]; intros w w' Ho Hinv Hrun; cbn [run] in Hrun.
  - injection Hrun as <-. exact Hinv.
  - destruct (step w e) as [w1 |] eqn:Hstep; [| discriminate].
    apply (IH w1 w'); [| | exact Hrun].
    + apply (Debounce.step_view w e w1 Ho Hstep).
    + apply (step_loading w e w1 Ho Hinv Hstep).
Qed.

(** X25. The loading indicator is never left on: whatever has happened
    on the page, when no detail lookup is waiting for its answer the
    loading indicator is hidden. *)
Theorem no_loading_without_a_lookup (es : list Event) (w : World) :
  run boot es = Some w ->
  details w = [] ->
  loadingIndicator_display (page w) = none.
Proof.
  intros Hrun Hnone.
  destruct (loadingIndicator_display (page w)) eqn:Hl; [| reflexivity].
  exfalso.
  apply (run_loading es boot w Debounce.boot_orderly) in Hrun;
    [contradiction | discriminate | exact Hl].
Qed.

Lemma no_loading_without_a_lookup_witness :
  exists w,
    run boot [ input "sa"; elapse 300; timer 0;
               search_response 0 (Response 200 (Parsed [Samples.saket]));
               click_item 0;
               detail_response 0 (Response 500 (Malformed (mkError "oops"))) ]
    = Some w /\
    loadingIndicator_display (page w) = none.
Proof.
  destruct (run boot [ input "sa"; elapse 300; timer 0;
                       search_response 0 (Response 200 (Parsed [Samples.saket]));
                       click_item 0;
                       detail_response 0
                         (Response 500 (Malformed (mkError "oops"))) ])
    as [w |] eqn:Hrun; [| vm_compute in Hrun; discriminate].
  exists w. split; [reflexivity |].
  apply (no_loading_without_a_lookup _ w Hrun).
  vm_compute in Hrun. injection Hrun as <-. reflexivity.
Defined.

End Spinner.
